(** * Monthly disease forecasting: data resolver and forecast selector

    A shallow embedding of
    [backend/app/agents/report_generator/services/forecast.py] and of the
    local adapter [services/local_data.py], and the properties their
    specification states about them.

    Modelling conventions.
    - A Python [float] is a [pyfloat]: an exact rational or [NaN].  Rounding
      and infinities are left out; the comparisons and [max]/[min] treat
      [NaN] the way Python does (every comparison with it is false).
    - A pandas [Timestamp] is a month ordinal ([12 * year + month - 1]) and a
      day of the month, without the bounds pandas puts on dates (the years
      1677 to 2262); a monthly frame is the list of its rows
      (month ordinal, value) in index order.  The response keeps the
      timestamps where the code renders them with [strftime].
    - An exception is a [Raise] in the [result] type; [try ... except
      Exception] is a [match] on it.
    - [Optional[List[Dict]]] is a list: [None] and [[]] are both falsy and
      the code never tells them apart.
    - The resolver is modelled twice.  First on records that are already
      read, [Obs]: the date a [Timestamp], the value a float, which may be
      [NaN]; there reading cannot fail.  Then, in [Raw], on the records as
      the sources deliver them: the date a text that [pd.to_datetime] has to
      parse, the value a float or [None] that [float(...)] has to accept;
      the code calls both outside every [try].  There the forecast of
      statsmodels is labelled by dates or by positions, and rendering a
      position as a date raises.  On records that all read and forecasts
      labelled by dates, the two agree ([forecast_monthly_read]).
    - [horizon_months] is an [int], a [Z]: [range] and [pd.date_range] give
      nothing for a negative one.
    - Strings are ASCII.
    - The adapters, the ISO3 helper, the synthetic generator, pandas' date
      parser and statsmodels are collaborators: the record [Env] holds
      them, and nothing is assumed of them but what a theorem states and
      what their types say: a statistical fit that returns gives, for every
      step, a date with a mean and an interval. *)

From Stdlib Require Import String Ascii.
From Stdlib Require Import ZArith QArith Qabs List Bool Lia Lqa.
From Stdlib Require Import Sorted Permutation.
Import ListNotations.

Local Open Scope string_scope.
Local Open Scope list_scope.
Local Open Scope Z_scope.

Set Implicit Arguments.

(** ** Exceptions *)

Inductive result (A : Type) : Type :=
| Ok (a : A)
| Raise (msg : string).

Arguments Ok {A} a.
Arguments Raise {A} msg.

Definition bind {A B : Type} (r : result A) (k : A -> result B) : result B :=
  match r with
  | Ok a => k a
  | Raise e => Raise e
  end.

Notation "'do' x <- r ; k" := (bind r (fun x => k))
  (at level 10, x name, r at level 100, k at level 200).

(** [try: r except Exception: d] *)
Definition try_except {A : Type} (r : result A) (d : A) : A :=
  match r with
  | Ok a => a
  | Raise _ => d
  end.

Definition is_ok {A : Type} (r : result A) : bool :=
  match r with Ok _ => true | Raise _ => false end.

(** ** Floats *)

Inductive pyfloat : Type :=
| Num (q : Q)
| NaN.

Definition Qltb (a b : Q) : bool := negb (Qle_bool b a).

Definition flt (a b : pyfloat) : bool :=
  match a, b with
  | Num x, Num y => Qltb x y
  | _, _ => false
  end.

Definition fgt (a b : pyfloat) : bool := flt b a.

Definition isnan (a : pyfloat) : bool :=
  match a with NaN => true | Num _ => false end.

Definition lift2 (op : Q -> Q -> Q) (a b : pyfloat) : pyfloat :=
  match a, b with
  | Num x, Num y => Num (op x y)
  | _, _ => NaN
  end.

Definition fadd := lift2 Qplus.
Definition fsub := lift2 Qminus.
Definition fmul := lift2 Qmult.

(** Python's two-argument [max(a, b)]: [b] when [b > a], else [a]. *)
Definition py_max2 (a b : pyfloat) : pyfloat := if fgt b a then b else a.

(** Python's [max(values)] and [min(values)] on a non-empty list: keep the
    first item and replace it by a later one that compares greater (smaller). *)
Definition py_max (v0 : pyfloat) (vs : list pyfloat) : pyfloat :=
  fold_left (fun m v => if fgt v m then v else m) vs v0.

Definition py_min (v0 : pyfloat) (vs : list pyfloat) : pyfloat :=
  fold_left (fun m v => if flt v m then v else m) vs v0.

(** Order on floats as propositions; false as soon as one side is [NaN]. *)
Definition fle (a b : pyfloat) : Prop :=
  match a, b with
  | Num x, Num y => (x <= y)%Q
  | _, _ => False
  end.

Definition epsilon : Q := 1 # 1000000000.

(** ** Dates and observations *)

Record Timestamp : Type := mkTs { ts_month : Z; ts_day : Z }.

Definition ymd (y m d : Z) : Timestamp := mkTs (12 * y + (m - 1)) d.
Definition month_start (m : Z) : Timestamp := mkTs m 1.
Definition ts_year (t : Timestamp) : Z := ts_month t / 12.
Definition ts_mon (t : Timestamp) : Z := ts_month t mod 12 + 1.

Definition ts_leb (a b : Timestamp) : bool :=
  (ts_month a <? ts_month b)
  || ((ts_month a =? ts_month b) && (ts_day a <=? ts_day b)).

(** One record of a series: [{"date": ..., "value": ...}]. *)
Record Obs : Type := mkObs { obs_date : Timestamp; obs_value : pyfloat }.

(** A monthly frame: rows (month ordinal, value), in index order. *)
Definition Monthly : Type := list (Z * Q).

(** ** [_is_flat] *)

Definition _is_flat (values : list pyfloat) : bool :=
  match values with
  | [] => true
  | v0 :: vs =>
      if (length values <? 2)%nat then true
      else flt (fsub (py_max v0 vs) (py_min v0 vs)) (Num epsilon)
  end.

(** ** [_to_monthly_df] *)

(** [dropna(subset=["date", "value"])]: rows whose value is [NaN] go. *)
Fixpoint dropna (series : list Obs) : list (Timestamp * Q) :=
  match series with
  | [] => []
  | o :: rest =>
      match obs_value o with
      | Num q => (obs_date o, q) :: dropna rest
      | NaN => dropna rest
      end
  end.

Fixpoint insert_by_date (r : Timestamp * Q) (rows : list (Timestamp * Q))
  : list (Timestamp * Q) :=
  match rows with
  | [] => [r]
  | r' :: rest =>
      if ts_leb (fst r) (fst r') then r :: rows
      else r' :: insert_by_date r rest
  end.

(** [sort_values("date")] *)
Fixpoint sort_values (rows : list (Timestamp * Q)) : list (Timestamp * Q) :=
  match rows with
  | [] => []
  | r :: rest => insert_by_date r (sort_values rest)
  end.

Definition Zmem (x : Z) (l : list Z) : bool := existsb (Z.eqb x) l.

Fixpoint unique (l : list Z) : list Z :=
  match l with
  | [] => []
  | x :: rest => if Zmem x rest then unique rest else x :: unique rest
  end.

(** [df["date"].dt.day.nunique()] *)
Definition nunique_days (rows : list (Timestamp * Q)) : nat :=
  length (unique (map (fun r => ts_day (fst r)) rows)).

(** One step of a grouped sum: the frame is kept sorted by month, a value of
    a month already present is added to that month's total. *)
Fixpoint add_to_group (m : Z) (v : Q) (g : Monthly) : Monthly :=
  match g with
  | [] => [(m, v)]
  | (k, s) :: g' =>
      if m <? k then (m, v) :: g
      else if m =? k then (k, (s + v)%Q) :: g'
      else (k, s) :: add_to_group m v g'
  end.

(** [df["date"].values.astype("datetime64[M]")] then
    [df.groupby("date")["value"].sum()]. *)
Definition groupby_month_sum (rows : list (Timestamp * Q)) : Monthly :=
  fold_left (fun g r => add_to_group (ts_month (fst r)) (snd r) g) rows [].

Fixpoint lookup (m : Z) (g : Monthly) : option Q :=
  match g with
  | [] => None
  | (k, s) :: g' => if m =? k then Some s else lookup m g'
  end.

Definition last_month (g : Monthly) (d : Z) : Z := fst (last g (d, 0%Q)).

(** [df.set_index("date").resample("MS").sum()]: one bin per calendar month
    from the first to the last month present; an empty bin sums to 0. *)
Definition resample_MS_sum (rows : list (Timestamp * Q)) : Monthly :=
  let g := groupby_month_sum rows in
  match g with
  | [] => []
  | (m0, _) :: _ =>
      let m1 := last_month g m0 in
      map (fun i => let m := m0 + Z.of_nat i in
                    (m, match lookup m g with Some s => s | None => 0%Q end))
          (seq 0 (Z.to_nat (m1 - m0 + 1)))
  end.

Definition is_daily (rows : list (Timestamp * Q)) : bool :=
  (28 <=? length rows)%nat && (5 <? nunique_days rows)%nat.

Definition _to_monthly_df (series : list Obs) : Monthly :=
  match series with
  | [] => []
  | _ =>
      let df := sort_values (dropna series) in
      if is_daily df then resample_MS_sum df
      else groupby_month_sum df
  end.

(** Python's [range(n)] for an [int]: [0, ..., n - 1], empty when [n <= 0]. *)
Definition range (n : Z) : list nat := seq 0 (Z.to_nat n).

(** [_make_future_month_index]: [steps] month starts, the first one the month
    after [last]; none for a [steps] that is zero or negative. *)
Definition _make_future_month_index (last : Timestamp) (steps : Z)
  : list Timestamp :=
  map (fun i => month_start (ts_month last + 1 + Z.of_nat i)) (range steps).

(** ** Strings *)

Definition is_space (c : ascii) : bool :=
  let n := nat_of_ascii c in
  (((9 <=? n) && (n <=? 13)) || ((28 <=? n) && (n <=? 32)))%nat.

Definition is_upper (c : ascii) : bool :=
  let n := nat_of_ascii c in ((65 <=? n) && (n <=? 90))%nat.

Definition is_lower (c : ascii) : bool :=
  let n := nat_of_ascii c in ((97 <=? n) && (n <=? 122))%nat.

Definition lower_char (c : ascii) : ascii :=
  if is_upper c then ascii_of_nat (nat_of_ascii c + 32) else c.

Definition upper_char (c : ascii) : ascii :=
  if is_lower c then ascii_of_nat (nat_of_ascii c - 32) else c.

Fixpoint map_string (f : ascii -> ascii) (s : string) : string :=
  match s with
  | EmptyString => EmptyString
  | String c r => String (f c) (map_string f r)
  end.

Definition lower : string -> string := map_string lower_char.
Definition upper : string -> string := map_string upper_char.

Fixpoint lstrip (s : string) : string :=
  match s with
  | EmptyString => EmptyString
  | String c r => if is_space c then lstrip r else s
  end.

Fixpoint rev_string (s acc : string) : string :=
  match s with
  | EmptyString => acc
  | String c r => rev_string r (String c acc)
  end.

Definition strip (s : string) : string :=
  rev_string (lstrip (rev_string (lstrip s) EmptyString)) EmptyString.

(** [needle in hay] *)
Fixpoint contains (needle hay : string) : bool :=
  prefix needle hay
  || match hay with
     | EmptyString => false
     | String _ r => contains needle r
     end.

Fixpoint all_chars (p : ascii -> bool) (s : string) : bool :=
  match s with
  | EmptyString => true
  | String c r => p c && all_chars p r
  end.

Definition isalpha (s : string) : bool :=
  negb (s =? EmptyString)%string
  && all_chars (fun c => is_upper c || is_lower c) s.

Definition str_mem (x : string) (l : list string) : bool :=
  existsb (String.eqb x) l.

(** ** Region normalization *)

Definition _ALIAS_TO_ISO3 : list (string * string) :=
  [("world", "WLD"); ("global", "WLD"); ("usa", "USA");
   ("united states", "USA")].

Fixpoint dict_get (k : string) (d : list (string * string)) : option string :=
  match d with
  | [] => None
  | (k', v) :: d' => if (k =? k')%string then Some v else dict_get k d'
  end.

(** The closing loop of [_region_candidates]: first occurrences, in order. *)
Fixpoint uniq_from (seen : list string) (cands : list string) : list string :=
  match cands with
  | [] => []
  | x :: rest =>
      if str_mem x seen then uniq_from seen rest
      else x :: uniq_from (x :: seen) rest
  end.

(** ** The collaborators

    [timeseries.py] (the ISO3 helper, the live adapter and the synthetic
    generator), pandas' date parser, statsmodels' SARIMAX and the
    transcendental functions of [math] are outside this module; the code is
    modelled over any behaviour of theirs, exceptions included. *)

(** One row of a strategy's output: the index label, the mean and the two
    columns of the confidence frame at that label. *)
Record FRow : Type :=
  mkFRow { f_date : Timestamp; f_mean : pyfloat; f_lo : pyfloat; f_hi : pyfloat }.

Record Env : Type := mkEnv {
  (** [to_iso3(name)]; the empty string stands for a falsy result. *)
  to_iso3 : string -> result string;
  (** [fetch_covid_timeseries(region, date_from, date_to)] *)
  fetch_covid_timeseries : string -> string -> string -> result (list Obs);
  (** [fetch_local_timeseries(disease, region, date_from, date_to)] *)
  fetch_local_timeseries :
    string -> string -> string -> string -> result (list Obs);
  (** [generate_synthetic_timeseries(date_from, date_to, weekly_increase_str,
      points, start_value)] *)
  generate_synthetic_timeseries :
    string -> string -> option string -> nat -> Q -> result (list Obs);
  (** the default of its [weekly_increase_str] argument *)
  weekly_increase_default : option string;
  (** whether statsmodels could be imported *)
  _HAS_SM : bool;
  (** [SARIMAX(y, ...).fit().get_forecast(steps)]: mean and 80% interval *)
  sarimax_fit : Monthly -> Z -> result (list FRow);
  (** the square root inside pandas' [std] *)
  sqrt : Q -> Q;
  (** [math.sin(k / 12.0 * 2 * math.pi)] *)
  sin_twelfth : nat -> Q;
  (** [pd.Timestamp(text)] *)
  pd_Timestamp : string -> result Timestamp
}.

Section Core.

Variable E : Env.

Definition _region_candidates (region : string) : list string :=
  let s := strip region in
  if (s =? EmptyString)%string then []
  else
    let cands := [s] in
    let cands :=
      match dict_get (lower s) _ALIAS_TO_ISO3 with
      | Some alias =>
          if (alias =? EmptyString)%string then cands
          else (cands ++ [alias])%list
      | None => cands
      end in
    let cands :=
      match to_iso3 E s with
      | Ok iso =>
          if negb (iso =? EmptyString)%string && negb (str_mem (upper iso) cands)
          then (cands ++ [upper iso])%list else cands
      | Raise _ => cands
      end in
    let cands :=
      if (String.length s =? 3)%nat && isalpha s then
        let up := upper s in
        if negb (str_mem up cands) then (cands ++ [up])%list else cands
      else cands in
    uniq_from [] cands.

(** ** The data resolver *)

(** [[float(x.get("value", 0.0)) for x in series]] *)
Definition values_of (series : list Obs) : list pyfloat := map obs_value series.

(** [not series or len(series) < 2 or _is_flat(...)] *)
Definition unusable (series : list Obs) : bool :=
  match series with
  | [] => true
  | _ => (List.length series <? 2)%nat || _is_flat (values_of series)
  end.

Definition local_provenance (r : string) : string :=
  ("local: monthly dataset (region key='" ++ r ++ "')")%string.

(** The [for r in tried_regions] loop: the series and provenance entry of the
    first key whose fetch returns a truthy list, if any. *)
Definition fetch_local (disease_l date_from date_to r : string) : list Obs :=
  try_except (fetch_local_timeseries E disease_l r date_from date_to) [].

Fixpoint local_stage (disease_l date_from date_to : string)
    (tried_regions : list string) : option (list Obs * string) :=
  match tried_regions with
  | [] => None
  | r :: rest =>
      let series_local := fetch_local disease_l date_from date_to r in
      match series_local with
      | [] => local_stage disease_l date_from date_to rest
      | _ => Some (series_local, local_provenance r)
      end
  end.

(** [_region_candidates(region)], or [[region]] when that is empty. *)
Definition tried_regions (region : string) : list string :=
  match _region_candidates region with
  | [] => [region]
  | cands => cands
  end.

Definition W_NO_DATA : string :=
  "No usable live or local data in the requested window.".
Definition P_LIVE : string := "live: disease.sh (JHU)".
Definition P_SYNTH_FLAT : string := "synthetic: seasonal baseline (no/flat data)".
Definition P_SYNTH_EMPTY : string :=
  "synthetic: seasonal baseline (history empty)".
Definition W_EMPTY : string := "Empty history; using synthetic baseline.".
Definition W_EXTENSION : string :=
  "Forecast produced from synthetic extension (no usable model).".

(** Stage 1. *)
Definition live_stage (disease_l region date_from date_to : string)
  : list Obs * list string :=
  if contains "covid" disease_l then
    match fetch_covid_timeseries E region date_from date_to with
    | Ok series =>
        (series, match series with [] => [] | _ => [P_LIVE] end)
    | Raise _ => ([], [])
    end
  else ([], []).

(** Stage 2, from the state stage 1 left. *)
Definition local_fallback (disease_l region date_from date_to : string)
    (st : list Obs * list string)
  : list Obs * list string * list string :=
  let '(series, provenance) := st in
  if unusable series then
    match local_stage disease_l date_from date_to (tried_regions region) with
    | Some (series_local, p) => (series_local, (provenance ++ [p])%list, [])
    | None => (series, provenance, [W_NO_DATA])
    end
  else (series, provenance, []).

Definition get_monthly_history (disease region date_from date_to : string)
  : result (Monthly * list string * list string) :=
  let disease_l := strip (lower disease) in
  let '(series, provenance, warnings) :=
    local_fallback disease_l region date_from date_to
      (live_stage disease_l region date_from date_to) in
  if unusable series then
    do synth <- generate_synthetic_timeseries E date_from date_to None 12%nat 100;
    Ok (_to_monthly_df synth, (provenance ++ [P_SYNTH_FLAT])%list, warnings)
  else Ok (_to_monthly_df series, provenance, warnings).

(** ** Forecast strategies *)

Definition Qsum (l : list Q) : Q := fold_right Qplus 0%Q l.

Definition Qmean (l : list Q) : Q := (Qsum l / inject_Z (Z.of_nat (List.length l)))%Q.

(** [Series.std(ddof=1)]; [NaN] on fewer than two values. *)
Definition std_ddof1 (l : list Q) : pyfloat :=
  if (List.length l <? 2)%nat then NaN
  else
    let mu := Qmean l in
    Num (sqrt E (Qsum (map (fun x => ((x - mu) * (x - mu))%Q) l)
                 / inject_Z (Z.of_nat (List.length l - 1)))%Q).

Definition values (y : Monthly) : list Q := map snd y.

(** [y.index[-1]] *)
Definition last_index (y : Monthly) : Timestamp := month_start (last_month y 0).

(** The mean series and the confidence frame on one index. *)
Definition with_band (idx : list Timestamp) (means : list Q) (band : pyfloat)
  : list FRow :=
  map (fun dm : Timestamp * Q =>
         let (d, m) := dm in
         mkFRow d (Num m) (fsub (Num m) band) (fadd (Num m) band))
      (combine idx means).

Definition _sarimax_forecast (y : Monthly) (steps : Z)
  : result (list FRow * string) :=
  if negb (_HAS_SM E) then Raise "statsmodels unavailable"
  else if (List.length y <? 24)%nat || _is_flat (map Num (values y))
  then Raise "series too short/flat for SARIMAX"
  else
    do rows <- sarimax_fit E y steps;
    Ok (rows, "sarimax").

(** [hist.iloc[period:] - hist.shift(period).dropna()] *)
Definition lag12_residuals (hist : list Q) : list Q :=
  map (fun k => (nth (k + 12) hist 0 - nth k hist 0)%Q)
      (seq 0 (List.length hist - 12)).

Definition _naive_seasonal_forecast (y : Monthly) (steps : Z)
  : result (list FRow * string) :=
  if (List.length y <? 12)%nat then Raise "series too short for seasonal naive"
  else
    let period := 12%nat in
    let hist := values y in
    let future_vals :=
      map (fun i => nth (List.length hist - period + i mod period) hist 0%Q)
          (range steps) in
    let idx := _make_future_month_index (last_index y) steps in
    let resids := lag12_residuals hist in
    let sd :=
      if (3 <=? List.length resids)%nat then std_ddof1 resids
      else std_ddof1 hist in
    let band := fmul (Num (128 # 100)) sd in
    Ok (with_band idx future_vals band, "naive_seasonal").

(** [y.tail(w)] *)
Definition tail (w : nat) (l : list Q) : list Q := skipn (List.length l - w) l.

Definition _moving_avg_forecast (y : Monthly) (steps : Z)
  : result (list FRow * string) :=
  if (List.length y <? 2)%nat then Raise "series too short for moving average"
  else
    let w := Nat.min 6 (List.length y) in
    let avg := Qmean (tail w (values y)) in
    let idx := _make_future_month_index (last_index y) steps in
    let sd :=
      if (3 <=? w)%nat then std_ddof1 (tail w (values y))
      else std_ddof1 (values y) in
    let band :=
      fmul (Num (164 # 100))
           (if negb (isnan sd) then sd
            else Num ((15 # 100) * (avg + 1))%Q) in
    Ok (with_band idx (repeat avg (Z.to_nat steps)) band, "moving_avg").

(** The loop of the last resort, [steps] rounds from round [i] on:
    [cur = cur * (1.0 + 0.02 * sin(...))]. *)
Fixpoint synth_extend (cur : Q) (i steps : nat) : list Q :=
  match steps with
  | O => []
  | S k =>
      let cur' := (cur * (1 + (2 # 100) * sin_twelfth E (i mod 12)))%Q in
      cur' :: synth_extend cur' (S i) k
  end.

Definition _synthetic_extension (y : Monthly) (date_from : string)
    (horizon_months : Z) : result (list FRow * string) :=
  let base_start :=
    match y with [] => 100%Q | _ => last (values y) 0%Q end in
  let synth_out := synth_extend base_start 0 (Z.to_nat horizon_months) in
  do start <- match y with
              | [] => pd_Timestamp E date_from
              | _ => Ok (last_index y)
              end;
  let idx := _make_future_month_index start horizon_months in
  let band := py_max2 (Num ((2 # 10) * base_start)%Q) (Num 10) in
  Ok (with_band idx synth_out band, "synthetic").

(** ** The selector and the response *)

Record ForecastPoint : Type := mkPoint {
  fp_date : Timestamp;
  yhat : pyfloat;
  yhat_lower : pyfloat;
  yhat_upper : pyfloat
}.

Record ForecastResult : Type := mkResult {
  history : list (Timestamp * Q);
  forecast : list ForecastPoint;
  method : string;
  provenance : list string;
  warnings : list string
}.

(** Step 2 of [forecast_monthly]: the first strategy that does not raise; the
    boolean tells whether the last resort was used. *)
Definition select_forecast (y : Monthly) (date_from : string)
    (horizon_months : Z) : result (list FRow * string * bool) :=
  match _sarimax_forecast y horizon_months with
  | Ok (rows, m) => Ok (rows, m, false)
  | Raise _ =>
      match _naive_seasonal_forecast y horizon_months with
      | Ok (rows, m) => Ok (rows, m, false)
      | Raise _ =>
          match _moving_avg_forecast y horizon_months with
          | Ok (rows, m) => Ok (rows, m, false)
          | Raise _ =>
              do rm <- _synthetic_extension y date_from horizon_months;
              Ok (rm, true)
          end
      end
  end.

(** Step 3: one response record per forecast row. *)
Definition format_point (r : FRow) : ForecastPoint :=
  mkPoint (f_date r) (f_mean r)
          (py_max2 (Num 0) (f_lo r)) (py_max2 (Num 0) (f_hi r)).

Definition format_history (y : Monthly) : list (Timestamp * Q) :=
  map (fun dv : Z * Q => (month_start (fst dv), snd dv)) y.

(** Step 1: the history, regenerated when the frame is empty. *)
Definition prepare_history (disease region date_from date_to : string)
  : result (Monthly * list string * list string) :=
  do h <- get_monthly_history disease region date_from date_to;
  let '(hist_df, provenance, warnings) := h in
  match hist_df with
  | [] =>
      do synth <- generate_synthetic_timeseries E date_from date_to
                    (weekly_increase_default E) 12%nat 100;
      Ok (_to_monthly_df synth,
          (provenance ++ [P_SYNTH_EMPTY])%list,
          (warnings ++ [W_EMPTY])%list)
  | _ => Ok (hist_df, provenance, warnings)
  end.

Definition forecast_monthly (disease region date_from date_to : string)
    (horizon_months : Z) : result ForecastResult :=
  do h <- prepare_history disease region date_from date_to;
  let '(y, provenance, warnings) := h in
  do sel <- select_forecast y date_from horizon_months;
  let '(rows, method, extended) := sel in
  let warnings :=
    if extended then (warnings ++ [W_EXTENSION])%list else warnings in
  Ok (mkResult (format_history y) (map format_point rows)
               method provenance warnings).

End Core.

(** ** Stand-ins for the collaborators

    Executable instances of [Env], used to run the code on concrete inputs. *)

Module Mock.

(** A square root that is exact on squares of rationals. *)
Definition sqrt_rat (q : Q) : Q :=
  let r := Qred q in
  Qred (Z.sqrt (Qnum r * Z.pos (Qden r)) # Qden r).

(** [sin(2 * pi * k / 12)] to three decimals. *)
Definition sin_table (k : nat) : Q :=
  nth k [0; 1 # 2; 866 # 1000; 1; 866 # 1000; 1 # 2;
         0; - (1 # 2); - (866 # 1000); - (1); - (866 # 1000); - (1 # 2)]%Q 0%Q.

Definition digit (c : ascii) : option Z :=
  let n := nat_of_ascii c in
  if ((48 <=? n) && (n <=? 57))%nat then Some (Z.of_nat (n - 48)) else None.

Fixpoint parse_digits (s : string) (acc : Z) : option Z :=
  match s with
  | EmptyString => Some acc
  | String c r =>
      match digit c with
      | Some d => parse_digits r (10 * acc + d)
      | None => None
      end
  end.

(** ["YYYY-MM-DD"] *)
Definition parse_date (s : string) : result Timestamp :=
  match parse_digits (substring 0 4 s) 0,
        parse_digits (substring 5 2 s) 0,
        parse_digits (substring 8 2 s) 0 with
  | Some y, Some m, Some d =>
      if (String.length s =? 10)%nat
         && (substring 4 1 s =? "-")%string && (substring 7 1 s =? "-")%string
      then Ok (ymd y m d)
      else Raise "Unknown datetime string format"
  | _, _, _ => Raise "Unknown datetime string format"
  end.

Definition iso3_table : list (string * string) :=
  [("sri lanka", "LKA"); ("lka", "LKA"); ("india", "IND"); ("ind", "IND");
   ("usa", "USA"); ("united states", "USA"); ("world", "WLD"); ("wld", "WLD")].

Definition iso3 (name : string) : result string :=
  match dict_get (lower (strip name)) iso3_table with
  | Some c => Ok c
  | None => Ok EmptyString
  end.

(** Modelled from the spec: [generate_synthetic_timeseries] of
    [timeseries.py], which is not among the sources.  The spec describes a
    deterministic seasonal baseline of [points] observations, a sinusoid
    around [start_value], anchored to the requested date range: here one
    observation per month from the month of [date_from] (January 2020 when
    that text is no date), the value [start_value * (1 + sin(2 pi k / 12) / 10)]. *)
Definition spec_synthetic (date_from date_to : string)
    (weekly_increase_str : option string) (points : nat) (start_value : Q)
  : result (list Obs) :=
  let t0 := try_except (parse_date date_from) (ymd 2020 1 1) in
  Ok (map (fun k =>
             mkObs (month_start (ts_month t0 + Z.of_nat k))
                   (Num (start_value * (1 + (1 # 10) * sin_table (k mod 12)))%Q))
          (seq 0 points)).

(** A statistical model that is never fitted. *)
Definition no_fit (y : Monthly) (steps : Z) : result (list FRow) :=
  Raise "fit did not converge".

(** A stand-in fit: the last value on the future month index, with a band
    of one tenth of its magnitude on each side. *)
Definition flat_fit (y : Monthly) (steps : Z) : result (list FRow) :=
  let v := last (map snd y) 0%Q in
  Ok (map (fun d => mkFRow d (Num v) (Num (v - Qabs v * (1 # 10))%Q)
                           (Num (v + Qabs v * (1 # 10))%Q))
          (_make_future_month_index (month_start (last_month y 0)) steps)).

(** A monthly series from the given month on. *)
Definition monthly_obs (y m : Z) (vals : list Q) : list Obs :=
  map (fun kv : nat * Q =>
         mkObs (month_start (12 * y + (m - 1) + Z.of_nat (fst kv))) (Num (snd kv)))
      (combine (seq 0 (List.length vals)) vals).

(** Daily observations of one month, one value per day. *)
Definition daily_obs (y m : Z) (vals : list Q) : list Obs :=
  map (fun kv : nat * Q => mkObs (ymd y m (Z.of_nat (S (fst kv)))) (Num (snd kv)))
      (combine (seq 0 (List.length vals)) vals).

Definition env (live : string -> result (list Obs))
    (local : string -> result (list Obs)) (has_sm : bool)
    (fit : Monthly -> Z -> result (list FRow)) : Env :=
  mkEnv iso3
        (fun region _ _ => live region)
        (fun _ region _ _ => local region)
        spec_synthetic None has_sm fit sqrt_rat sin_table parse_date.

Definition no_data (region : string) : result (list Obs) := Ok [].
Definition unreachable (region : string) : result (list Obs) :=
  Raise "connection refused".

End Mock.

(** The linear ramp 10, 20, ..., 120. *)
Definition ramp12 : list Q := [10; 20; 30; 40; 50; 60; 70; 80; 90; 100; 110; 120]%Q.

(** ** Vocabulary of the properties *)

(** The synthetic stage, entered with the given trail and warnings. *)
Definition synthetic_stage (E : Env) (date_from date_to : string)
    (prov warn : list string)
  : result (Monthly * list string * list string) :=
  do synth <- generate_synthetic_timeseries E date_from date_to None 12%nat 100;
  Ok (_to_monthly_df synth, prov ++ [P_SYNTH_FLAT], warn).

(** The index of a monthly frame. *)
Definition keys (g : Monthly) : list Z := map fst g.

(** Strictly increasing months: sorted, no month twice. *)
Definition increasing (l : list Z) : Prop := StronglySorted Z.lt l.

(** The total a month holds after more values are added to it. *)
Definition add_values (o : option Q) (vs : list Q) : option Q :=
  match vs with
  | [] => o
  | v :: vs' =>
      Some (match o with Some s => (s + Qsum vs)%Q | None => Qsum vs end)
  end.

(** The values of the rows that fall in month [m]. *)
Definition in_month (m : Z) (r : Timestamp * Q) : bool := ts_month (fst r) =? m.

Definition month_values (m : Z) (rows : list (Timestamp * Q)) : list Q :=
  map snd (filter (in_month m) rows).

(** The step [groupby_month_sum] folds over the rows. *)
Definition group_step (g : Monthly) (r : Timestamp * Q) : Monthly :=
  add_to_group (ts_month (fst r)) (snd r) g.

(** The number of distinct days of the month among the rows. *)
Definition distinct_days (rows : list (Timestamp * Q)) : nat :=
  List.length (nodup Z.eq_dec (map (fun r => ts_day (fst r)) rows)).

(** A monthly frame read back as a series of observations. *)
Definition to_series (g : Monthly) : list Obs :=
  map (fun kv : Z * Q => mkObs (month_start (fst kv)) (Num (snd kv))) g.

Definition month_rows (g : Monthly) : list (Timestamp * Q) :=
  map (fun kv : Z * Q => (month_start (fst kv), snd kv)) g.

(** Example data. *)
Definition Jan2021 : Z := ts_month (ymd 2021 1 1).
Definition Feb2021 : Z := ts_month (ymd 2021 2 1).

Definition january_daily : list Obs := Mock.daily_obs 2021 1 (repeat 10%Q 31).
Definition february_daily : list Obs := Mock.daily_obs 2021 2 (repeat 10%Q 28).

(** Every date is the first day of its month. *)
Definition already_monthly (series : list Obs) : Prop :=
  Forall (fun o => ts_day (obs_date o) = 1) series.

Definition months_of (series : list Obs) : list Z :=
  map (fun o => ts_month (obs_date o)) series.

(** Four monthly observations, out of order. *)
Definition shuffled_months : list Obs :=
  [mkObs (ymd 2021 3 1) (Num 30); mkObs (ymd 2021 1 1) (Num 10);
   mkObs (ymd 2021 6 1) (Num 60); mkObs (ymd 2021 2 1) (Num 20)].

(** Months that follow one another without a gap, from [m] on. *)
Fixpoint consecutive_from (m : Z) (l : list Z) : Prop :=
  match l with
  | [] => True
  | x :: r => x = m /\ consecutive_from (m + 1) r
  end.

(** A monthly history without gaps, from month [m0] on. *)
Definition monthly_from (m0 : Z) (vals : list Q) : Monthly :=
  combine (map (fun k => m0 + Z.of_nat k) (seq 0 (List.length vals))) vals.

(** The ramp over the twelve months of 2021. *)
Definition ramp_history : Monthly := monthly_from Jan2021 ramp12.

(** Local adapters for the region of Sri Lanka. *)
Definition flat_pair : list Obs := Mock.monthly_obs 2021 1 [5; 5]%Q.
Definition varied_year : list Obs := Mock.monthly_obs 2021 1 ramp12.

Definition local_flat_then_varied (region : string) : result (list Obs) :=
  if (region =? "Sri Lanka")%string then Ok flat_pair
  else if (region =? "LKA")%string then Ok varied_year
  else Ok [].

Definition local_flat_only (region : string) : result (list Obs) := Ok flat_pair.

Definition env_flat_then_varied : Env :=
  Mock.env Mock.no_data local_flat_then_varied false Mock.no_fit.
Definition env_flat_only : Env :=
  Mock.env Mock.no_data local_flat_only false Mock.no_fit.

(** Where the forecast index starts from: the last month of the history, or
    the parsed [date_from] when there is no history. *)
Definition forecast_start (E : Env) (y : Monthly) (date_from : string)
  : result Timestamp :=
  match y with
  | [] => pd_Timestamp E date_from
  | _ => Ok (last_index y)
  end.

(** The strategy a selection came from. *)
Inductive selected (E : Env) (y : Monthly) (date_from : string) (h : Z)
    (rows : list FRow) (m : string) : bool -> Prop :=
| sel_sarimax :
    _sarimax_forecast E y h = Ok (rows, m) ->
    selected E y date_from h rows m false
| sel_naive :
    is_ok (_sarimax_forecast E y h) = false ->
    _naive_seasonal_forecast E y h = Ok (rows, m) ->
    selected E y date_from h rows m false
| sel_moving_avg :
    is_ok (_sarimax_forecast E y h) = false ->
    is_ok (_naive_seasonal_forecast E y h) = false ->
    _moving_avg_forecast E y h = Ok (rows, m) ->
    selected E y date_from h rows m false
| sel_synthetic :
    is_ok (_sarimax_forecast E y h) = false ->
    is_ok (_naive_seasonal_forecast E y h) = false ->
    is_ok (_moving_avg_forecast E y h) = false ->
    _synthetic_extension E y date_from h = Ok (rows, m) ->
    selected E y date_from h rows m true.

(** The statistical model forecasts on the future month index. *)
Definition sarimax_on_future_index (E : Env) : Prop :=
  forall y steps rows,
    sarimax_fit E y steps = Ok rows ->
    map f_date rows = _make_future_month_index (last_index y) steps.

(** Twenty-four months of local data and a statistical model that fits. *)
Definition two_years : list Obs := Mock.monthly_obs 2020 1 (ramp12 ++ ramp12).

Definition local_two_years (region : string) : result (list Obs) := Ok two_years.

Definition env_two_years : Env :=
  Mock.env Mock.unreachable local_two_years true Mock.flat_fit.

(** [max(0.0, x)], in words: [x] itself when it is a number above 0, and 0
    otherwise ([NaN] included). *)
Definition clamped_at_zero (x c : pyfloat) : Prop :=
  match x with
  | Num q => ((0 < q)%Q /\ c = Num q) \/ ((q <= 0)%Q /\ c = Num 0)
  | NaN => c = Num 0
  end.

(** How a response point reads off a forecast row: the date and the mean as
    they are, the two bounds clamped at zero. *)
Definition formats (row : FRow) (p : ForecastPoint) : Prop :=
  fp_date p = f_date row
  /\ yhat p = f_mean row
  /\ clamped_at_zero (f_lo row) (yhat_lower p)
  /\ clamped_at_zero (f_hi row) (yhat_upper p).

(** A local series of negative values (downward corrections). *)
Definition falling_counts : list Obs :=
  Mock.monthly_obs 2021 1 [-100; -110; -120]%Q.

Definition local_falling (region : string) : result (list Obs) := Ok falling_counts.

Definition env_falling : Env :=
  Mock.env Mock.no_data local_falling false Mock.no_fit.

(** A local series of mixed signs: the mean is negative, the interval
    reaches above zero. *)
Definition mixed_counts : list Obs := Mock.monthly_obs 2021 1 [-1; 3; -5]%Q.

Definition local_mixed (region : string) : result (list Obs) := Ok mixed_counts.

Definition env_mixed : Env :=
  Mock.env Mock.no_data local_mixed false Mock.no_fit.

(** The interval of a row contains its mean. *)
Definition bracketed (r : FRow) : Prop :=
  fle (f_lo r) (f_mean r) /\ fle (f_mean r) (f_hi r).

(** The interval the statistical model reports contains its mean. *)
Definition sarimax_brackets (E : Env) : Prop :=
  forall y steps rows, sarimax_fit E y steps = Ok rows -> Forall bracketed rows.

(** The square root of [std] is not negative. *)
Definition sqrt_nonneg (E : Env) : Prop := forall q, (0 <= sqrt E q)%Q.

(** A series with at least one observation whose value is a number. *)
Definition has_finite_obs (l : list Obs) : Prop :=
  exists o q, In o l /\ obs_value o = Num q.

(** The synthetic generator, asked for the 12-point baseline around 100
    over this window, returns, and returns observations. *)
Definition synthetic_generator_ok (E : Env) (date_from date_to : string)
  : Prop :=
  forall w,
  exists l,
    generate_synthetic_timeseries E date_from date_to w 12 100 = Ok l
    /\ has_finite_obs l.

(** Every adapter unreachable, and a statistical model that never fits. *)
Definition env_all_failing : Env :=
  Mock.env Mock.unreachable Mock.unreachable true Mock.no_fit.

(** The synthetic generator returns the 12-point baseline it is asked for,
    every value a number. *)
Definition synthetic_baseline_ok (E : Env) : Prop :=
  forall date_from date_to w,
  exists l,
    generate_synthetic_timeseries E date_from date_to w 12 100 = Ok l
    /\ List.length l = 12%nat
    /\ Forall (fun o => obs_value o <> NaN) l.

(** A live and a local adapter that return no data. *)
Definition env_no_data : Env :=
  Mock.env Mock.no_data Mock.no_data false Mock.no_fit.

(** An environment with one collaborator replaced. *)
Definition with_to_iso3 (E : Env) (f : string -> result string) : Env :=
  mkEnv f (fetch_covid_timeseries E) (fetch_local_timeseries E)
        (generate_synthetic_timeseries E) (weekly_increase_default E)
        (_HAS_SM E) (sarimax_fit E) (sqrt E) (sin_twelfth E) (pd_Timestamp E).

Definition with_live (E : Env)
    (f : string -> string -> string -> result (list Obs)) : Env :=
  mkEnv (to_iso3 E) f (fetch_local_timeseries E)
        (generate_synthetic_timeseries E) (weekly_increase_default E)
        (_HAS_SM E) (sarimax_fit E) (sqrt E) (sin_twelfth E) (pd_Timestamp E).

(** A live adapter with a usable series, and no local data. *)
Definition live_year (region : string) : result (list Obs) := Ok varied_year.

Definition env_live_year : Env :=
  Mock.env live_year Mock.unreachable false Mock.no_fit.

(** A live adapter whose two observations carry no number. *)
Definition nan_pair : list Obs :=
  [mkObs (ymd 2021 1 1) NaN; mkObs (ymd 2021 2 1) NaN].

Definition live_nan (region : string) : result (list Obs) := Ok nan_pair.

Definition env_live_nan : Env :=
  Mock.env live_nan Mock.no_data false Mock.no_fit.

(** Whether month [m] lies between the months of two rows. *)
Definition covered (m : Z) (rows : list (Timestamp * Q)) : bool :=
  existsb (fun r => ts_month (fst r) <=? m) rows
  && existsb (fun r => m <=? ts_month (fst r)) rows.

(** What the frame built from [rows] holds at month [m]. *)
Definition month_entry (daily : bool) (m : Z) (rows : list (Timestamp * Q))
  : option Q :=
  if daily then
    if covered m rows then Some (Qsum (month_values m rows)) else None
  else
    match month_values m rows with
    | [] => None
    | vs => Some (Qsum vs)
    end.

(** Daily counts with a silent month: January and March 2021. *)
Definition january_march_daily : list Obs :=
  Mock.daily_obs 2021 1 (repeat 10%Q 31) ++ Mock.daily_obs 2021 3 (repeat 10%Q 31).

(** ** The local adapter: [services/local_data.py]

    The merged CSV is the list of its rows.  Each cell is the text pandas
    reads; the empty text stands for a missing cell, which compares false
    with everything, and a value cell is the float [pd.to_numeric(...,
    errors="coerce")] makes of it.  A file that is missing or cannot be read
    is [None].  The frame is taken to have the four columns the code uses. *)

Module LocalData.

Record CsvRow : Type := mkCsvRow {
  csv_disease : string;
  csv_country_iso3 : string;
  csv_date : string;
  csv_value : pyfloat
}.

(** One record of the answer: [{"date": d, "value": float(v)}]. *)
Record LocalObs : Type := mkLocalObs { lo_date : string; lo_value : Q }.

Definition present (cell : string) : bool := negb (cell =? EmptyString)%string.

(** The row filter of the query. *)
Definition selected_row (dis iso3 date_from date_to : string) (r : CsvRow)
  : bool :=
  (present (csv_disease r) && (lower (csv_disease r) =? dis)%string)
  && (present (csv_country_iso3 r) && (upper (csv_country_iso3 r) =? iso3)%string)
  && (present (csv_date r) && String.leb date_from (csv_date r))
  && (present (csv_date r) && String.leb (csv_date r) date_to).

Fixpoint insert_row (r : CsvRow) (rows : list CsvRow) : list CsvRow :=
  match rows with
  | [] => [r]
  | r' :: rest =>
      if String.leb (csv_date r) (csv_date r') then r :: rows
      else r' :: insert_row r rest
  end.

(** [q.sort_values("date")], on the text of the dates. *)
Fixpoint sort_by_date (rows : list CsvRow) : list CsvRow :=
  match rows with
  | [] => []
  | r :: rest => insert_row r (sort_by_date rest)
  end.

(** [to_numeric(errors="coerce")], [dropna(subset=["value"])] and the list
    of records. *)
Fixpoint records (rows : list CsvRow) : list LocalObs :=
  match rows with
  | [] => []
  | r :: rest =>
      match csv_value r with
      | Num v => mkLocalObs (csv_date r) v :: records rest
      | NaN => records rest
      end
  end.

Definition fetch_local_timeseries
    (csv : option (list CsvRow)) (to_iso3 : string -> result string)
    (disease region date_from date_to : string)
  : result (option (list LocalObs)) :=
  match csv with
  | None => Ok None
  | Some df =>
      let dis := lower (strip disease) in
      do iso3 <- to_iso3 region;
      let q := filter (selected_row dis iso3 date_from date_to) df in
      match q with
      | [] => Ok None
      | _ =>
          match records (sort_by_date q) with
          | [] => Ok None
          | out => Ok (Some out)
          end
      end
  end.

(** A small dataset: dengue in Sri Lanka, out of order, with a value that
    is no number, and a row of another country. *)
Definition sample_csv : list CsvRow :=
  [mkCsvRow "Dengue" "lka" "2021-03-01" (Num 30);
   mkCsvRow "dengue" "LKA" "2021-01-01" (Num 10);
   mkCsvRow "dengue" "IND" "2021-01-01" (Num 99);
   mkCsvRow "dengue" "LKA" "2021-02-01" NaN;
   mkCsvRow "dengue" "LKA" "2022-01-01" (Num 50)].

End LocalData.

(** ** The series as the sources hand them over

    The resolver above works on records that are already read: the date a
    [Timestamp], the value a float.  The code receives dicts whose date is a
    text [pd.to_datetime] has yet to parse and whose value is an object that
    [float(...)] and [pd.to_numeric] have yet to read, and both readings
    happen outside every [try].  Likewise the forecast of statsmodels is
    labelled by dates only when the index of the history gives it a
    frequency, else by positions, and the response renders every label with
    [strftime] outside every [try].  [Raw] is the resolver and
    [forecast_monthly] on such records and such forecasts, with the readings
    where the code has them; an [Env] still gives the other collaborators
    ([to_iso3], [pd.Timestamp], the square root, ...), its three sources of
    series and its statistical model are not consulted.  Every record has
    the two keys; the value is a float or [None]. *)

Module Raw.

(** The object under the key "value". *)
Inductive PyVal : Type :=
| PyFloat (x : pyfloat)
| PyNone.

(** One record of a series: [{"date": ..., "value": ...}]. *)
Record Rec : Type := mkRec { rec_date : string; rec_value : PyVal }.

Definition TypeError : string :=
  "float() argument must be a string or a real number, not 'NoneType'".

(** [float(v)] *)
Definition float_ (v : PyVal) : result pyfloat :=
  match v with
  | PyFloat x => Ok x
  | PyNone => Raise TypeError
  end.

(** [pd.to_numeric(v, errors="coerce")] *)
Definition to_numeric (v : PyVal) : pyfloat :=
  match v with
  | PyFloat x => x
  | PyNone => NaN
  end.

(** The label of a row that statsmodels forecasts: a date, or a position
    (an integer index) when the history's index has no frequency. *)
Inductive Label : Type :=
| Dated (t : Timestamp)
| Positional (k : Z).

(** One row of a forecast: the label, the mean and the interval there. *)
Record SRow : Type :=
  mkSRow { s_label : Label; s_mean : pyfloat; s_lo : pyfloat; s_hi : pyfloat }.

(** A row of one of the three strategies of this code, on the future month
    index. *)
Definition dated (r : FRow) : SRow :=
  mkSRow (Dated (f_date r)) (f_mean r) (f_lo r) (f_hi r).

(** A row read as the strategies above have it. *)
Definition undated (r : SRow) : FRow :=
  mkFRow (match s_label r with
          | Dated t => t
          | Positional k => month_start k
          end)
         (s_mean r) (s_lo r) (s_hi r).

Definition AttributeError : string :=
  "'int' object has no attribute 'strftime'".

(** The sources of series, the date parser of pandas and the statistical
    model. *)
Record Sources : Type := mkSources {
  (** [fetch_covid_timeseries(region, date_from, date_to)] *)
  live : string -> string -> string -> result (list Rec);
  (** [fetch_local_timeseries(disease, region, date_from, date_to)] *)
  local : string -> string -> string -> string -> result (list Rec);
  (** [generate_synthetic_timeseries(date_from, date_to, weekly_increase_str,
      points, start_value)] *)
  generator :
    string -> string -> option string -> nat -> Q -> result (list Rec);
  (** [pd.to_datetime] on one date; a column is read date by date, and the
      first date that cannot be read raises *)
  to_datetime : string -> result Timestamp;
  (** [SARIMAX(y, ...).fit().get_forecast(steps)]: mean and 80% interval *)
  fit : Monthly -> Z -> result (list SRow)
}.

(** A comprehension or a column operation whose items may raise: the first
    exception ends it. *)
Fixpoint each {A B : Type} (f : A -> result B) (l : list A) : result (list B) :=
  match l with
  | [] => Ok []
  | a :: rest =>
      do b <- f a;
      do bs <- each f rest;
      Ok (b :: bs)
  end.

Section Resolver.

Variable E : Env.
Variable S : Sources.

(** [_to_monthly_df]: lines 50 and 51 read the two columns, the rest is the
    normalizer on the records read. *)
Definition _to_monthly_df (series : list Rec) : result Monthly :=
  match series with
  | [] => Ok []
  | _ =>
      do dates <- each (to_datetime S) (map rec_date series);
      let values := map (fun x => to_numeric (rec_value x)) series in
      Ok (_to_monthly_df
            (map (fun dv : Timestamp * pyfloat => mkObs (fst dv) (snd dv))
                 (combine dates values)))
  end.

(** [[float(x.get("value", 0.0)) for x in series]] *)
Definition values_of (series : list Rec) : result (list pyfloat) :=
  each float_ (map rec_value series).

(** [not series or len(series) < 2 or _is_flat(...)]: the values are read
    only when the series has two records or more. *)
Definition unusable (series : list Rec) : result bool :=
  match series with
  | [] => Ok true
  | _ =>
      if (List.length series <? 2)%nat then Ok true
      else
        do vs <- values_of series;
        Ok (_is_flat vs)
  end.

Definition fetch_local (disease_l date_from date_to r : string) : list Rec :=
  try_except (local S disease_l r date_from date_to) [].

Fixpoint local_stage (disease_l date_from date_to : string)
    (tried_regions : list string) : option (list Rec * string) :=
  match tried_regions with
  | [] => None
  | r :: rest =>
      let series_local := fetch_local disease_l date_from date_to r in
      match series_local with
      | [] => local_stage disease_l date_from date_to rest
      | _ => Some (series_local, local_provenance r)
      end
  end.

Definition live_stage (disease_l region date_from date_to : string)
  : list Rec * list string :=
  if contains "covid" disease_l then
    match live S region date_from date_to with
    | Ok series =>
        (series, match series with [] => [] | _ => [P_LIVE] end)
    | Raise _ => ([], [])
    end
  else ([], []).

Definition get_monthly_history (disease region date_from date_to : string)
  : result (Monthly * list string * list string) :=
  let disease_l := strip (lower disease) in
  let '(series, provenance) := live_stage disease_l region date_from date_to in
  do flat <- unusable series;
  let '(series, provenance, warnings) :=
    if flat : bool then
      match local_stage disease_l date_from date_to (tried_regions E region) with
      | Some (series_local, p) => (series_local, (provenance ++ [p])%list, [])
      | None => (series, provenance, [W_NO_DATA])
      end
    else (series, provenance, []) in
  do flat <- unusable series;
  if flat : bool then
    do synth <- generator S date_from date_to None 12%nat 100;
    do monthly <- _to_monthly_df synth;
    Ok (monthly, (provenance ++ [P_SYNTH_FLAT])%list, warnings)
  else
    do monthly <- _to_monthly_df series;
    Ok (monthly, provenance, warnings).

Definition prepare_history (disease region date_from date_to : string)
  : result (Monthly * list string * list string) :=
  do h <- get_monthly_history disease region date_from date_to;
  let '(hist_df, provenance, warnings) := h in
  match hist_df with
  | [] =>
      do synth <- generator S date_from date_to (weekly_increase_default E)
                    12%nat 100;
      do monthly <- _to_monthly_df synth;
      Ok (monthly,
          (provenance ++ [P_SYNTH_EMPTY])%list,
          (warnings ++ [W_EMPTY])%list)
  | _ => Ok (hist_df, provenance, warnings)
  end.

Definition _sarimax_forecast (y : Monthly) (steps : Z)
  : result (list SRow * string) :=
  if negb (_HAS_SM E) then Raise "statsmodels unavailable"
  else if (List.length y <? 24)%nat || _is_flat (map Num (values y))
  then Raise "series too short/flat for SARIMAX"
  else
    do rows <- fit S y steps;
    Ok (rows, "sarimax").

(** Step 2 of [forecast_monthly]: the first strategy that does not raise;
    the three strategies of this code are those above. *)
Definition select_forecast (y : Monthly) (date_from : string)
    (horizon_months : Z) : result (list SRow * string * bool) :=
  match _sarimax_forecast y horizon_months with
  | Ok (rows, m) => Ok (rows, m, false)
  | Raise _ =>
      match _naive_seasonal_forecast E y horizon_months with
      | Ok (rows, m) => Ok (map dated rows, m, false)
      | Raise _ =>
          match _moving_avg_forecast E y horizon_months with
          | Ok (rows, m) => Ok (map dated rows, m, false)
          | Raise _ =>
              do rm <- _synthetic_extension E y date_from horizon_months;
              Ok (map dated (fst rm), snd rm, true)
          end
      end
  end.

(** Step 3: one response record per forecast row; [d.strftime] needs a
    date. *)
Definition format_point (r : SRow) : result ForecastPoint :=
  match s_label r with
  | Dated d =>
      Ok (mkPoint d (s_mean r)
                  (py_max2 (Num 0) (s_lo r)) (py_max2 (Num 0) (s_hi r)))
  | Positional _ => Raise AttributeError
  end.

Definition forecast_monthly (disease region date_from date_to : string)
    (horizon_months : Z) : result ForecastResult :=
  do h <- prepare_history disease region date_from date_to;
  let '(y, provenance, warnings) := h in
  do sel <- select_forecast y date_from horizon_months;
  let '(rows, method, extended) := sel in
  let warnings :=
    if extended then (warnings ++ [W_EXTENSION])%list else warnings in
  do forecast <- each format_point rows;
  Ok (mkResult (format_history y) forecast method provenance warnings).

(** A record as it reads: the date parsed, the value coerced. *)
Definition read (x : Rec) : Obs :=
  mkObs (try_except (to_datetime S (rec_date x)) (month_start 0))
        (to_numeric (rec_value x)).

Definition read_series (r : result (list Rec)) : result (list Obs) :=
  match r with
  | Ok series => Ok (map read series)
  | Raise e => Raise e
  end.

Definition read_forecast (r : result (list SRow)) : result (list FRow) :=
  match r with
  | Ok rows => Ok (map undated rows)
  | Raise e => Raise e
  end.

(** The environment the resolver above sees when every record reads and the
    statistical model forecasts on dates. *)
Definition parsed : Env :=
  mkEnv (to_iso3 E)
        (fun region a b => read_series (live S region a b))
        (fun d region a b => read_series (local S d region a b))
        (fun a b w n v => read_series (generator S a b w n v))
        (weekly_increase_default E) (_HAS_SM E)
        (fun y steps => read_forecast (fit S y steps))
        (sqrt E) (sin_twelfth E) (pd_Timestamp E).

(** Whether the row is labelled by a date. *)
Definition is_dated (r : SRow) : bool :=
  match s_label r with Dated _ => true | Positional _ => false end.

(** The statistical model, when it returns [steps] steps ahead, labels every
    row by a date. *)
Definition fit_dated (steps : Z) : Prop :=
  forall y rows, fit S y steps = Ok rows -> forallb is_dated rows = true.

(** Every record of the series has a date pandas parses and a float value. *)
Definition readable (series : list Rec) : bool :=
  forallb (fun x => is_ok (to_datetime S (rec_date x))
                    && is_ok (float_ (rec_value x))) series.

(** Every series that a source returns for this query is readable. *)
Definition sources_readable (disease region date_from date_to : string)
  : Prop :=
  (forall s, live S region date_from date_to = Ok s -> readable s = true)
  /\ (forall key s,
        local S (strip (lower disease)) key date_from date_to = Ok s ->
        readable s = true)
  /\ (forall w s,
        generator S date_from date_to w 12%nat 100 = Ok s -> readable s = true).

(** The synthetic generator, asked for the 12-point baseline around 100 over
    this window, returns, and returns at least one value that is a number. *)
Definition generator_returns (date_from date_to : string) : Prop :=
  forall w, exists s x q,
    generator S date_from date_to w 12%nat 100 = Ok s
    /\ In x s /\ rec_value x = PyFloat (Num q).

(** A record of a series that a source returned for this query. *)
Definition delivered (disease region date_from date_to : string) (x : Rec)
  : Prop :=
  exists s,
    In x s
    /\ (live S region date_from date_to = Ok s
        \/ (exists key,
              In key (tried_regions E region)
              /\ local S (strip (lower disease)) key date_from date_to = Ok s)
        \/ (exists w, generator S date_from date_to w 12%nat 100 = Ok s)).

(** Reading this record raises [e]. *)
Definition unreadable (x : Rec) (e : string) : Prop :=
  float_ (rec_value x) = Raise e \/ to_datetime S (rec_date x) = Raise e.

(** The statistical model returned a row that is labelled by a position, and
    rendering it raises [e]. *)
Definition undated_forecast (steps : Z) (e : string) : Prop :=
  exists y rows r,
    fit S y steps = Ok rows /\ In r rows /\ format_point r = Raise e.

End Resolver.

End Raw.

(** Stand-ins for the raw sources, used to run the code on concrete inputs. *)

Module RawMock.

Definition leap (y : Z) : bool :=
  ((y mod 4 =? 0) && negb (y mod 100 =? 0)) || (y mod 400 =? 0).

Definition days_in_month (y m : Z) : Z :=
  if m =? 2 then (if leap y then 29 else 28)
  else if (m =? 4) || (m =? 6) || (m =? 9) || (m =? 11) then 30
  else 31.

(** ["YYYY-MM-DD"], a date of the calendar. *)
Definition to_datetime (s : string) : result Timestamp :=
  match Mock.parse_digits (substring 0 4 s) 0,
        Mock.parse_digits (substring 5 2 s) 0,
        Mock.parse_digits (substring 8 2 s) 0 with
  | Some y, Some m, Some d =>
      if (String.length s =? 10)%nat
         && (substring 4 1 s =? "-")%string && (substring 7 1 s =? "-")%string
      then
        if (1 <=? m) && (m <=? 12) then
          if (1 <=? d) && (d <=? days_in_month y m) then Ok (ymd y m d)
          else Raise "day is out of range for month"
        else Raise "month must be in 1..12"
      else Raise "Unknown datetime string format"
  | _, _, _ => Raise "Unknown datetime string format"
  end.

Definition digit_char (d : Z) : ascii := ascii_of_nat (48 + Z.to_nat (d mod 10)).

Definition two_digits (n : Z) : string :=
  String (digit_char (n / 10)) (String (digit_char n) EmptyString).

(** [strftime("%Y-%m-%d")] *)
Definition strftime (t : Timestamp) : string :=
  (two_digits (ts_year t / 100) ++ two_digits (ts_year t) ++ "-"
   ++ two_digits (ts_mon t) ++ "-" ++ two_digits (ts_day t))%string.

(** An observation written back as a record. *)
Definition unread (o : Obs) : Raw.Rec :=
  Raw.mkRec (strftime (obs_date o)) (Raw.PyFloat (obs_value o)).

(** The generator of [Mock.spec_synthetic], its dates as text. *)
Definition generator (date_from date_to : string)
    (weekly_increase_str : option string) (points : nat) (start_value : Q)
  : result (list Raw.Rec) :=
  do series <- Mock.spec_synthetic date_from date_to weekly_increase_str
                 points start_value;
  Ok (map unread series).

(** The local adapter of [services/local_data.py] on a given CSV. *)
Definition csv_local (csv : option (list LocalData.CsvRow))
    (disease region date_from date_to : string) : result (list Raw.Rec) :=
  do out <- LocalData.fetch_local_timeseries csv Mock.iso3
              disease region date_from date_to;
  Ok (match out with
      | None => []
      | Some l =>
          map (fun o => Raw.mkRec (LocalData.lo_date o)
                                  (Raw.PyFloat (Num (LocalData.lo_value o)))) l
      end).

Definition no_data (region a b : string) : result (list Raw.Rec) := Ok [].

Definition unreachable (region a b : string) : result (list Raw.Rec) :=
  Raise "connection refused".

Definition no_dataset (disease region a b : string) : result (list Raw.Rec) :=
  Raise "dataset unavailable".

(** A statistical model that is never fitted. *)
Definition no_fit (y : Monthly) (steps : Z) : result (list Raw.SRow) :=
  Raise "fit did not converge".

(** A stand-in fit on an index without frequency: the last value at the
    positions that follow the history, with a band of one tenth of its
    magnitude on each side. *)
Definition positional_fit (y : Monthly) (steps : Z)
  : result (list Raw.SRow) :=
  let v := last (map snd y) 0%Q in
  Ok (map (fun i => Raw.mkSRow
                      (Raw.Positional (Z.of_nat (List.length y + i)))
                      (Num v) (Num (v - Qabs v * (1 # 10))%Q)
                      (Num (v + Qabs v * (1 # 10))%Q))
          (range steps)).

Definition sources
    (live : string -> string -> string -> result (list Raw.Rec))
    (local : string -> string -> string -> string -> result (list Raw.Rec))
    (fit : Monthly -> Z -> result (list Raw.SRow))
  : Raw.Sources :=
  Raw.mkSources live local generator to_datetime fit.

End RawMock.

(** A merged CSV with a date that is no date of the calendar. *)
Definition csv_with_bad_date : list LocalData.CsvRow :=
  [LocalData.mkCsvRow "dengue" "LKA" "2021-01-31" (Num 10);
   LocalData.mkCsvRow "dengue" "LKA" "2021-02-30" (Num 20);
   LocalData.mkCsvRow "dengue" "LKA" "2021-03-31" (Num 30)].

Definition sources_bad_date : Raw.Sources :=
  RawMock.sources RawMock.no_data (RawMock.csv_local (Some csv_with_bad_date))
                  RawMock.no_fit.

(** A live adapter whose records carry [None] for a value. *)
Definition live_none_values (region a b : string) : result (list Raw.Rec) :=
  Ok [Raw.mkRec "2021-01-01" Raw.PyNone; Raw.mkRec "2021-02-01" Raw.PyNone].

Definition sources_none_values : Raw.Sources :=
  RawMock.sources live_none_values RawMock.no_dataset RawMock.no_fit.

(** No live and no local data, and a synthetic generator that fails. *)
Definition generator_down (date_from date_to : string)
    (weekly_increase_str : option string) (points : nat) (start_value : Q)
  : result (list Raw.Rec) :=
  Raise "generator failed".

Definition sources_generator_down : Raw.Sources :=
  Raw.mkSources RawMock.no_data RawMock.no_dataset generator_down
                RawMock.to_datetime RawMock.no_fit.

(** Sources that all fail, but for the synthetic generator. *)
Definition sources_all_failing : Raw.Sources :=
  RawMock.sources RawMock.unreachable RawMock.no_dataset RawMock.no_fit.

(** Twenty-five months of local data with a gap (no March 2021), and a
    statistical model that forecasts on positions. *)
Definition gapped_two_years (disease region a b : string)
  : result (list Raw.Rec) :=
  Ok (map RawMock.unread
          (Mock.monthly_obs 2019 1 (ramp12 ++ ramp12)
           ++ Mock.monthly_obs 2021 1 [10; 20]%Q
           ++ Mock.monthly_obs 2021 4 [40]%Q)).

Definition sources_positional : Raw.Sources :=
  RawMock.sources RawMock.no_data gapped_two_years RawMock.positional_fit.

(** An environment in which statsmodels is installed. *)
Definition env_statsmodels : Env :=
  Mock.env Mock.no_data Mock.no_data true Mock.no_fit.

(** Dates in text order. *)
Definition date_le (a b : string) : Prop := String.leb a b = true.

(** The sample variance, with [n - 1] in the denominator:
    [sum((x - mean)^2) / (n - 1)]. *)
Definition sample_variance (l : list Q) : Q :=
  let mean := (Qsum l / inject_Z (Z.of_nat (List.length l)))%Q in
  (Qsum (map (fun x => ((x - mean) * (x - mean))%Q) l)
   / inject_Z (Z.of_nat (List.length l - 1)))%Q.

(** Twelve monthly observations with a gap: December 2020 to October 2021,
    then December 2021; and the frame they normalize to. *)
Definition gapped_series : list Obs :=
  Mock.monthly_obs 2020 12 [10; 20; 30; 40; 50; 60; 70; 80; 90; 100; 110]%Q
  ++ Mock.monthly_obs 2021 12 [120]%Q.

Definition gapped_year : Monthly :=
  monthly_from (Jan2021 - 1) [10; 20; 30; 40; 50; 60; 70; 80; 90; 100; 110]%Q
  ++ [(Jan2021 + 11, 120%Q)].

(** Fifteen months from January 2021: the ramp, then three months that lie
    0, 3 and 6 above the same months of the year before. *)
Definition ramp_and_quarter : Monthly :=
  monthly_from Jan2021 (ramp12 ++ [10; 23; 36]%Q).

(** A stand-in environment without data and without a statistical model. *)
Definition env_offline : Env :=
  Mock.env Mock.no_data Mock.no_data false Mock.no_fit.

(** * Properties *)

(** ** The calendar

    A month ordinal reads back as the year and month it was built from, and
    the month after a December is the January of the next year. *)

Lemma ymd_calendar (y m d : Z) :
  1 <= m <= 12 ->
  ts_year (ymd y m d) = y /\ ts_mon (ymd y m d) = m /\ ts_day (ymd y m d) = d.
Proof.
  intros Hm. unfold ts_year, ts_mon, ymd. cbn [ts_month ts_day].
  assert (H1 : (12 * y + (m - 1)) / 12 = y).
  { rewrite Z.mul_comm, Z.div_add_l by lia. rewrite Z.div_small; lia. }
  assert (H2 : (12 * y + (m - 1)) mod 12 = m - 1).
  { rewrite Z.add_comm, Z.mul_comm, Z.mod_add by lia. apply Z.mod_small. lia. }
  rewrite H1, H2. repeat split; lia.
Qed.

Lemma month_after_december (y : Z) :
  _make_future_month_index (ymd y 12 1) 1 = [ymd (y + 1) 1 1].
Proof.
  unfold _make_future_month_index. change (range 1) with [0%nat]. cbn [map].
  unfold month_start, ymd. cbn [ts_month]. do 2 f_equal. lia.
Qed.

(** ** Arithmetic of totals

    Sums of rationals are equal as fractions, numerator and denominator,
    whatever the order of the additions. *)

Lemma Qplus_0_r_eq (q : Q) : (q + 0)%Q = q.
Proof.
  destruct q as [n d]. unfold Qplus. simpl.
  rewrite Z.mul_1_r, Z.add_0_r, Pos.mul_1_r. reflexivity.
Qed.

Lemma Qplus_comm_eq (a b : Q) : (a + b)%Q = (b + a)%Q.
Proof.
  destruct a as [n d], b as [n' d']. unfold Qplus. simpl.
  rewrite Z.add_comm, Pos.mul_comm. reflexivity.
Qed.

Lemma Qplus_assoc_eq (a b c : Q) : (a + (b + c))%Q = ((a + b) + c)%Q.
Proof.
  destruct a as [n d], b as [n' d'], c as [n'' d'']. unfold Qplus. simpl.
  rewrite !Pos2Z.inj_mul, Pos.mul_assoc. f_equal. ring.
Qed.

Lemma fold_left_Qplus (vs : list Q) (v : Q) :
  fold_left Qplus vs v = (v + Qsum vs)%Q.
Proof.
  revert v. induction vs as [|x vs IH]; intros v; simpl.
  - symmetry. apply Qplus_0_r_eq.
  - rewrite IH. symmetry. apply Qplus_assoc_eq.
Qed.

Lemma Qsum_app (l1 l2 : list Q) : Qsum (l1 ++ l2) = (Qsum l1 + Qsum l2)%Q.
Proof.
  induction l1 as [|x l1 IH]; simpl.
  - rewrite Qplus_comm_eq. symmetry. apply Qplus_0_r_eq.
  - rewrite IH. apply Qplus_assoc_eq.
Qed.

Lemma Qsum_perm (l1 l2 : list Q) : Permutation l1 l2 -> Qsum l1 = Qsum l2.
Proof.
  induction 1 as [|x l l' _ IH|x y l|l l' l'' _ IH1 _ IH2]; simpl.
  - reflexivity.
  - now rewrite IH.
  - rewrite !Qplus_assoc_eq. f_equal. apply Qplus_comm_eq.
  - congruence.
Qed.

(** ** The grouped sum *)

Lemma keys_add_to_group (m : Z) (v : Q) (g : Monthly) (k : Z) :
  In k (keys (add_to_group m v g)) <-> k = m \/ In k (keys g).
Proof.
  induction g as [|[k0 s] g IH]; simpl.
  - intuition.
  - destruct (m <? k0) eqn:Hlt; simpl; [intuition|].
    destruct (m =? k0) eqn:Heq; simpl.
    + apply Z.eqb_eq in Heq. subst. intuition.
    + unfold keys in IH. rewrite IH. intuition.
Qed.

Lemma increasing_add_to_group (m : Z) (v : Q) (g : Monthly) :
  increasing (keys g) -> increasing (keys (add_to_group m v g)).
Proof.
  unfold increasing.
  induction g as [|[k0 s] g IH]; simpl; intros Hs.
  - repeat constructor.
  - inversion Hs as [|? ? Hs' Hall]; subst.
    destruct (m <? k0) eqn:Hlt; simpl.
    + apply Z.ltb_lt in Hlt. constructor; [exact Hs|].
      constructor; [exact Hlt|].
      eapply Forall_impl; [|exact Hall]. simpl. intros; lia.
    + destruct (m =? k0) eqn:Heq; simpl.
      * constructor; assumption.
      * apply Z.ltb_ge in Hlt. apply Z.eqb_neq in Heq.
        constructor; [apply IH; exact Hs'|].
        apply Forall_forall. intros k Hk.
        apply keys_add_to_group in Hk. destruct Hk as [->|Hk]; [lia|].
        rewrite Forall_forall in Hall. now apply Hall.
Qed.

Lemma lookup_none_below (m : Z) (g : Monthly) :
  Forall (Z.lt m) (keys g) -> lookup m g = None.
Proof.
  induction g as [|[k0 s] g IH]; simpl; intros H; [reflexivity|].
  inversion H; subst. simpl in *.
  destruct (m =? k0) eqn:Heq; [apply Z.eqb_eq in Heq; lia|]. now apply IH.
Qed.

Lemma lookup_add_to_group (m : Z) (v : Q) (g : Monthly) (k : Z) :
  increasing (keys g) ->
  lookup k (add_to_group m v g) =
  if k =? m then Some (match lookup m g with Some s => (s + v)%Q | None => v end)
  else lookup k g.
Proof.
  unfold increasing.
  induction g as [|[k0 s] g IH]; simpl; intros Hs.
  - destruct (k =? m); reflexivity.
  - inversion Hs as [|? ? Hs' Hall]; subst.
    destruct (m <? k0) eqn:Hlt; simpl.
    + apply Z.ltb_lt in Hlt.
      destruct (k =? m) eqn:Hkm; [|reflexivity].
      destruct (m =? k0) eqn:Heq; [apply Z.eqb_eq in Heq; lia|].
      rewrite lookup_none_below; [reflexivity|].
      eapply Forall_impl; [|exact Hall]. simpl. intros; lia.
    + destruct (m =? k0) eqn:Heq; simpl.
      * apply Z.eqb_eq in Heq. subst k0.
        destruct (k =? m); reflexivity.
      * rewrite (IH Hs'). apply Z.eqb_neq in Heq.
        destruct (k =? m) eqn:Hkm; [|reflexivity].
        apply Z.eqb_eq in Hkm. subst k.
        destruct (m =? k0) eqn:Heq'; [apply Z.eqb_eq in Heq'; lia|reflexivity].
Qed.

Lemma increasing_fold_group (rows : list (Timestamp * Q)) (acc : Monthly) :
  increasing (keys acc) -> increasing (keys (fold_left group_step rows acc)).
Proof.
  revert acc. induction rows as [|r rows IH]; intros acc H; simpl; [exact H|].
  apply IH. now apply increasing_add_to_group.
Qed.

Lemma add_values_app (o : option Q) (l1 l2 : list Q) :
  add_values (add_values o l1) l2 = add_values o (l1 ++ l2).
Proof.
  destruct l1 as [|a l1]; [reflexivity|].
  destruct l2 as [|b l2].
  - now rewrite app_nil_r.
  - cbn [add_values app]. f_equal.
    change (a :: l1 ++ b :: l2) with ((a :: l1) ++ (b :: l2)).
    rewrite Qsum_app. destruct o; [symmetry; apply Qplus_assoc_eq|reflexivity].
Qed.

Lemma lookup_fold_group (rows : list (Timestamp * Q)) (acc : Monthly) (k : Z) :
  increasing (keys acc) ->
  lookup k (fold_left group_step rows acc) =
  add_values (lookup k acc) (month_values k rows).
Proof.
  revert acc. induction rows as [|r rows IH]; intros acc H; simpl.
  - reflexivity.
  - rewrite IH by now apply increasing_add_to_group.
    unfold group_step at 1. rewrite lookup_add_to_group by exact H.
    unfold month_values. simpl. unfold in_month at 2.
    rewrite (Z.eqb_sym k).
    destruct (ts_month (fst r) =? k) eqn:Hk; [|reflexivity].
    apply Z.eqb_eq in Hk. rewrite Hk. simpl map.
    change (snd r :: map snd (filter (in_month k) rows))
      with ([snd r] ++ map snd (filter (in_month k) rows)).
    rewrite <- add_values_app. f_equal.
    cbn [add_values Qsum fold_right]. rewrite Qplus_0_r_eq. reflexivity.
Qed.

(** What the grouped sum holds for a month: nothing when no row falls in it,
    else the sum of the values of its rows. *)
Lemma lookup_groupby (rows : list (Timestamp * Q)) (k : Z) :
  lookup k (groupby_month_sum rows) =
  match month_values k rows with
  | [] => None
  | vs => Some (Qsum vs)
  end.
Proof.
  unfold groupby_month_sum.
  change (fun g r => add_to_group (ts_month (fst r)) (snd r) g) with group_step.
  rewrite lookup_fold_group by constructor.
  simpl. destruct (month_values k rows); reflexivity.
Qed.

Lemma increasing_groupby (rows : list (Timestamp * Q)) :
  increasing (keys (groupby_month_sum rows)).
Proof.
  unfold groupby_month_sum.
  change (fun g r => add_to_group (ts_month (fst r)) (snd r) g) with group_step.
  apply increasing_fold_group. constructor.
Qed.

(** ** Sorting and counting *)

Lemma insert_by_date_perm (r : Timestamp * Q) (rows : list (Timestamp * Q)) :
  Permutation (insert_by_date r rows) (r :: rows).
Proof.
  induction rows as [|r' rows IH]; simpl.
  - apply Permutation_refl.
  - destruct (ts_leb (fst r) (fst r')).
    + apply Permutation_refl.
    + eapply perm_trans; [apply perm_skip, IH|apply perm_swap].
Qed.

Lemma sort_values_perm (rows : list (Timestamp * Q)) :
  Permutation (sort_values rows) rows.
Proof.
  induction rows as [|r rows IH]; simpl.
  - constructor.
  - eapply perm_trans; [apply insert_by_date_perm|now apply perm_skip].
Qed.

Lemma month_rows_perm (m : Z) (rows rows' : list (Timestamp * Q)) :
  Permutation rows rows' ->
  Permutation (filter (in_month m) rows) (filter (in_month m) rows').
Proof.
  induction 1 as [|r l l' _ IH|r r' l|l l' l'' _ IH1 _ IH2]; simpl.
  - constructor.
  - destruct (in_month m r); [now apply perm_skip|exact IH].
  - destruct (in_month m r), (in_month m r');
      try apply Permutation_refl. apply perm_swap.
  - eapply perm_trans; eassumption.
Qed.

Lemma month_values_sorted (m : Z) (rows : list (Timestamp * Q)) :
  Qsum (month_values m (sort_values rows)) = Qsum (month_values m rows).
Proof.
  apply Qsum_perm. unfold month_values.
  apply Permutation_map, month_rows_perm, sort_values_perm.
Qed.

Lemma month_values_sorted_nil (m : Z) (rows : list (Timestamp * Q)) :
  month_values m (sort_values rows) = [] <-> month_values m rows = [].
Proof.
  assert (P : Permutation (month_values m (sort_values rows))
                          (month_values m rows)).
  { unfold month_values. apply Permutation_map, month_rows_perm, sort_values_perm. }
  split; intros H; rewrite H in P.
  - now apply Permutation_nil.
  - apply Permutation_sym in P. now apply Permutation_nil.
Qed.

Lemma Zmem_In (x : Z) (l : list Z) : Zmem x l = true <-> In x l.
Proof.
  unfold Zmem. rewrite existsb_exists. split.
  - intros [y [Hy Heq]]. apply Z.eqb_eq in Heq. now subst.
  - intros H. exists x. split; [exact H|apply Z.eqb_refl].
Qed.

Lemma unique_nodup (l : list Z) : unique l = nodup Z.eq_dec l.
Proof.
  induction l as [|x l IH]; simpl; [reflexivity|].
  destruct (in_dec Z.eq_dec x l) as [Hin|Hnin].
  - apply Zmem_In in Hin. now rewrite Hin.
  - destruct (Zmem x l) eqn:Hm; [apply Zmem_In in Hm; contradiction|].
    now rewrite IH.
Qed.

Lemma nodup_length_perm (l l' : list Z) :
  Permutation l l' ->
  List.length (nodup Z.eq_dec l) = List.length (nodup Z.eq_dec l').
Proof.
  intros P. apply Permutation_length.
  apply NoDup_Permutation; try apply NoDup_nodup.
  intros x. rewrite !nodup_In. split; intros H.
  - eapply Permutation_in; eassumption.
  - eapply Permutation_in; [apply Permutation_sym|]; eassumption.
Qed.

Lemma is_daily_spec (rows : list (Timestamp * Q)) :
  is_daily (sort_values rows) = true <->
  (28 <= List.length rows)%nat /\ (5 < distinct_days rows)%nat.
Proof.
  unfold is_daily, nunique_days, distinct_days.
  rewrite unique_nodup, andb_true_iff, Nat.leb_le, Nat.ltb_lt.
  rewrite (Permutation_length (sort_values_perm rows)).
  rewrite (nodup_length_perm
             (Permutation_map (fun r => ts_day (fst r)) (sort_values_perm rows))).
  reflexivity.
Qed.

(** ** The monthly resampling *)

Lemma lookup_range (F : Z -> Q) (m0 : Z) (n a : nat) (m : Z) :
  lookup m (map (fun i => (m0 + Z.of_nat i, F (m0 + Z.of_nat i))) (seq a n)) =
  if (m0 + Z.of_nat a <=? m) && (m <? m0 + Z.of_nat a + Z.of_nat n)
  then Some (F m) else None.
Proof.
  revert a. induction n as [|n IH]; intros a; simpl seq; cbn [map lookup].
  - destruct (m0 + Z.of_nat a <=? m) eqn:H1; [|reflexivity].
    destruct (m <? m0 + Z.of_nat a + Z.of_nat 0) eqn:H2; [|reflexivity].
    apply Z.leb_le in H1. apply Z.ltb_lt in H2. lia.
  - destruct (m =? m0 + Z.of_nat a) eqn:Heq.
    + apply Z.eqb_eq in Heq. rewrite <- Heq.
      replace (m <=? m) with true by (symmetry; apply Z.leb_refl).
      replace (m <? m + Z.of_nat (S n)) with true
        by (symmetry; apply Z.ltb_lt; lia).
      reflexivity.
    + rewrite IH. apply Z.eqb_neq in Heq.
      destruct (m0 + Z.of_nat (S a) <=? m) eqn:H1;
        destruct (m0 + Z.of_nat a <=? m) eqn:H2;
        destruct (m <? m0 + Z.of_nat (S a) + Z.of_nat n) eqn:H3;
        destruct (m <? m0 + Z.of_nat a + Z.of_nat (S n)) eqn:H4;
        cbn [andb]; try reflexivity;
        rewrite ?Z.leb_le, ?Z.leb_gt, ?Z.ltb_lt, ?Z.ltb_ge in *; lia.
Qed.

Lemma keys_range (F : Z -> Q) (m0 : Z) (n a : nat) :
  increasing
    (keys (map (fun i => (m0 + Z.of_nat i, F (m0 + Z.of_nat i))) (seq a n))).
Proof.
  unfold increasing. revert a. induction n as [|n IH]; intros a; simpl.
  - constructor.
  - constructor; [apply IH|].
    apply Forall_forall. intros k Hk. unfold keys in Hk.
    rewrite map_map in Hk. simpl in Hk.
    apply in_map_iff in Hk. destruct Hk as [i [<- Hi]].
    apply in_seq in Hi. lia.
Qed.

Lemma last_cons {A : Type} (x y : A) (l : list A) (d : A) :
  last (x :: y :: l) d = last (y :: l) d.
Proof. reflexivity. Qed.

Lemma last_nonempty {A : Type} (x : A) (l : list A) (d d' : A) :
  last (x :: l) d = last (x :: l) d'.
Proof.
  revert x. induction l as [|y l IH]; intros x; [reflexivity|].
  rewrite !last_cons. apply IH.
Qed.

Lemma increasing_bounds (k0 : Z) (l : list Z) (k : Z) :
  increasing (k0 :: l) -> In k (k0 :: l) -> k0 <= k <= last (k0 :: l) k0.
Proof.
  unfold increasing. revert k0 k.
  induction l as [|k1 l IH]; intros k0 k Hs Hin.
  - destruct Hin as [->|[]]. simpl. lia.
  - inversion Hs as [|? ? Hs' Hall]; subst.
    inversion Hall as [|? ? Hk1 _]; subst.
    rewrite last_cons, (last_nonempty k1 l k0 k1).
    destruct Hin as [->|Hin].
    + specialize (IH k1 k1 Hs' (or_introl eq_refl)). lia.
    + specialize (IH k1 k Hs' Hin). lia.
Qed.

Lemma last_map {A B : Type} (f : A -> B) (l : list A) (d : A) :
  last (map f l) (f d) = f (last l d).
Proof.
  induction l as [|x l IH]; [reflexivity|].
  destruct l as [|y l]; [reflexivity|]. exact IH.
Qed.

Lemma lookup_in_keys (m : Z) (g : Monthly) (s : Q) :
  lookup m g = Some s -> In m (keys g).
Proof.
  induction g as [|[k v] g IH]; simpl; [discriminate|].
  destruct (m =? k) eqn:Heq.
  - apply Z.eqb_eq in Heq. now left.
  - intros H. right. now apply IH.
Qed.

Lemma lookup_resample (rows : list (Timestamp * Q)) (m : Z) :
  month_values m rows <> [] ->
  lookup m (resample_MS_sum rows) = Some (Qsum (month_values m rows)).
Proof.
  intros Hne.
  assert (Hg : lookup m (groupby_month_sum rows)
               = Some (Qsum (month_values m rows))).
  { rewrite lookup_groupby. destruct (month_values m rows); congruence. }
  unfold resample_MS_sum.
  pose proof (increasing_groupby rows) as Hinc.
  pose proof (lookup_in_keys _ _ Hg) as Hin.
  destruct (groupby_month_sum rows) as [|[m0 s0] g] eqn:Eg; [destruct Hin|].
  pose proof (increasing_bounds Hinc Hin) as Hb.
  assert (Hl : last_month ((m0, s0) :: g) m0 = last (m0 :: map fst g) m0).
  { unfold last_month. symmetry.
    exact (last_map fst ((m0, s0) :: g) (m0, 0%Q)). }
  change (m0 <= m <= last (m0 :: map fst g) m0) in Hb.
  rewrite <- Hl in Hb.
  rewrite (lookup_range
             (fun k => match lookup k ((m0, s0) :: g) with
                       | Some s => s | None => 0%Q end)).
  replace ((m0 + Z.of_nat 0 <=? m)
           && (m <? m0 + Z.of_nat 0
                    + Z.of_nat (Z.to_nat (last_month ((m0, s0) :: g) m0 - m0 + 1))))
    with true.
  - now rewrite Hg.
  - symmetry. apply andb_true_iff. rewrite Z.leb_le, Z.ltb_lt. simpl in *. lia.
Qed.

Lemma increasing_resample (rows : list (Timestamp * Q)) :
  increasing (keys (resample_MS_sum rows)).
Proof.
  unfold resample_MS_sum.
  destruct (groupby_month_sum rows) as [|[m0 s0] g]; [constructor|].
  apply (keys_range
           (fun k => match lookup k ((m0, s0) :: g) with
                     | Some s => s | None => 0%Q end)).
Qed.

(** The index of a normalized series is strictly increasing. *)
Lemma increasing_to_monthly_df (series : list Obs) :
  increasing (keys (_to_monthly_df series)).
Proof.
  unfold _to_monthly_df. destruct series as [|o series]; [constructor|].
  destruct (is_daily _); [apply increasing_resample|apply increasing_groupby].
Qed.

(** What a normalized series holds for a month with observations: their sum,
    in the daily and in the monthly branch alike. *)
Lemma to_monthly_df_total (series : list Obs) (m : Z) :
  month_values m (dropna series) <> [] ->
  lookup m (_to_monthly_df series) = Some (Qsum (month_values m (dropna series))).
Proof.
  intros Hne. unfold _to_monthly_df.
  destruct series as [|o series]; [now elim Hne|].
  set (rows := dropna (o :: series)) in *.
  assert (Hne' : month_values m (sort_values rows) <> []).
  { intros H. apply Hne. now apply month_values_sorted_nil. }
  rewrite <- (month_values_sorted m rows).
  destruct (is_daily (sort_values rows)).
  - now apply lookup_resample.
  - rewrite lookup_groupby.
    destruct (month_values m (sort_values rows)); congruence.
Qed.

(** ** A normalized series is a fixed point *)

Lemma dropna_to_series (g : Monthly) : dropna (to_series g) = month_rows g.
Proof.
  induction g as [|[k v] g IH]; simpl; [reflexivity|]. now rewrite IH.
Qed.

Lemma sort_values_month_rows (g : Monthly) :
  increasing (keys g) -> sort_values (month_rows g) = month_rows g.
Proof.
  unfold increasing.
  induction g as [|[k v] g IH]; simpl; intros Hs; [reflexivity|].
  inversion Hs as [|? ? Hs' Hall]; subst.
  rewrite (IH Hs').
  destruct g as [|[k' v'] g]; [reflexivity|].
  simpl. inversion Hall; subst. simpl in *.
  unfold ts_leb. simpl.
  replace (k <? k') with true by (symmetry; apply Z.ltb_lt; assumption).
  reflexivity.
Qed.

Lemma unique_all_ones (l : list Z) :
  Forall (eq 1) l -> (List.length (unique l) <= 1)%nat.
Proof.
  induction 1 as [|x l Hx Hall IH]; simpl; [lia|].
  destruct (Zmem x l) eqn:Hm; [exact IH|].
  destruct l as [|y l]; [simpl; lia|].
  inversion Hall; subst. unfold Zmem in Hm. simpl in Hm. discriminate.
Qed.

Lemma is_daily_month_rows (g : Monthly) : is_daily (month_rows g) = false.
Proof.
  unfold is_daily, nunique_days.
  apply andb_false_iff. right. apply Nat.ltb_ge.
  etransitivity; [apply unique_all_ones|lia].
  unfold month_rows. rewrite map_map. simpl.
  apply Forall_forall. intros d Hd. apply in_map_iff in Hd.
  destruct Hd as [x [<- _]]. reflexivity.
Qed.

Lemma add_to_group_last (m : Z) (v : Q) (g : Monthly) :
  Forall (fun k => k < m) (keys g) -> add_to_group m v g = g ++ [(m, v)].
Proof.
  induction g as [|[k s] g IH]; simpl; intros H; [reflexivity|].
  inversion H; subst.
  destruct (m <? k) eqn:Hlt; [apply Z.ltb_lt in Hlt; lia|].
  destruct (m =? k) eqn:Heq; [apply Z.eqb_eq in Heq; lia|].
  now rewrite IH.
Qed.

Lemma increasing_app_last (l : list Z) (m : Z) (r : list Z) :
  increasing (l ++ m :: r) -> Forall (fun k => k < m) l.
Proof.
  unfold increasing. induction l as [|x l IH]; simpl; intros H; [constructor|].
  inversion H as [|? ? Hs Hall]; subst. constructor.
  - rewrite Forall_forall in Hall. apply Hall.
    apply in_or_app. right. now left.
  - now apply IH.
Qed.

Lemma fold_group_month_rows (g acc : Monthly) :
  increasing (keys acc ++ keys g) ->
  fold_left group_step (month_rows g) acc = acc ++ g.
Proof.
  revert acc. induction g as [|[k v] g IH]; intros acc H; simpl.
  - now rewrite app_nil_r.
  - unfold group_step at 2. simpl.
    rewrite add_to_group_last by (eapply increasing_app_last; exact H).
    rewrite IH.
    + now rewrite <- app_assoc.
    + unfold keys in *. rewrite map_app, <- app_assoc. exact H.
Qed.

Lemma to_monthly_df_fixed (g : Monthly) :
  increasing (keys g) -> _to_monthly_df (to_series g) = g.
Proof.
  intros H. unfold _to_monthly_df.
  destruct (to_series g) as [|o rest] eqn:Es.
  - destruct g; [reflexivity|discriminate].
  - rewrite <- Es, dropna_to_series, sort_values_month_rows by exact H.
    rewrite is_daily_month_rows. unfold groupby_month_sum.
    change (fun g r => add_to_group (ts_month (fst r)) (snd r) g) with group_step.
    now rewrite fold_group_month_rows.
Qed.

Lemma keys_fold_group (rows : list (Timestamp * Q)) (acc : Monthly) (k : Z) :
  In k (keys (fold_left group_step rows acc)) <->
  In k (keys acc) \/ In k (map (fun r => ts_month (fst r)) rows).
Proof.
  revert acc. induction rows as [|r rows IH]; intros acc; simpl.
  - intuition.
  - rewrite IH. unfold group_step at 1. rewrite keys_add_to_group.
    intuition congruence.
Qed.

Lemma keys_groupby (rows : list (Timestamp * Q)) (k : Z) :
  In k (keys (groupby_month_sum rows)) <->
  In k (map (fun r => ts_month (fst r)) rows).
Proof.
  unfold groupby_month_sum.
  change (fun g r => add_to_group (ts_month (fst r)) (snd r) g) with group_step.
  rewrite keys_fold_group. simpl. intuition.
Qed.

(** A frame whose months are two given ones, both present. *)
Lemma two_months (g : Monthly) (J F : Z) (a b : Q) :
  increasing (keys g) ->
  (forall k, In k (keys g) -> k = J \/ k = F) ->
  J < F ->
  lookup J g = Some a -> lookup F g = Some b ->
  g = [(J, a); (F, b)].
Proof.
  unfold increasing. intros Hs Hk HJF HJ HF.
  pose proof (lookup_in_keys _ _ HJ) as InJ.
  pose proof (lookup_in_keys _ _ HF) as InF.
  destruct g as [|[k1 v1] g1]; [destruct InJ|].
  inversion Hs as [|? ? Hs1 Hall1]; subst. simpl in Hall1.
  rewrite Forall_forall in Hall1.
  assert (k1 = J).
  { destruct InJ as [E|InJ]; [exact E|]. simpl in InJ.
    specialize (Hall1 _ InJ).
    destruct (Hk k1 (or_introl eq_refl)); lia. }
  subst k1. simpl in HJ. rewrite Z.eqb_refl in HJ. injection HJ as ->.
  simpl in HF. replace (F =? J) with false in HF
    by (symmetry; apply Z.eqb_neq; lia).
  destruct InF as [E|InF]; [simpl in E; lia|].
  destruct g1 as [|[k2 v2] g2]; [destruct InF|].
  inversion Hs1 as [|? ? Hs2 Hall2]; subst. simpl in Hall2.
  rewrite Forall_forall in Hall2.
  assert (k2 = F).
  { destruct (Hk k2 (or_intror (or_introl eq_refl))) as [E|E]; [|exact E].
    specialize (Hall1 k2 (or_introl eq_refl)). lia. }
  subst k2. simpl in HF. rewrite Z.eqb_refl in HF. injection HF as ->.
  destruct g2 as [|[k3 v3] g3]; [reflexivity|].
  exfalso.
  specialize (Hall2 k3 (or_introl eq_refl)).
  specialize (Hall1 k3 (or_intror (or_introl eq_refl))).
  destruct (Hk k3 (or_intror (or_intror (or_introl eq_refl)))); lia.
Qed.

Lemma resample_two_months (rows : list (Timestamp * Q)) (J : Z) (a b : Q) :
  groupby_month_sum rows = [(J, a); (J + 1, b)] ->
  resample_MS_sum rows = [(J, a); (J + 1, b)].
Proof.
  intros Eg. unfold resample_MS_sum. rewrite Eg.
  unfold last_month. simpl last. simpl fst.
  replace (J + 1 - J + 1) with 2 by lia.
  simpl. rewrite Z.add_0_r, Z.eqb_refl.
  replace (J + 1 =? J) with false by (symmetry; apply Z.eqb_neq; lia).
  rewrite Z.eqb_refl. reflexivity.
Qed.

(** Observations of two consecutive months normalize to the two monthly
    totals, whether they are read as daily or as monthly. *)
Lemma to_monthly_df_two_months (series : list Obs) (J : Z) :
  (forall r, In r (dropna series) ->
             ts_month (fst r) = J \/ ts_month (fst r) = J + 1) ->
  month_values J (dropna series) <> [] ->
  month_values (J + 1) (dropna series) <> [] ->
  _to_monthly_df series =
  [(J, Qsum (month_values J (dropna series)));
   (J + 1, Qsum (month_values (J + 1) (dropna series)))].
Proof.
  intros Hin HJ HF.
  set (rows := dropna series) in *.
  assert (Eg : groupby_month_sum (sort_values rows)
               = [(J, Qsum (month_values J rows));
                  (J + 1, Qsum (month_values (J + 1) rows))]).
  { apply two_months; [apply increasing_groupby| |lia| |].
    - intros k Hk. apply keys_groupby in Hk. apply in_map_iff in Hk.
      destruct Hk as [r [<- Hr]]. apply Hin.
      eapply Permutation_in; [apply sort_values_perm|exact Hr].
    - rewrite lookup_groupby, <- (month_values_sorted J rows).
      destruct (month_values J (sort_values rows)) eqn:E; [|reflexivity].
      elim (HJ (proj1 (month_values_sorted_nil J rows) E)).
    - rewrite lookup_groupby, <- (month_values_sorted (J + 1) rows).
      destruct (month_values (J + 1) (sort_values rows)) eqn:E; [|reflexivity].
      elim (HF (proj1 (month_values_sorted_nil (J + 1) rows) E)). }
  unfold _to_monthly_df. destruct series as [|o series]; [now elim HJ|].
  fold rows. destruct (is_daily (sort_values rows)).
  - now apply resample_two_months.
  - exact Eg.
Qed.

(** ** The Monthly Series Normalizer *)

(** C5.  The normalizer reads its rows (the observations left after the
    malformed ones are dropped) as daily exactly when there are at least 28 of
    them and they fall on more than 5 distinct days of the month; it then
    resamples by calendar month, and otherwise groups by month.  In both
    branches a month with observations holds the sum of their values.  In
    particular observations of January 2021 that sum to 310 and of February
    2021 that sum to 280 normalize to the two rows 2021-01-01: 310 and
    2021-02-01: 280. *)
Theorem to_monthly_df_sums_by_month (series : list Obs) :
  let rows := dropna series in
  let df := sort_values rows in
  (is_daily df = true <->
   (28 <= List.length rows)%nat /\ (5 < distinct_days rows)%nat)
  /\ (series <> [] ->
      _to_monthly_df series =
      if is_daily df then resample_MS_sum df else groupby_month_sum df)
  /\ (forall m, month_values m rows <> [] ->
        lookup m (_to_monthly_df series) = Some (Qsum (month_values m rows)))
  /\ ((forall r, In r rows ->
         ts_month (fst r) = Jan2021 \/ ts_month (fst r) = Feb2021) ->
      month_values Jan2021 rows <> [] ->
      month_values Feb2021 rows <> [] ->
      (Qsum (month_values Jan2021 rows) == 310)%Q ->
      (Qsum (month_values Feb2021 rows) == 280)%Q ->
      exists a b : Q,
        _to_monthly_df series = [(Jan2021, a); (Feb2021, b)]
        /\ (a == 310)%Q /\ (b == 280)%Q).
Proof.
  intros rows df. split; [apply is_daily_spec|]. split; [|split].
  - intros Hne. destruct series; [now elim Hne|reflexivity].
  - intros m. apply to_monthly_df_total.
  - intros Hin HJ HF SJ SF.
    exists (Qsum (month_values Jan2021 rows)),
           (Qsum (month_values Feb2021 rows)).
    split; [|split; assumption].
    change Feb2021 with (Jan2021 + 1).
    now apply to_monthly_df_two_months.
Qed.

Lemma in_forallb {A : Type} (p : A -> bool) (P : A -> Prop) (l : list A) :
  (forall x, p x = true -> P x) -> forallb p l = true ->
  forall x, In x l -> P x.
Proof.
  intros Hp Hall x Hx. apply Hp. rewrite forallb_forall in Hall. now apply Hall.
Qed.

(** Thirty-one daily counts of 10 in January 2021 and twenty-eight in
    February: the daily branch, and the monthly totals 310 and 280. *)
Lemma to_monthly_df_sums_by_month_witness :
  is_daily (sort_values (dropna (january_daily ++ february_daily))) = true
  /\ exists a b : Q,
       _to_monthly_df (january_daily ++ february_daily)
       = [(Jan2021, a); (Feb2021, b)]
       /\ (a == 310)%Q /\ (b == 280)%Q.
Proof.
  split; [vm_compute; reflexivity|].
  apply (to_monthly_df_sums_by_month (january_daily ++ february_daily)).
  - apply (in_forallb
             (fun r => (ts_month (fst r) =? Jan2021)
                       || (ts_month (fst r) =? Feb2021))).
    + intros r Hr. apply orb_true_iff in Hr.
      destruct Hr as [Hr|Hr]; apply Z.eqb_eq in Hr; auto.
    + vm_compute. reflexivity.
  - vm_compute. discriminate.
  - vm_compute. discriminate.
  - vm_compute. reflexivity.
  - vm_compute. reflexivity.
Defined.

Lemma month_values_absent (series : list Obs) (m : Z) :
  ~ In m (months_of series) -> month_values m (dropna series) = [].
Proof.
  induction series as [|o series IH]; simpl; intros H; [reflexivity|].
  destruct (obs_value o) eqn:Ev.
  - unfold month_values in *. simpl. unfold in_month at 1. simpl.
    destruct (ts_month (obs_date o) =? m) eqn:Heq.
    + apply Z.eqb_eq in Heq. elim H. now left.
    + apply IH. intros Hin. apply H. now right.
  - apply IH. intros Hin. apply H. now right.
Qed.

Lemma month_values_single (series : list Obs) (o : Obs) (q : Q) :
  NoDup (months_of series) -> In o series -> obs_value o = Num q ->
  month_values (ts_month (obs_date o)) (dropna series) = [q].
Proof.
  induction series as [|o' series IH]; simpl; intros Hnd Hin Hv; [destruct Hin|].
  inversion Hnd as [|? ? Hnin Hnd']; subst.
  destruct Hin as [->|Hin].
  - rewrite Hv. unfold month_values. simpl. unfold in_month at 1. simpl.
    rewrite Z.eqb_refl. simpl. f_equal.
    now apply (month_values_absent series).
  - assert (Hneq : ts_month (obs_date o') <> ts_month (obs_date o)).
    { intros E. apply Hnin. rewrite E.
      exact (in_map (fun x => ts_month (obs_date x)) series o Hin). }
    destruct (obs_value o') eqn:Ev'; [|now apply IH].
    unfold month_values. simpl. unfold in_month at 1. simpl.
    apply Z.eqb_neq in Hneq. rewrite Hneq. now apply IH.
Qed.

(** C8.  On a series that is already monthly (every date a month start) and
    has no month twice, the normalizer returns a fixed point: applied to its
    own output it returns that output again; and that output holds, for the
    month of every observation, the observation's own value. *)
Theorem to_monthly_df_idempotent (series : list Obs) :
  already_monthly series ->
  NoDup (months_of series) ->
  _to_monthly_df (to_series (_to_monthly_df series)) = _to_monthly_df series
  /\ (forall o q, In o series -> obs_value o = Num q ->
        lookup (ts_month (obs_date o)) (_to_monthly_df series) = Some q).
Proof.
  intros _ Hnd. split.
  - apply to_monthly_df_fixed, increasing_to_monthly_df.
  - intros o q Hin Hv.
    pose proof (month_values_single series o Hnd Hin Hv) as Hm.
    rewrite to_monthly_df_total by (rewrite Hm; discriminate).
    rewrite Hm. simpl. now rewrite Qplus_0_r_eq.
Qed.

Lemma NoDup_nodup_eq (l : list Z) : nodup Z.eq_dec l = l -> NoDup l.
Proof. intros E. rewrite <- E. apply NoDup_nodup. Qed.

Lemma to_monthly_df_idempotent_witness :
  _to_monthly_df shuffled_months
  = [(Jan2021, 10%Q); (Feb2021, 20%Q); (Jan2021 + 2, 30%Q); (Jan2021 + 5, 60%Q)]
  /\ _to_monthly_df (to_series (_to_monthly_df shuffled_months))
     = _to_monthly_df shuffled_months.
Proof.
  split; [vm_compute; reflexivity|].
  apply (@to_monthly_df_idempotent shuffled_months).
  - repeat constructor.
  - apply NoDup_nodup_eq. vm_compute. reflexivity.
Defined.

(** ** The forecast strategies *)

Lemma combine_map_seq {A B : Type} (f : nat -> A) (g : nat -> B) (l : list nat) :
  combine (map f l) (map g l) = map (fun i => (f i, g i)) l.
Proof. induction l as [|x l IH]; simpl; [reflexivity|now rewrite IH]. Qed.

Lemma with_band_dates (idx : list Timestamp) (means : list Q) (band : pyfloat) :
  List.length idx = List.length means ->
  map f_date (with_band idx means band) = idx.
Proof.
  unfold with_band. revert means.
  induction idx as [|d idx IH]; intros [|m means] H; simpl in *;
    try discriminate; [reflexivity|].
  f_equal. apply IH. now injection H.
Qed.

Lemma future_index_length (last : Timestamp) (steps : Z) :
  List.length (_make_future_month_index last steps) = Z.to_nat steps.
Proof.
  unfold _make_future_month_index, range. now rewrite length_map, length_seq.
Qed.

Lemma values_length (y : Monthly) : List.length (values y) = List.length y.
Proof. apply length_map. Qed.

Lemma lookup_consecutive (y : Monthly) (m : Z) (k : nat) :
  consecutive_from m (keys y) -> (k < List.length y)%nat ->
  lookup (m + Z.of_nat k) y = Some (nth k (values y) 0%Q).
Proof.
  revert m k. induction y as [|[x v] y IH]; intros m k Hc Hk; simpl in *; [lia|].
  destruct Hc as [-> Hc]. destruct k as [|k].
  - rewrite Z.add_0_r, Z.eqb_refl. reflexivity.
  - replace (m + Z.of_nat (S k) =? m) with false
      by (symmetry; apply Z.eqb_neq; lia).
    replace (m + Z.of_nat (S k)) with (m + 1 + Z.of_nat k) by lia.
    apply IH; [exact Hc|lia].
Qed.

Lemma last_month_consecutive (y : Monthly) (m d : Z) :
  consecutive_from m (keys y) -> y <> [] ->
  last_month y d = m + Z.of_nat (List.length y) - 1.
Proof.
  unfold last_month. revert m.
  induction y as [|[x v] y IH]; intros m Hc Hne; [now elim Hne|].
  simpl in Hc. destruct Hc as [-> Hc].
  destruct y as [|xv y]; [simpl; lia|].
  rewrite last_cons, (IH (m + 1) Hc) by discriminate.
  simpl List.length. lia.
Qed.

Lemma std_ddof1_variance (E : Env) (l : list Q) :
  (2 <= List.length l)%nat ->
  std_ddof1 E l = Num (sqrt E (sample_variance l)).
Proof.
  intros H. unfold std_ddof1.
  replace (List.length l <? 2)%nat with false
    by (symmetry; apply Nat.ltb_ge; exact H).
  reflexivity.
Qed.

(** C6, as stated, fails on a history with a gap.  The twelve observations
    from December 2020 to December 2021 with no November 2021 normalize to a
    12-point frame; the forecast for January, February and March 2022 is 10,
    20, 30, the first three values of the frame, while the values observed
    12 months before those months are 20, 30, 40. *)
Lemma naive_seasonal_counts_positions_not_months :
  _to_monthly_df gapped_series = gapped_year
  /\ List.length gapped_year = 12%nat
  /\ exists rows,
       _naive_seasonal_forecast env_offline gapped_year 3
       = Ok (rows, "naive_seasonal")
       /\ map f_date rows = [ymd 2022 1 1; ymd 2022 2 1; ymd 2022 3 1]
       /\ map f_mean rows = [Num 10; Num 20; Num 30]
       /\ map (fun r => lookup (ts_month (f_date r) - 12) gapped_year) rows
          = [Some 20%Q; Some 30%Q; Some 40%Q].
Proof.
  split; [vm_compute; reflexivity|]. split; [reflexivity|].
  eexists. split; [vm_compute; reflexivity|].
  repeat split; vm_compute; reflexivity.
Qed.

(** C6, amended.  The seasonal-naive repeater fails on fewer than 12 points
    and succeeds on 12 or more.  Step [i] of its forecast is the value at
    position [i mod 12] of the last 12 rows of the history -- which is the
    value observed 12 months before the forecast month of step [i mod 12]
    when the months of the history follow one another without a gap -- and
    the interval around it has half-width 1.28 times the standard deviation
    (the square root of the sample variance) of the 12-lag residuals, or of
    the history itself when there are fewer than 3 residuals.  On the
    12-point ramp 10, 20, ..., 120 and horizon 3 the means are 10, 20, 30,
    the half-width 1.28 times the square root of 1300. *)
Theorem naive_seasonal_forecast_spec (E : Env) (y : Monthly) (steps : Z) :
  ((List.length y < 12)%nat ->
   exists msg, _naive_seasonal_forecast E y steps = Raise msg)
  /\ ((12 <= List.length y)%nat ->
      let hist := values y in
      let n := List.length y in
      let resids :=
        map (fun k => (nth (k + 12) hist 0 - nth k hist 0)%Q) (seq 0 (n - 12)) in
      let sd :=
        sqrt E (sample_variance (if (3 <=? n - 12)%nat then resids else hist)) in
      let band := ((128 # 100) * sd)%Q in
      _naive_seasonal_forecast E y steps =
      Ok (map (fun i =>
                 let v := nth (n - 12 + i mod 12) hist 0%Q in
                 mkFRow (month_start (last_month y 0 + 1 + Z.of_nat i))
                        (Num v) (Num (v - band)%Q) (Num (v + band)%Q))
              (range steps),
          "naive_seasonal")
      /\ (forall i m0, consecutive_from m0 (keys y) ->
            lookup (last_month y 0 + 1 + Z.of_nat (i mod 12) - 12) y
            = Some (nth (n - 12 + i mod 12) hist 0%Q)))
  /\ (forall m0, exists variance,
        (variance == 1300)%Q
        /\ let band := ((128 # 100) * sqrt E variance)%Q in
           _naive_seasonal_forecast E (monthly_from m0 ramp12) 3
           = Ok ([mkFRow (month_start (m0 + 12))
                         (Num 10) (Num (10 - band)%Q) (Num (10 + band)%Q);
                  mkFRow (month_start (m0 + 13))
                         (Num 20) (Num (20 - band)%Q) (Num (20 + band)%Q);
                  mkFRow (month_start (m0 + 14))
                         (Num 30) (Num (30 - band)%Q) (Num (30 + band)%Q)],
                 "naive_seasonal")).
Proof.
  assert (Hmain : (12 <= List.length y)%nat ->
    _naive_seasonal_forecast E y steps =
    Ok (map (fun i =>
               let v := nth (List.length y - 12 + i mod 12) (values y) 0%Q in
               let band :=
                 ((128 # 100)
                  * sqrt E (sample_variance
                              (if (3 <=? List.length y - 12)%nat
                               then map (fun k => (nth (k + 12) (values y) 0
                                                   - nth k (values y) 0)%Q)
                                        (seq 0 (List.length y - 12))
                               else values y)))%Q in
               mkFRow (month_start (last_month y 0 + 1 + Z.of_nat i))
                      (Num v) (Num (v - band)%Q) (Num (v + band)%Q))
            (range steps),
        "naive_seasonal")).
  { intros H. unfold _naive_seasonal_forecast.
    replace (List.length y <? 12)%nat with false
      by (symmetry; apply Nat.ltb_ge; exact H).
    unfold lag12_residuals. rewrite length_map, length_seq, values_length.
    destruct (3 <=? List.length y - 12)%nat eqn:H3.
    - apply Nat.leb_le in H3.
      rewrite std_ddof1_variance by (rewrite length_map, length_seq; lia).
      unfold with_band, _make_future_month_index, last_index.
      rewrite combine_map_seq, map_map. reflexivity.
    - rewrite std_ddof1_variance by (rewrite values_length; lia).
      unfold with_band, _make_future_month_index, last_index.
      rewrite combine_map_seq, map_map. reflexivity. }
  split; [|split].
  - intros H. unfold _naive_seasonal_forecast.
    apply Nat.ltb_lt in H. rewrite H. eauto.
  - intros H hist n resids sd band. split; [exact (Hmain H)|].
    intros i m0 Hc.
    assert (Hne : y <> []) by (intros ->; simpl in H; lia).
    rewrite (@last_month_consecutive y m0 0 Hc Hne).
    pose proof (Nat.mod_upper_bound i 12 ltac:(lia)) as Hm.
    replace (m0 + Z.of_nat (List.length y) - 1 + 1 + Z.of_nat (i mod 12) - 12)
      with (m0 + Z.of_nat (n - 12 + i mod 12)) by (unfold n; lia).
    apply lookup_consecutive; [exact Hc|unfold n; lia].
  - intros m0. exists (sample_variance ramp12).
    split; [vm_compute; reflexivity|].
    intros band. unfold _naive_seasonal_forecast.
    change (List.length (monthly_from m0 ramp12) <? 12)%nat with false.
    cbv iota.
    change (values (monthly_from m0 ramp12)) with ramp12.
    change (3 <=? List.length (lag12_residuals ramp12))%nat with false.
    cbv iota. rewrite std_ddof1_variance by (simpl; lia).
    change (last_index (monthly_from m0 ramp12))
      with (month_start (m0 + 11)).
    unfold _make_future_month_index. change (range 3) with [0; 1; 2]%nat.
    cbn [map with_band combine]. unfold fmul, fsub, fadd, lift2. fold band.
    unfold month_start. cbn [ts_month Z.of_nat].
    change (nth (List.length ramp12 - 12 + 0 mod 12) ramp12 0%Q) with 10%Q.
    change (nth (List.length ramp12 - 12 + 1 mod 12) ramp12 0%Q) with 20%Q.
    change (nth (List.length ramp12 - 12 + 2 mod 12) ramp12 0%Q) with 30%Q.
    change (Z.pos (Pos.of_succ_nat 0)) with 1.
    change (Z.pos (Pos.of_succ_nat 1)) with 2.
    replace (m0 + 11 + 1 + 0) with (m0 + 12) by lia.
    replace (m0 + 11 + 1 + 1) with (m0 + 13) by lia.
    replace (m0 + 11 + 1 + 2) with (m0 + 14) by lia.
    reflexivity.
Qed.

Lemma naive_seasonal_forecast_spec_witness :
  (12 <= List.length ramp_and_quarter)%nat
  /\ _naive_seasonal_forecast env_offline ramp_and_quarter 3
     = Ok ([mkFRow (ymd 2022 4 1) (Num 40) (Num (3616 # 100)) (Num (4384 # 100));
            mkFRow (ymd 2022 5 1) (Num 50) (Num (4616 # 100)) (Num (5384 # 100));
            mkFRow (ymd 2022 6 1) (Num 60) (Num (5616 # 100)) (Num (6384 # 100))],
           "naive_seasonal").
Proof.
  assert (Hlen : (12 <= List.length ramp_and_quarter)%nat) by (vm_compute; lia).
  split; [exact Hlen|].
  destruct (naive_seasonal_forecast_spec env_offline ramp_and_quarter 3)
    as [_ [H _]].
  destruct (H Hlen) as [Heq _]. rewrite Heq. vm_compute. reflexivity.
Defined.

(** ** The data resolver *)

Section Resolver.

Variable E : Env.
Variables disease region date_from date_to : string.

Let disease_l : string := strip (lower disease).
Let fetched : string -> list Obs := fetch_local E disease_l date_from date_to.
Let live : list Obs := fst (live_stage E disease_l region date_from date_to).
Let prov0 : list string := snd (live_stage E disease_l region date_from date_to).

Lemma local_stage_none (cands : list string) :
  local_stage E disease_l date_from date_to cands = None <->
  forall k, In k cands -> fetched k = [].
Proof.
  induction cands as [|r cands IH]; simpl.
  - split; [intros _ k []|reflexivity].
  - fold (fetched r). destruct (fetched r) eqn:Er.
    + rewrite IH. split.
      * intros H k [<-|Hk]; [exact Er|now apply H].
      * intros H k Hk. apply H. now right.
    + split; [discriminate|]. intros H.
      specialize (H r (or_introl eq_refl)). congruence.
Qed.

Lemma local_stage_some (cands : list string) (s : list Obs) (p : string) :
  local_stage E disease_l date_from date_to cands = Some (s, p) <->
  exists pre r post,
    cands = pre ++ r :: post
    /\ (forall k, In k pre -> fetched k = [])
    /\ fetched r = s /\ s <> [] /\ p = local_provenance r.
Proof.
  induction cands as [|r cands IH]; simpl.
  - split; [discriminate|]. intros [pre [r [post [H _]]]].
    destruct pre; discriminate.
  - fold (fetched r). destruct (fetched r) as [|o l] eqn:Er.
    + rewrite IH. split.
      * intros [pre [r' [post [-> [Hpre H]]]]].
        exists (r :: pre), r', post. split; [reflexivity|]. split; [|exact H].
        intros k [<-|Hk]; [exact Er|now apply Hpre].
      * intros [pre [r' [post [Hc [Hpre [Hr [Hne Hp]]]]]]].
        destruct pre as [|k pre].
        -- simpl in Hc. injection Hc as <- _. congruence.
        -- simpl in Hc. injection Hc as <- ->.
           exists pre, r', post. repeat split; auto.
           intros k Hk. apply Hpre. now right.
    + split.
      * intros H. injection H as <- <-.
        exists [], r, cands. repeat split; auto; [intros k []|discriminate].
      * intros [pre [r' [post [Hc [Hpre [Hr [Hne Hp]]]]]]].
        destruct pre as [|k pre].
        -- simpl in Hc. injection Hc as <- _. congruence.
        -- simpl in Hc. injection Hc as <- _.
           specialize (Hpre r (or_introl eq_refl)). congruence.
Qed.

(** The resolver, stage by stage. *)
Lemma get_monthly_history_eq :
  get_monthly_history E disease region date_from date_to =
  if unusable live then
    match local_stage E disease_l date_from date_to (tried_regions E region) with
    | Some (s, p) =>
        if unusable s then synthetic_stage E date_from date_to (prov0 ++ [p]) []
        else Ok (_to_monthly_df s, prov0 ++ [p], [])
    | None => synthetic_stage E date_from date_to prov0 [W_NO_DATA]
    end
  else Ok (_to_monthly_df live, prov0, []).
Proof.
  unfold get_monthly_history, local_fallback, synthetic_stage, live, prov0.
  fold disease_l.
  destruct (live_stage E disease_l region date_from date_to) as [sv pv].
  simpl fst. simpl snd.
  destruct (unusable sv) eqn:Eu.
  - destruct (local_stage E disease_l date_from date_to (tried_regions E region))
      as [[s p]|].
    + destruct (unusable s); reflexivity.
    + rewrite Eu. reflexivity.
  - rewrite Eu. reflexivity.
Qed.

End Resolver.

(** C7, as stated, fails.  With the candidate keys "Sri Lanka" and "LKA", a
    flat series under the first and a varied one under the second, the local
    stage stops at the first key, whose series is not usable; and when every
    key yields a flat series, no candidate is usable and yet no warning is
    appended. *)
Lemma local_stage_stops_at_unusable_series :
  tried_regions env_flat_then_varied "Sri Lanka" = ["Sri Lanka"; "LKA"]
  /\ unusable flat_pair = true
  /\ unusable varied_year = false
  /\ local_stage env_flat_then_varied "dengue" "2021-01-01" "2021-12-31"
       ["Sri Lanka"; "LKA"]
     = Some (flat_pair, local_provenance "Sri Lanka")
  /\ (exists h,
        get_monthly_history env_flat_then_varied
          "dengue" "Sri Lanka" "2021-01-01" "2021-12-31"
        = Ok (h, [local_provenance "Sri Lanka"; P_SYNTH_FLAT], []))
  /\ (exists h,
        get_monthly_history env_flat_only
          "dengue" "Sri Lanka" "2021-01-01" "2021-12-31"
        = Ok (h, [local_provenance "Sri Lanka"; P_SYNTH_FLAT], [])).
Proof.
  repeat split; try (vm_compute; reflexivity);
    eexists; vm_compute; reflexivity.
Qed.

(** C7, amended.  When the live stage leaves no usable series, the local
    stage tries the candidate keys in order and stops at the first one whose
    fetch returns a non-empty series (a failed fetch counts as empty): that
    series and its key are recorded and no warning is appended.  When no key
    returns a non-empty series, exactly one warning is appended and the
    cascade falls to the synthetic stage. *)
Theorem local_stage_first_nonempty
    (E : Env) (disease region date_from date_to : string) :
  let disease_l := strip (lower disease) in
  let fetched := fetch_local E disease_l date_from date_to in
  let cands := tried_regions E region in
  let prov0 := snd (live_stage E disease_l region date_from date_to) in
  unusable (fst (live_stage E disease_l region date_from date_to)) = true ->
  (forall pre r post,
      cands = pre ++ r :: post ->
      (forall k, In k pre -> fetched k = []) ->
      fetched r <> [] ->
      local_stage E disease_l date_from date_to cands
      = Some (fetched r, local_provenance r)
      /\ forall h prov warn,
          get_monthly_history E disease region date_from date_to
          = Ok (h, prov, warn) ->
          warn = []
          /\ exists rest, prov = prov0 ++ local_provenance r :: rest)
  /\ ((forall k, In k cands -> fetched k = []) ->
      local_stage E disease_l date_from date_to cands = None
      /\ forall h prov warn,
          get_monthly_history E disease region date_from date_to
          = Ok (h, prov, warn) ->
          warn = [W_NO_DATA] /\ prov = prov0 ++ [P_SYNTH_FLAT]).
Proof.
  intros disease_l fetched cands prov0 Hlive. split.
  - intros pre r post Hc Hpre Hr.
    assert (Hs : local_stage E disease_l date_from date_to cands
                 = Some (fetched r, local_provenance r)).
    { apply local_stage_some. exists pre, r, post. auto. }
    split; [exact Hs|].
    intros h prov warn. rewrite get_monthly_history_eq.
    fold disease_l. rewrite Hlive. fold cands. rewrite Hs.
    unfold synthetic_stage. fold prov0.
    destruct (unusable (fetched r)).
    + destruct (generate_synthetic_timeseries E date_from date_to None 12 100);
        simpl; [|discriminate].
      intros H. injection H as _ <- <-. split; [reflexivity|].
      exists [P_SYNTH_FLAT]. now rewrite <- app_assoc.
    + intros H. injection H as _ <- <-. split; [reflexivity|].
      now exists [].
  - intros Hall.
    assert (Hs : local_stage E disease_l date_from date_to cands = None)
      by now apply local_stage_none.
    split; [exact Hs|].
    intros h prov warn. rewrite get_monthly_history_eq.
    fold disease_l. rewrite Hlive. fold cands. rewrite Hs.
    unfold synthetic_stage. fold prov0.
    destruct (generate_synthetic_timeseries E date_from date_to None 12 100);
      simpl; [|discriminate].
    intros H. injection H as _ <- <-. auto.
Qed.

Lemma local_stage_first_nonempty_witness :
  local_stage env_flat_then_varied "dengue" "2021-01-01" "2021-12-31"
    (tried_regions env_flat_then_varied "Sri Lanka")
  = Some (flat_pair, local_provenance "Sri Lanka")
  /\ forall h prov warn,
       get_monthly_history env_flat_then_varied
         "dengue" "Sri Lanka" "2021-01-01" "2021-12-31" = Ok (h, prov, warn) ->
       warn = [] /\ exists rest, prov = [] ++ local_provenance "Sri Lanka" :: rest.
Proof.
  apply (proj1 (local_stage_first_nonempty env_flat_then_varied
                  "dengue" "Sri Lanka" "2021-01-01" "2021-12-31" eq_refl)
               [] "Sri Lanka" ["LKA"]).
  - reflexivity.
  - intros k [].
  - discriminate.
Defined.



(** ** The forecast selector *)

Lemma forecast_monthly_inv (E : Env) (disease region date_from date_to : string)
    (h : Z) (res : ForecastResult) :
  forecast_monthly E disease region date_from date_to h = Ok res ->
  exists y prov warn rows m ext,
    prepare_history E disease region date_from date_to = Ok (y, prov, warn)
    /\ select_forecast E y date_from h = Ok (rows, m, ext)
    /\ res = mkResult (format_history y) (map format_point rows) m prov
                      (if ext then warn ++ [W_EXTENSION] else warn).
Proof.
  unfold forecast_monthly.
  destruct (prepare_history E disease region date_from date_to)
    as [[[y prov] warn]|e]; simpl; [|discriminate].
  destruct (select_forecast E y date_from h) as [[[rows m] ext]|e] eqn:Es;
    simpl; [|discriminate].
  intros H. injection H as <-. exists y, prov, warn, rows, m, ext.
  split; [reflexivity|]. split; [exact Es|].
  destruct ext; reflexivity.
Qed.

Lemma select_forecast_inv (E : Env) (y : Monthly) (date_from : string)
    (h : Z) (rows : list FRow) (m : string) (ext : bool) :
  select_forecast E y date_from h = Ok (rows, m, ext) ->
  selected E y date_from h rows m ext.
Proof.
  unfold select_forecast.
  destruct (_sarimax_forecast E y h) as [[r1 m1]|e1] eqn:E1.
  { intros H. injection H as <- <- <-. now apply sel_sarimax. }
  assert (N1 : is_ok (_sarimax_forecast E y h) = false) by now rewrite E1.
  destruct (_naive_seasonal_forecast E y h) as [[r2 m2]|e2] eqn:E2.
  { intros H. injection H as <- <- <-. now apply sel_naive. }
  assert (N2 : is_ok (_naive_seasonal_forecast E y h) = false) by now rewrite E2.
  destruct (_moving_avg_forecast E y h) as [[r3 m3]|e3] eqn:E3.
  { intros H. injection H as <- <- <-. now apply sel_moving_avg. }
  assert (N3 : is_ok (_moving_avg_forecast E y h) = false) by now rewrite E3.
  destruct (_synthetic_extension E y date_from h) as [[r4 m4]|e4] eqn:E4;
    simpl; [|discriminate].
  intros H. injection H as <- <- <-. now apply sel_synthetic.
Qed.

Lemma sarimax_inv (E : Env) (y : Monthly) (h : Z) (rows : list FRow)
    (m : string) :
  _sarimax_forecast E y h = Ok (rows, m) ->
  _HAS_SM E = true /\ (24 <= List.length y)%nat
  /\ sarimax_fit E y h = Ok rows /\ m = "sarimax".
Proof.
  unfold _sarimax_forecast.
  destruct (_HAS_SM E); simpl; [|discriminate].
  destruct (List.length y <? 24)%nat eqn:Hl; simpl; [discriminate|].
  destruct (_is_flat (map Num (values y))); [discriminate|].
  destruct (sarimax_fit E y h); simpl; [|discriminate].
  intros H. injection H as <- <-. apply Nat.ltb_ge in Hl. auto.
Qed.

Lemma naive_inv (E : Env) (y : Monthly) (h : Z) (rows : list FRow)
    (m : string) :
  _naive_seasonal_forecast E y h = Ok (rows, m) ->
  (12 <= List.length y)%nat /\ m = "naive_seasonal"
  /\ exists means band,
       List.length means = Z.to_nat h
       /\ band = fmul (Num (128 # 100))
                   (if (3 <=? List.length (lag12_residuals (values y)))%nat
                    then std_ddof1 E (lag12_residuals (values y))
                    else std_ddof1 E (values y))
       /\ rows = with_band (_make_future_month_index (last_index y) h) means band.
Proof.
  unfold _naive_seasonal_forecast.
  destruct (List.length y <? 12)%nat eqn:Hl; [discriminate|].
  intros H. injection H as <- <-. apply Nat.ltb_ge in Hl.
  split; [exact Hl|]. split; [reflexivity|].
  eexists _, _. split; [|split; reflexivity].
  unfold range. now rewrite length_map, length_seq.
Qed.

Lemma moving_avg_inv (E : Env) (y : Monthly) (h : Z) (rows : list FRow)
    (m : string) :
  _moving_avg_forecast E y h = Ok (rows, m) ->
  (2 <= List.length y)%nat /\ m = "moving_avg"
  /\ exists means band,
       List.length means = Z.to_nat h
       /\ band = (let w := Nat.min 6 (List.length y) in
                  let avg := Qmean (tail w (values y)) in
                  let sd := if (3 <=? w)%nat then std_ddof1 E (tail w (values y))
                            else std_ddof1 E (values y) in
                  fmul (Num (164 # 100))
                       (if negb (isnan sd) then sd
                        else Num ((15 # 100) * (avg + 1))%Q))
       /\ rows = with_band (_make_future_month_index (last_index y) h) means band.
Proof.
  unfold _moving_avg_forecast.
  destruct (List.length y <? 2)%nat eqn:Hl; [discriminate|].
  intros H. injection H as <- <-. apply Nat.ltb_ge in Hl.
  split; [exact Hl|]. split; [reflexivity|].
  eexists _, _. split; [|split; reflexivity].
  apply repeat_length.
Qed.

Lemma synth_extend_length (cur : Q) (E : Env) (i steps : nat) :
  List.length (synth_extend E cur i steps) = steps.
Proof.
  revert cur i. induction steps as [|k IH]; intros cur i; simpl;
    [reflexivity|now rewrite IH].
Qed.

Lemma synthetic_inv (E : Env) (y : Monthly) (date_from : string) (h : Z)
    (rows : list FRow) (m : string) :
  _synthetic_extension E y date_from h = Ok (rows, m) ->
  m = "synthetic"
  /\ exists start means base,
       forecast_start E y date_from = Ok start
       /\ List.length means = Z.to_nat h
       /\ rows = with_band (_make_future_month_index start h) means
                   (py_max2 (Num ((2 # 10) * base)%Q) (Num 10)).
Proof.
  unfold _synthetic_extension, forecast_start.
  destruct (match y with [] => pd_Timestamp E date_from | _ => Ok (last_index y) end)
    as [start|e]; simpl; [|discriminate].
  intros H. injection H as <- <-. split; [reflexivity|].
  eexists start, _, _. split; [reflexivity|]. split; [|reflexivity].
  apply synth_extend_length.
Qed.

Lemma forecast_start_nonempty (E : Env) (y : Monthly) (date_from : string) :
  y <> [] -> forecast_start E y date_from = Ok (last_index y).
Proof. destruct y; [now intros H; elim H|reflexivity]. Qed.

Lemma selected_dates (E : Env) (y : Monthly) (date_from : string) (h : Z)
    (rows : list FRow) (m : string) (ext : bool) :
  (m = "sarimax" -> sarimax_on_future_index E) ->
  selected E y date_from h rows m ext ->
  exists start,
    forecast_start E y date_from = Ok start
    /\ map f_date rows = _make_future_month_index start h.
Proof.
  intros Hsm Hsel.
  destruct Hsel as [H1|_ H2|_ _ H3|_ _ _ H4].
  - apply sarimax_inv in H1. destruct H1 as [_ [Hl [Hfit Hm]]].
    exists (last_index y). split; [|now apply (Hsm Hm)].
    apply forecast_start_nonempty. intros ->. simpl in Hl. lia.
  - apply naive_inv in H2.
    destruct H2 as [Hl [_ [means [band [Hm [_ ->]]]]]].
    exists (last_index y). split.
    + apply forecast_start_nonempty. intros ->. simpl in Hl. lia.
    + apply with_band_dates. now rewrite future_index_length.
  - apply moving_avg_inv in H3.
    destruct H3 as [Hl [_ [means [band [Hm [_ ->]]]]]].
    exists (last_index y). split.
    + apply forecast_start_nonempty. intros ->. simpl in Hl. lia.
    + apply with_band_dates. now rewrite future_index_length.
  - apply synthetic_inv in H4.
    destruct H4 as [_ [start [means [base [Hs [Hm ->]]]]]].
    exists start. split; [exact Hs|].
    apply with_band_dates. now rewrite future_index_length.
Qed.

Lemma nth_error_future_index (start : Timestamp) (h : Z) (i : nat) :
  Z.of_nat i < h ->
  nth_error (_make_future_month_index start h) i
  = Some (month_start (ts_month start + 1 + Z.of_nat i)).
Proof.
  intros Hi. unfold _make_future_month_index, range.
  rewrite nth_error_map, nth_error_seq.
  replace (i <? Z.to_nat h)%nat with true by (symmetry; apply Nat.ltb_lt; lia).
  reflexivity.
Qed.

Lemma future_index_increasing (start : Timestamp) (h : Z) :
  increasing (map ts_month (_make_future_month_index start h)).
Proof.
  unfold _make_future_month_index, range. rewrite map_map. cbn [ts_month month_start].
  generalize (Z.to_nat h) as n. generalize 0%nat as a.
  intros a n. revert a. induction n as [|n IH]; intros a; simpl; constructor.
  - apply IH.
  - apply Forall_forall. intros x Hx. apply in_map_iff in Hx.
    destruct Hx as [i [<- Hi]]. apply in_seq in Hi. lia.
Qed.

Lemma format_history_last (y : Monthly) (d : Timestamp * Q) :
  y <> [] -> fst (last (format_history y) d) = last_index y.
Proof.
  intros Hne. unfold format_history, last_index, last_month.
  destruct y as [|kv y]; [now elim Hne|].
  set (f := fun dv : Z * Q => (month_start (fst dv), snd dv)).
  change (map f (kv :: y)) with (f kv :: map f y).
  rewrite (last_nonempty (f kv) (map f y) d (f (0, 0%Q))).
  change (f kv :: map f y) with (map f (kv :: y)).
  rewrite (last_map f). reflexivity.
Qed.

(** C2, as stated, fails for a negative horizon: the call returns, and the
    forecast has no point at all, not [horizon_months] of them. *)
Lemma negative_horizon_gives_no_points :
  exists res,
    forecast_monthly env_offline "dengue" "Sri Lanka" "2021-01-01" "2021-12-31" (-1)
    = Ok res
    /\ forecast res = []
    /\ Z.of_nat (List.length (forecast res)) <> -1.
Proof.
  eexists. split; [vm_compute; reflexivity|]. split; [reflexivity|].
  simpl. lia.
Qed.

(** C2, amended.  Whenever [forecast_monthly] returns, the forecast has
    exactly [horizon_months] points when that is not negative, and none when
    it is; their dates are the month starts that follow the last month of the
    history one after the other, without a gap (with no history at all, the
    months that follow [date_from]), hence strictly increasing.  When the
    method is "sarimax", the statistical model, which is not part of this
    code, is taken to forecast on the index it is asked for. *)
Theorem forecast_dates_consecutive
    (E : Env) (disease region date_from date_to : string) (h : Z)
    (res : ForecastResult) :
  (method res = "sarimax" -> sarimax_on_future_index E) ->
  forecast_monthly E disease region date_from date_to h = Ok res ->
  (0 <= h -> Z.of_nat (List.length (forecast res)) = h)
  /\ (h < 0 -> forecast res = [])
  /\ exists start,
       match history res with
       | [] => pd_Timestamp E date_from = Ok start
       | hist => start = fst (last hist (month_start 0, 0%Q))
       end
       /\ map fp_date (forecast res) = _make_future_month_index start h
       /\ (forall i, Z.of_nat i < h ->
             nth_error (map fp_date (forecast res)) i
             = Some (month_start (ts_month start + 1 + Z.of_nat i)))
       /\ increasing (map (fun p => ts_month (fp_date p)) (forecast res)).
Proof.
  intros Hsm Hres.
  apply forecast_monthly_inv in Hres.
  destruct Hres as [y [prov [warn [rows [m [ext [_ [Hsel ->]]]]]]]].
  apply select_forecast_inv in Hsel. cbn [method] in Hsm.
  destruct (selected_dates Hsm Hsel) as [start [Hstart Hdates]].
  assert (Hfd : map fp_date (map format_point rows)
                = _make_future_month_index start h).
  { rewrite map_map. exact Hdates. }
  assert (Hlen : List.length (map format_point rows) = Z.to_nat h).
  { rewrite <- (length_map fp_date), Hfd. apply future_index_length. }
  cbn [forecast history]. split; [|split].
  - intros Hh. rewrite Hlen. lia.
  - intros Hh. apply length_zero_iff_nil. rewrite Hlen. lia.
  - exists start. split; [|split; [|split]].
    + destruct y as [|kv y]; [exact Hstart|].
      assert (Hh : fst (last (format_history (kv :: y)) (month_start 0, 0%Q))
                   = last_index (kv :: y))
        by (apply format_history_last; discriminate).
      destruct (format_history (kv :: y)) as [|p hist] eqn:Efh;
        [discriminate Efh|].
      rewrite Hh. simpl in Hstart. now injection Hstart.
    + exact Hfd.
    + intros i Hi. rewrite Hfd. now apply nth_error_future_index.
    + rewrite <- (map_map fp_date ts_month), Hfd.
      apply future_index_increasing.
Qed.

Lemma flat_fit_on_future_index (live local : string -> result (list Obs))
    (has_sm : bool) :
  sarimax_on_future_index (Mock.env live local has_sm Mock.flat_fit).
Proof.
  intros y steps rows H. simpl in H. unfold Mock.flat_fit in H.
  injection H as <-. rewrite map_map. simpl. apply map_id.
Qed.

Lemma forecast_dates_consecutive_witness :
  exists res,
    forecast_monthly env_two_years
      "covid-19" "Sri Lanka" "2020-01-01" "2021-12-31" 3 = Ok res
    /\ method res = "sarimax"
    /\ map fp_date (forecast res) = [ymd 2022 1 1; ymd 2022 2 1; ymd 2022 3 1]
    /\ (0 <= 3 -> Z.of_nat (List.length (forecast res)) = 3)
    /\ (3 < 0 -> forecast res = [])
    /\ exists start,
         match history res with
         | [] => pd_Timestamp env_two_years "2020-01-01" = Ok start
         | hist => start = fst (last hist (month_start 0, 0%Q))
         end
         /\ map fp_date (forecast res) = _make_future_month_index start 3
         /\ (forall i, Z.of_nat i < 3 ->
               nth_error (map fp_date (forecast res)) i
               = Some (month_start (ts_month start + 1 + Z.of_nat i)))
         /\ increasing (map (fun p => ts_month (fp_date p)) (forecast res)).
Proof.
  destruct (forecast_monthly env_two_years
              "covid-19" "Sri Lanka" "2020-01-01" "2021-12-31" 3)
    as [res|e] eqn:Er; [|vm_compute in Er; discriminate].
  exists res. split; [reflexivity|].
  pose proof (@forecast_dates_consecutive env_two_years
                "covid-19" "Sri Lanka" "2020-01-01" "2021-12-31" 3 res
                (fun _ => @flat_fit_on_future_index Mock.unreachable local_two_years true)
                Er) as Hthm.
  vm_compute in Er. injection Er as <-.
  split; [reflexivity|]. split; [reflexivity|]. exact Hthm.
Defined.

(** ** The response: clamped bounds *)

Lemma Qltb_lt (a b : Q) : Qltb a b = true <-> (a < b)%Q.
Proof.
  unfold Qltb. rewrite negb_true_iff. split.
  - intros H. apply Qnot_le_lt. intros Hle.
    apply Qle_bool_iff in Hle. congruence.
  - intros H. destruct (Qle_bool b a) eqn:Hb; [|reflexivity].
    apply Qle_bool_iff in Hb. apply Qlt_not_le in H. contradiction.
Qed.

Lemma Qltb_ge (a b : Q) : Qltb a b = false <-> (b <= a)%Q.
Proof.
  unfold Qltb. rewrite negb_false_iff. apply Qle_bool_iff.
Qed.

(** [max(0.0, x)] is a number, and not a negative one, whatever [x] is. *)
Lemma clamp_nonneg (x : pyfloat) : fle (Num 0) (py_max2 (Num 0) x).
Proof.
  unfold py_max2, fgt. destruct x as [q|]; simpl.
  - destruct (Qltb 0 q) eqn:Hq; simpl.
    + apply Qltb_lt in Hq. now apply Qlt_le_weak.
    + apply Qle_refl.
  - apply Qle_refl.
Qed.

(** [max(0.0, x)] keeps a number above 0 and turns everything else into 0. *)
Lemma format_point_formats (row : FRow) : formats row (format_point row).
Proof.
  assert (Hclamp : forall x, clamped_at_zero x (py_max2 (Num 0) x)).
  { intros [q|]; unfold clamped_at_zero, py_max2, fgt; simpl; [|reflexivity].
    destruct (Qltb 0 q) eqn:Hq.
    - left. split; [now apply Qltb_lt|reflexivity].
    - right. split; [now apply Qltb_ge|reflexivity]. }
  unfold formats, format_point. simpl. repeat split; apply Hclamp.
Qed.

(** C9.  Every point of a returned forecast is read off a row of the selected
    strategy: the point estimate is the strategy's mean as it is, never
    clamped, while the upper bound, like the lower one, is the strategy's
    bound when that is a number above 0 and 0 otherwise; so a negative upper
    bound of the strategy is reported as 0, also under a negative point
    estimate, and a positive one is reported as it is. *)
Theorem upper_bound_clamped_estimate_kept
    (E : Env) (disease region date_from date_to : string) (h : Z)
    (res : ForecastResult) :
  forecast_monthly E disease region date_from date_to h = Ok res ->
  exists y warn rows ext,
    prepare_history E disease region date_from date_to
    = Ok (y, provenance res, warn)
    /\ select_forecast E y date_from h = Ok (rows, method res, ext)
    /\ Forall2 formats rows (forecast res).
Proof.
  intros Hres. apply forecast_monthly_inv in Hres.
  destruct Hres as [y [prov [warn [rows [m [ext [Hprep [Hsel ->]]]]]]]].
  exists y, warn, rows, ext. split; [exact Hprep|].
  split; [exact Hsel|]. cbn [forecast].
  clear Hsel. induction rows as [|row rows IH]; simpl; constructor.
  - apply format_point_formats.
  - exact IH.
Qed.

Lemma upper_bound_clamped_estimate_kept_witness :
  (exists res,
     forecast_monthly env_falling "dengue" "Sri Lanka" "2021-01-01" "2021-03-31" 2
     = Ok res
     /\ method res = "moving_avg"
     /\ (exists rows,
           _moving_avg_forecast env_falling (_to_monthly_df falling_counts) 2
           = Ok (rows, "moving_avg")
           /\ Forall (fun row => flt (f_hi row) (Num 0) = true) rows)
     /\ Forall (fun p => flt (yhat p) (Num 0) = true /\ yhat_upper p = Num 0)
               (forecast res)
     /\ exists y warn rows ext,
          prepare_history env_falling "dengue" "Sri Lanka" "2021-01-01" "2021-03-31"
          = Ok (y, provenance res, warn)
          /\ select_forecast env_falling y "2021-01-01" 2
             = Ok (rows, method res, ext)
          /\ Forall2 formats rows (forecast res))
  /\ (exists res,
        forecast_monthly env_mixed "dengue" "Sri Lanka" "2021-01-01" "2021-03-31" 2
        = Ok res
        /\ _moving_avg_forecast env_mixed (_to_monthly_df mixed_counts) 2
           = Ok ([mkFRow (ymd 2021 4 1)
                         (Num (-3 # 3)) (Num (-2268 # 300)) (Num (1668 # 300));
                  mkFRow (ymd 2021 5 1)
                         (Num (-3 # 3)) (Num (-2268 # 300)) (Num (1668 # 300))],
                 "moving_avg")
        /\ forecast res
           = [mkPoint (ymd 2021 4 1) (Num (-3 # 3)) (Num 0) (Num (1668 # 300));
              mkPoint (ymd 2021 5 1) (Num (-3 # 3)) (Num 0) (Num (1668 # 300))]
        /\ exists y warn rows ext,
             prepare_history env_mixed "dengue" "Sri Lanka" "2021-01-01" "2021-03-31"
             = Ok (y, provenance res, warn)
             /\ select_forecast env_mixed y "2021-01-01" 2
                = Ok (rows, method res, ext)
             /\ Forall2 formats rows (forecast res)).
Proof.
  split.
  - destruct (forecast_monthly env_falling
                "dengue" "Sri Lanka" "2021-01-01" "2021-03-31" 2)
      as [res|e] eqn:Er; [|vm_compute in Er; discriminate].
    exists res. split; [reflexivity|].
    pose proof (@upper_bound_clamped_estimate_kept env_falling
                  "dengue" "Sri Lanka" "2021-01-01" "2021-03-31" 2 res Er) as Hthm.
    vm_compute in Er. injection Er as <-.
    split; [reflexivity|]. split; [|split; [|exact Hthm]].
    + eexists. split; [reflexivity|].
      repeat (constructor; [vm_compute; reflexivity|]). constructor.
    + repeat (constructor; [split; vm_compute; reflexivity|]). constructor.
  - destruct (forecast_monthly env_mixed
                "dengue" "Sri Lanka" "2021-01-01" "2021-03-31" 2)
      as [res|e] eqn:Er; [|vm_compute in Er; discriminate].
    exists res. split; [reflexivity|].
    pose proof (@upper_bound_clamped_estimate_kept env_mixed
                  "dengue" "Sri Lanka" "2021-01-01" "2021-03-31" 2 res Er) as Hthm.
    vm_compute in Er. injection Er as <-.
    split; [vm_compute; reflexivity|]. split; [reflexivity|exact Hthm].
Defined.

(** ** The response: order of the bounds *)

Lemma with_band_bracketed (idx : list Timestamp) (means : list Q) (b : Q) :
  (0 <= b)%Q -> Forall bracketed (with_band idx means (Num b)).
Proof.
  intros Hb. unfold with_band. apply Forall_forall. intros r Hr.
  apply in_map_iff in Hr. destruct Hr as [[d m] [<- _]].
  unfold bracketed. simpl. split; lra.
Qed.

Lemma std_ddof1_num (E : Env) (l : list Q) :
  sqrt_nonneg E -> (2 <= List.length l)%nat ->
  exists s, std_ddof1 E l = Num s /\ (0 <= s)%Q.
Proof.
  intros Hs Hl. unfold std_ddof1.
  replace (List.length l <? 2)%nat with false
    by (symmetry; now apply Nat.ltb_ge).
  eexists. split; [reflexivity|apply Hs].
Qed.

Lemma tail_length (w : nat) (l : list Q) :
  (w <= List.length l)%nat -> List.length (tail w l) = w.
Proof. intros H. unfold tail. rewrite length_skipn. lia. Qed.

Lemma selected_bracketed (E : Env) (y : Monthly) (date_from : string) (h : Z)
    (rows : list FRow) (m : string) (ext : bool) :
  sqrt_nonneg E -> sarimax_brackets E ->
  selected E y date_from h rows m ext -> Forall bracketed rows.
Proof.
  intros Hsq Hsm Hsel.
  destruct Hsel as [H1|_ H2|_ _ H3|_ _ _ H4].
  - apply sarimax_inv in H1. destruct H1 as [_ [_ [Hfit _]]]. eapply Hsm, Hfit.
  - apply naive_inv in H2.
    destruct H2 as [Hl [_ [means [band [_ [Hb ->]]]]]].
    assert (Hsd : exists s,
               (if (3 <=? List.length (lag12_residuals (values y)))%nat
                then std_ddof1 E (lag12_residuals (values y))
                else std_ddof1 E (values y)) = Num s /\ (0 <= s)%Q).
    { destruct (3 <=? List.length (lag12_residuals (values y)))%nat eqn:H3.
      - apply Nat.leb_le in H3. apply std_ddof1_num; [exact Hsq|lia].
      - apply std_ddof1_num; [exact Hsq|]. rewrite values_length. lia. }
    destruct Hsd as [s [Es Hs]]. rewrite Es in Hb. subst band. simpl.
    apply with_band_bracketed. 
    apply Qmult_le_0_compat; [discriminate|exact Hs].
  - apply moving_avg_inv in H3.
    destruct H3 as [Hl [_ [means [band [_ [Hb ->]]]]]].
    cbv zeta in Hb.
    assert (Hsd : exists s,
               (if (3 <=? Nat.min 6 (List.length y))%nat
                then std_ddof1 E (tail (Nat.min 6 (List.length y)) (values y))
                else std_ddof1 E (values y)) = Num s /\ (0 <= s)%Q).
    { destruct (3 <=? Nat.min 6 (List.length y))%nat eqn:H3.
      - apply Nat.leb_le in H3. apply std_ddof1_num; [exact Hsq|].
        rewrite tail_length; [lia|]. rewrite values_length. lia.
      - apply std_ddof1_num; [exact Hsq|]. rewrite values_length. lia. }
    destruct Hsd as [s [Es Hs]]. rewrite Es in Hb. subst band. simpl.
    apply with_band_bracketed.
    apply Qmult_le_0_compat; [discriminate|exact Hs].
  - apply synthetic_inv in H4.
    destruct H4 as [_ [start [means [base [_ [_ ->]]]]]].
    unfold py_max2, fgt. simpl.
    destruct (Qltb ((2 # 10) * base) 10) eqn:Hb.
    + apply with_band_bracketed. discriminate.
    + apply with_band_bracketed. apply Qltb_ge in Hb. lra.
Qed.

Lemma format_point_ordered (r : FRow) :
  bracketed r -> fle (Num 0) (f_mean r) ->
  fle (yhat_lower (format_point r)) (yhat (format_point r))
  /\ fle (yhat (format_point r)) (yhat_upper (format_point r)).
Proof.
  unfold bracketed, format_point, py_max2, fgt. simpl.
  destruct (f_lo r) as [lo|], (f_mean r) as [mu|], (f_hi r) as [hi|];
    simpl; try tauto.
  intros [H1 H2] H0.
  destruct (Qltb 0 lo) eqn:Hlo, (Qltb 0 hi) eqn:Hhi; simpl;
    rewrite ?Qltb_lt, ?Qltb_ge in *; split; lra.
Qed.



Lemma sqrt_rat_nonneg (live local : string -> result (list Obs)) (has_sm : bool)
    (fit : Monthly -> Z -> result (list FRow)) :
  sqrt_nonneg (Mock.env live local has_sm fit).
Proof.
  intros q. simpl. unfold Mock.sqrt_rat. rewrite Qred_correct.
  unfold Qle. simpl. rewrite Z.mul_1_r. apply Z.sqrt_nonneg.
Qed.

Lemma flat_fit_brackets (live local : string -> result (list Obs))
    (has_sm : bool) :
  sarimax_brackets (Mock.env live local has_sm Mock.flat_fit).
Proof.
  intros y steps rows H. simpl in H. unfold Mock.flat_fit in H.
  injection H as <-. apply Forall_forall. intros r Hr.
  apply in_map_iff in Hr. destruct Hr as [d [<- _]].
  unfold bracketed. simpl.
  pose proof (Qabs_nonneg (last (map snd y) 0%Q)). split; lra.
Qed.


(** ** Reading the records

    On series whose records all read, the resolver and [forecast_monthly] on
    the records as delivered are the resolver and [forecast_monthly] of the
    sections above on the records read. *)

Lemma each_map {A B : Type} (f : A -> result B) (g : A -> B) (l : list A) :
  (forall a, In a l -> f a = Ok (g a)) -> Raw.each f l = Ok (map g l).
Proof.
  induction l as [|a l IH]; intros H; simpl; [reflexivity|].
  rewrite (H a (or_introl eq_refl)). simpl.
  rewrite IH by (intros b Hb; apply H; now right). reflexivity.
Qed.

Lemma each_raises {A B : Type} (f : A -> result B) (l : list A) (e : string) :
  Raw.each f l = Raise e -> exists a, In a l /\ f a = Raise e.
Proof.
  induction l as [|a l IH]; simpl; [discriminate|].
  destruct (f a) as [b|e0] eqn:Ea; simpl.
  - destruct (Raw.each f l) as [bs|e1]; simpl; [discriminate|].
    intros H. injection H as <-.
    destruct (IH eq_refl) as [x [Hx Hf]]. exists x. auto.
  - intros H. injection H as <-. exists a. auto.
Qed.

Lemma readable_record (S : Raw.Sources) (s : list Raw.Rec) (x : Raw.Rec) :
  Raw.readable S s = true -> In x s ->
  Raw.to_datetime S (Raw.rec_date x) = Ok (obs_date (Raw.read S x))
  /\ Raw.float_ (Raw.rec_value x) = Ok (obs_value (Raw.read S x)).
Proof.
  unfold Raw.readable. rewrite forallb_forall. intros H Hx.
  specialize (H x Hx). apply andb_true_iff in H. destruct H as [Hd Hv].
  unfold Raw.read. cbn [obs_date obs_value]. split.
  - destruct (Raw.to_datetime S (Raw.rec_date x)); [reflexivity|discriminate].
  - destruct (Raw.rec_value x); [reflexivity|discriminate].
Qed.

Lemma values_of_readable (S : Raw.Sources) (s : list Raw.Rec) :
  Raw.readable S s = true ->
  Raw.values_of s = Ok (values_of (map (Raw.read S) s)).
Proof.
  intros H. unfold Raw.values_of, values_of. rewrite map_map.
  rewrite <- (map_map Raw.rec_value (fun v => Raw.to_numeric v)).
  apply each_map. intros v Hv. apply in_map_iff in Hv.
  destruct Hv as [x [<- Hx]].
  destruct (readable_record S s x H Hx) as [_ Hf]. exact Hf.
Qed.

Lemma unusable_readable (S : Raw.Sources) (s : list Raw.Rec) :
  Raw.readable S s = true ->
  Raw.unusable s = Ok (unusable (map (Raw.read S) s)).
Proof.
  intros H. destruct s as [|x s]; [reflexivity|].
  change (unusable (map (Raw.read S) (x :: s)))
    with ((List.length (map (Raw.read S) (x :: s)) <? 2)%nat
          || _is_flat (values_of (map (Raw.read S) (x :: s)))).
  rewrite length_map. unfold Raw.unusable.
  destruct (List.length (x :: s) <? 2)%nat; [reflexivity|].
  rewrite (values_of_readable S (x :: s) H). reflexivity.
Qed.

Lemma combine_read (S : Raw.Sources) (s : list Raw.Rec) :
  map (fun dv : Timestamp * pyfloat => mkObs (fst dv) (snd dv))
      (combine (map (fun x => obs_date (Raw.read S x)) s)
               (map (fun x => Raw.to_numeric (Raw.rec_value x)) s))
  = map (Raw.read S) s.
Proof.
  induction s as [|x s IH]; [reflexivity|].
  cbn [map combine]. rewrite IH. reflexivity.
Qed.

Lemma to_monthly_df_readable (S : Raw.Sources) (s : list Raw.Rec) :
  Raw.readable S s = true ->
  Raw._to_monthly_df S s = Ok (_to_monthly_df (map (Raw.read S) s)).
Proof.
  intros H. unfold Raw._to_monthly_df.
  destruct s as [|x s]; [reflexivity|].
  rewrite (each_map (Raw.to_datetime S) (fun d => try_except (Raw.to_datetime S d) (month_start 0))).
  - cbn [bind]. rewrite map_map.
    change (fun x0 : Raw.Rec =>
              try_except (Raw.to_datetime S (Raw.rec_date x0)) (month_start 0))
      with (fun x0 => obs_date (Raw.read S x0)).
    now rewrite combine_read.
  - intros d Hd. apply in_map_iff in Hd. destruct Hd as [x0 [<- Hx0]].
    destruct (readable_record S (x :: s) x0 H Hx0) as [Hdt _].
    rewrite Hdt. reflexivity.
Qed.

Lemma dated_undated (rows : list Raw.SRow) :
  forallb Raw.is_dated rows = true ->
  map Raw.dated (map Raw.undated rows) = rows.
Proof.
  induction rows as [|r rows IH]; simpl; [reflexivity|].
  intros H. apply andb_true_iff in H. destruct H as [Hr Hrows].
  rewrite (IH Hrows). f_equal.
  destruct r as [[t|k] m lo hi]; [reflexivity|discriminate Hr].
Qed.

Lemma format_point_dated (rows : list FRow) :
  Raw.each Raw.format_point (map Raw.dated rows) = Ok (map format_point rows).
Proof.
  induction rows as [|r rows IH]; simpl; [reflexivity|].
  rewrite IH. reflexivity.
Qed.

(** Where the rows of a selection come from: the statistical model, or an
    in-repo strategy, whose rows are dated. *)
Lemma select_forecast_rows (E : Env) (S : Raw.Sources) (y : Monthly)
    (date_from : string) (h : Z) (rows : list Raw.SRow) (m : string)
    (ext : bool) :
  Raw.select_forecast E S y date_from h = Ok (rows, m, ext) ->
  Raw.fit S y h = Ok rows \/ exists rows', rows = map Raw.dated rows'.
Proof.
  unfold Raw.select_forecast, Raw._sarimax_forecast.
  destruct (negb (_HAS_SM E)); simpl.
  2:{ destruct ((List.length y <? 24)%nat || _is_flat (map Num (values y)));
        simpl.
      2:{ destruct (Raw.fit S y h) as [r0|e0]; simpl.
          { intros H. injection H as <- _ _. now left. }
          destruct (_naive_seasonal_forecast E y h) as [[r1 m1]|e1].
          { intros H. injection H as <- _ _. right. now exists r1. }
          destruct (_moving_avg_forecast E y h) as [[r2 m2]|e2].
          { intros H. injection H as <- _ _. right. now exists r2. }
          destruct (_synthetic_extension E y date_from h) as [[r3 m3]|e3];
            simpl; [|discriminate].
          intros H. injection H as <- _ _. right. now exists r3. }
      destruct (_naive_seasonal_forecast E y h) as [[r1 m1]|e1].
      { intros H. injection H as <- _ _. right. now exists r1. }
      destruct (_moving_avg_forecast E y h) as [[r2 m2]|e2].
      { intros H. injection H as <- _ _. right. now exists r2. }
      destruct (_synthetic_extension E y date_from h) as [[r3 m3]|e3];
        simpl; [|discriminate].
      intros H. injection H as <- _ _. right. now exists r3. }
  destruct (_naive_seasonal_forecast E y h) as [[r1 m1]|e1].
  { intros H. injection H as <- _ _. right. now exists r1. }
  destruct (_moving_avg_forecast E y h) as [[r2 m2]|e2].
  { intros H. injection H as <- _ _. right. now exists r2. }
  destruct (_synthetic_extension E y date_from h) as [[r3 m3]|e3];
    simpl; [|discriminate].
  intros H. injection H as <- _ _. right. now exists r3.
Qed.

Lemma select_forecast_read (E : Env) (S : Raw.Sources) (y : Monthly)
    (date_from : string) (h : Z) :
  Raw.fit_dated S h ->
  Raw.select_forecast E S y date_from h
  = match select_forecast (Raw.parsed E S) y date_from h with
    | Ok (rows, m, ext) => Ok (map Raw.dated rows, m, ext)
    | Raise e => Raise e
    end.
Proof.
  intros Hfit. unfold Raw.select_forecast, select_forecast.
  change (_naive_seasonal_forecast (Raw.parsed E S) y h)
    with (_naive_seasonal_forecast E y h).
  change (_moving_avg_forecast (Raw.parsed E S) y h)
    with (_moving_avg_forecast E y h).
  change (_synthetic_extension (Raw.parsed E S) y date_from h)
    with (_synthetic_extension E y date_from h).
  assert (Hrest :
    match _naive_seasonal_forecast E y h with
    | Ok (rows, m) => Ok (map Raw.dated rows, m, false)
    | Raise _ =>
        match _moving_avg_forecast E y h with
        | Ok (rows, m) => Ok (map Raw.dated rows, m, false)
        | Raise _ =>
            do rm <- _synthetic_extension E y date_from h;
            Ok (map Raw.dated (fst rm), snd rm, true)
        end
    end
    = match
        match _naive_seasonal_forecast E y h with
        | Ok (rows, m) => Ok (rows, m, false)
        | Raise _ =>
            match _moving_avg_forecast E y h with
            | Ok (rows, m) => Ok (rows, m, false)
            | Raise _ =>
                do rm <- _synthetic_extension E y date_from h;
                Ok (rm, true)
            end
        end
      with
      | Ok (rows, m, ext) => Ok (map Raw.dated rows, m, ext)
      | Raise e => Raise e
      end).
  { destruct (_naive_seasonal_forecast E y h) as [[r1 m1]|e1]; [reflexivity|].
    destruct (_moving_avg_forecast E y h) as [[r2 m2]|e2]; [reflexivity|].
    destruct (_synthetic_extension E y date_from h) as [[r3 m3]|e3];
      reflexivity. }
  unfold Raw._sarimax_forecast, _sarimax_forecast.
  cbn [_HAS_SM sarimax_fit Raw.parsed].
  destruct (negb (_HAS_SM E)); [exact Hrest|].
  destruct ((List.length y <? 24)%nat || _is_flat (map Num (values y)));
    [exact Hrest|].
  destruct (Raw.fit S y h) as [rows|e] eqn:Ef; cbn [bind Raw.read_forecast];
    [|exact Hrest].
  now rewrite (dated_undated rows (Hfit y rows Ef)).
Qed.

Section Reading.

Variable E : Env.
Variable S : Raw.Sources.
Variables disease region date_from date_to : string.

Let disease_l : string := strip (lower disease).

Hypothesis Hread : Raw.sources_readable S disease region date_from date_to.

Lemma live_stage_read :
  live_stage (Raw.parsed E S) disease_l region date_from date_to
  = (map (Raw.read S) (fst (Raw.live_stage S disease_l region date_from date_to)),
     snd (Raw.live_stage S disease_l region date_from date_to)).
Proof.
  unfold live_stage, Raw.live_stage. cbn [fetch_covid_timeseries Raw.parsed].
  destruct (contains "covid" disease_l); [|reflexivity].
  destruct (Raw.live S region date_from date_to) as [s|e]; [|reflexivity].
  destruct s; reflexivity.
Qed.

Lemma live_stage_delivered :
  fst (Raw.live_stage S disease_l region date_from date_to) = []
  \/ Raw.live S region date_from date_to
     = Ok (fst (Raw.live_stage S disease_l region date_from date_to)).
Proof.
  unfold Raw.live_stage.
  destruct (contains "covid" disease_l); [|now left].
  destruct (Raw.live S region date_from date_to) as [s|e]; [now right|now left].
Qed.

Lemma local_stage_delivered (cands : list string) (s : list Raw.Rec) (p : string) :
  Raw.local_stage S disease_l date_from date_to cands = Some (s, p) ->
  exists key, In key cands
              /\ Raw.local S disease_l key date_from date_to = Ok s.
Proof.
  induction cands as [|r cands IH]; simpl; [discriminate|].
  unfold Raw.fetch_local.
  destruct (Raw.local S disease_l r date_from date_to) as [[|x l]|e] eqn:El;
    simpl.
  - intros H. destruct (IH H) as [k [Hk Hs]]. exists k.
    split; [now right|exact Hs].
  - intros H. injection H as <- _. exists r. split; [now left|exact El].
  - intros H. destruct (IH H) as [k [Hk Hs]]. exists k.
    split; [now right|exact Hs].
Qed.

Lemma local_stage_read (cands : list string) :
  local_stage (Raw.parsed E S) disease_l date_from date_to cands
  = match Raw.local_stage S disease_l date_from date_to cands with
    | Some (s, p) => Some (map (Raw.read S) s, p)
    | None => None
    end.
Proof.
  induction cands as [|r cands IH]; simpl; [reflexivity|].
  unfold fetch_local, Raw.fetch_local.
  cbn [fetch_local_timeseries Raw.parsed].
  destruct (Raw.local S disease_l r date_from date_to) as [[|x l]|e]; simpl;
    try exact IH. reflexivity.
Qed.

Lemma live_stage_readable :
  Raw.readable S (fst (Raw.live_stage S disease_l region date_from date_to))
  = true.
Proof.
  destruct live_stage_delivered as [-> |H]; [reflexivity|].
  exact (proj1 Hread _ H).
Qed.

Lemma get_monthly_history_read :
  Raw.get_monthly_history E S disease region date_from date_to
  = get_monthly_history (Raw.parsed E S) disease region date_from date_to.
Proof.
  destruct Hread as [_ [Hloc Hgen]].
  rewrite get_monthly_history_eq. fold disease_l.
  unfold Raw.get_monthly_history. fold disease_l.
  rewrite live_stage_read. pose proof live_stage_readable as R0.
  destruct (Raw.live_stage S disease_l region date_from date_to) as [s0 p0].
  cbn [fst snd] in *.
  rewrite (unusable_readable S s0 R0). cbn [bind].
  rewrite local_stage_read.
  change (tried_regions (Raw.parsed E S) region) with (tried_regions E region).
  assert (Hsyn : forall prov warn,
            (do synth <- Raw.generator S date_from date_to None 12%nat 100;
             do monthly <- Raw._to_monthly_df S synth;
             Ok (monthly, (prov ++ [P_SYNTH_FLAT])%list, warn))
            = synthetic_stage (Raw.parsed E S) date_from date_to prov warn).
  { intros prov warn. unfold synthetic_stage.
    cbn [generate_synthetic_timeseries Raw.parsed].
    destruct (Raw.generator S date_from date_to None 12%nat 100) as [l|e] eqn:Eg;
      [|reflexivity].
    cbn [bind Raw.read_series].
    rewrite (to_monthly_df_readable S l (Hgen _ _ Eg)). reflexivity. }
  destruct (unusable (map (Raw.read S) s0)) eqn:U0.
  - destruct (Raw.local_stage S disease_l date_from date_to (tried_regions E region))
      as [[s1 p1]|] eqn:Els.
    + destruct (local_stage_delivered _ Els) as [key [_ Hk]].
      pose proof (Hloc _ _ Hk) as R1.
      rewrite (unusable_readable S s1 R1). cbn [bind].
      destruct (unusable (map (Raw.read S) s1)); [apply Hsyn|].
      rewrite (to_monthly_df_readable S s1 R1). reflexivity.
    + rewrite (unusable_readable S s0 R0). cbn [bind]. rewrite U0. apply Hsyn.
  - rewrite (unusable_readable S s0 R0). cbn [bind]. rewrite U0.
    rewrite (to_monthly_df_readable S s0 R0). reflexivity.
Qed.

Lemma prepare_history_read :
  Raw.prepare_history E S disease region date_from date_to
  = prepare_history (Raw.parsed E S) disease region date_from date_to.
Proof.
  unfold Raw.prepare_history, prepare_history.
  rewrite get_monthly_history_read.
  destruct (get_monthly_history (Raw.parsed E S) disease region date_from date_to)
    as [[[y prov] warn]|e]; [|reflexivity].
  cbn [bind]. destruct y as [|kv y]; [|reflexivity].
  cbn [generate_synthetic_timeseries weekly_increase_default Raw.parsed].
  destruct (Raw.generator S date_from date_to (weekly_increase_default E) 12%nat 100)
    as [l|e] eqn:Eg; [|reflexivity].
  cbn [bind Raw.read_series].
  rewrite (to_monthly_df_readable S l (proj2 (proj2 Hread) _ _ Eg)).
  reflexivity.
Qed.

Lemma forecast_monthly_read (h : Z) :
  Raw.fit_dated S h ->
  Raw.forecast_monthly E S disease region date_from date_to h
  = forecast_monthly (Raw.parsed E S) disease region date_from date_to h.
Proof.
  intros Hfit. unfold Raw.forecast_monthly, forecast_monthly.
  rewrite prepare_history_read.
  destruct (prepare_history (Raw.parsed E S) disease region date_from date_to)
    as [[[y prov] warn]|e]; [|reflexivity].
  cbn [bind]. rewrite (select_forecast_read E y date_from Hfit).
  destruct (select_forecast (Raw.parsed E S) y date_from h)
    as [[[rows m] ext]|e]; [|reflexivity].
  cbn [bind]. rewrite format_point_dated. reflexivity.
Qed.

End Reading.

(** ** Graceful degradation *)

Lemma month_values_present (l : list Obs) (o : Obs) (q : Q) :
  In o l -> obs_value o = Num q ->
  month_values (ts_month (obs_date o)) (dropna l) <> [].
Proof.
  induction l as [|o' l IH]; simpl; intros Hin Hv; [destruct Hin|].
  destruct Hin as [->|Hin].
  - rewrite Hv. unfold month_values. simpl. unfold in_month at 1. simpl.
    rewrite Z.eqb_refl. discriminate.
  - specialize (IH Hin Hv). destruct (obs_value o'); [|exact IH].
    unfold month_values in *. simpl.
    destruct (in_month (ts_month (obs_date o)) (obs_date o', q0));
      [discriminate|exact IH].
Qed.

Lemma to_monthly_df_nonempty (l : list Obs) :
  has_finite_obs l -> _to_monthly_df l <> [].
Proof.
  intros [o [q [Hin Hv]]] Hnil.
  pose proof (@to_monthly_df_total l _ (@month_values_present l o q Hin Hv)) as H.
  rewrite Hnil in H. discriminate.
Qed.

Lemma prepare_history_ok (E : Env) (disease region date_from date_to : string) :
  synthetic_generator_ok E date_from date_to ->
  exists y prov warn,
    prepare_history E disease region date_from date_to = Ok (y, prov, warn)
    /\ y <> [].
Proof.
  intros Hgen. unfold prepare_history.
  assert (Hsyn : forall p w,
             exists y,
               synthetic_stage E date_from date_to p w
               = Ok (y, p ++ [P_SYNTH_FLAT], w)
               /\ y <> []).
  { intros p w. unfold synthetic_stage.
    destruct (Hgen None) as [l [-> Hl]]. simpl.
    eexists. split; [reflexivity|now apply to_monthly_df_nonempty]. }
  assert (Hh : exists y prov warn,
             get_monthly_history E disease region date_from date_to
             = Ok (y, prov, warn)).
  { rewrite get_monthly_history_eq.
    destruct (unusable _).
    - destruct (local_stage _ _ _ _ _) as [[s p]|].
      + destruct (unusable s).
        * destruct (Hsyn (snd (live_stage E (strip (lower disease)) region
                                 date_from date_to) ++ [p]) [])
            as [y [-> _]]. eauto.
        * eauto.
      + destruct (Hsyn (snd (live_stage E (strip (lower disease)) region
                               date_from date_to)) [W_NO_DATA])
          as [y [-> _]]. eauto.
    - eauto. }
  destruct Hh as [y [prov [warn ->]]]. simpl.
  destruct y as [|kv y].
  - destruct (Hgen (weekly_increase_default E))
      as [l [-> Hl]]. simpl.
    eexists _, _, _. split; [reflexivity|now apply to_monthly_df_nonempty].
  - eexists _, _, _. split; [reflexivity|discriminate].
Qed.

Lemma select_forecast_total (E : Env) (y : Monthly) (date_from : string)
    (h : Z) :
  y <> [] ->
  exists rows m ext,
    select_forecast E y date_from h = Ok (rows, m, ext)
    /\ In m ["sarimax"; "naive_seasonal"; "moving_avg"; "synthetic"].
Proof.
  intros Hne. unfold select_forecast.
  destruct (_sarimax_forecast E y h) as [[r1 m1]|e1] eqn:E1.
  { apply sarimax_inv in E1. destruct E1 as [_ [_ [_ ->]]].
    eexists _, _, _. split; [reflexivity|simpl; auto]. }
  destruct (_naive_seasonal_forecast E y h) as [[r2 m2]|e2] eqn:E2.
  { apply naive_inv in E2. destruct E2 as [_ [-> _]].
    eexists _, _, _. split; [reflexivity|simpl; auto]. }
  destruct (_moving_avg_forecast E y h) as [[r3 m3]|e3] eqn:E3.
  { apply moving_avg_inv in E3. destruct E3 as [_ [-> _]].
    eexists _, _, _. split; [reflexivity|simpl; auto]. }
  unfold _synthetic_extension.
  destruct y as [|kv y]; [now elim Hne|]. simpl.
  eexists _, _, _. split; [reflexivity|simpl; auto].
Qed.

(** On records that all read, with a generator that returns, the cascade
    always ends in a result. *)
Lemma forecast_monthly_returns
    (E : Env) (disease region date_from date_to : string) (h : Z) :
  synthetic_generator_ok E date_from date_to ->
  exists res,
    forecast_monthly E disease region date_from date_to h = Ok res
    /\ history res <> []
    /\ In (method res) ["sarimax"; "naive_seasonal"; "moving_avg"; "synthetic"].
Proof.
  intros Hgen.
  destruct (@prepare_history_ok E disease region date_from date_to Hgen)
    as [y [prov [warn [Hprep Hne]]]].
  destruct (@select_forecast_total E y date_from h Hne)
    as [rows [m [ext [Hsel Hm]]]].
  unfold forecast_monthly. rewrite Hprep. simpl. rewrite Hsel. simpl.
  eexists. split; [reflexivity|]. simpl. split; [|exact Hm].
  destruct y; [now elim Hne|discriminate].
Qed.




(** ** The degradation floor *)

Lemma add_to_group_length (m : Z) (v : Q) (g : Monthly) :
  (List.length (add_to_group m v g) <= S (List.length g))%nat.
Proof.
  induction g as [|[k s] g IH]; simpl; [lia|].
  destruct (m <? k); simpl; [lia|]. destruct (m =? k); simpl; lia.
Qed.

Lemma fold_group_length (rows : list (Timestamp * Q)) (acc : Monthly) :
  (List.length (fold_left group_step rows acc)
   <= List.length acc + List.length rows)%nat.
Proof.
  revert acc. induction rows as [|r rows IH]; intros acc; simpl; [lia|].
  specialize (IH (group_step acc r)).
  pose proof (add_to_group_length (ts_month (fst r)) (snd r) acc).
  unfold group_step in *. lia.
Qed.

Lemma dropna_length (l : list Obs) :
  (List.length (dropna l) <= List.length l)%nat.
Proof.
  induction l as [|o l IH]; simpl; [lia|].
  destruct (obs_value o); simpl; lia.
Qed.

(** Fewer than 28 observations never normalize to more months than there
    are observations. *)
Lemma to_monthly_df_short (l : list Obs) :
  (List.length l < 28)%nat ->
  (List.length (_to_monthly_df l) <= List.length l)%nat.
Proof.
  intros Hl. unfold _to_monthly_df. destruct l as [|o l]; [simpl; lia|].
  set (rows := dropna (o :: l)).
  pose proof (dropna_length (o :: l)) as Hd. fold rows in Hd.
  pose proof (Permutation_length (sort_values_perm rows)) as Hs.
  replace (is_daily (sort_values rows)) with false.
  - unfold groupby_month_sum.
    change (fun g r => add_to_group (ts_month (fst r)) (snd r) g)
      with group_step.
    pose proof (fold_group_length (sort_values rows) []) as Hf.
    simpl in Hf. lia.
  - symmetry. unfold is_daily. apply andb_false_iff. left.
    apply Nat.leb_gt. lia.
Qed.

Lemma baseline_has_finite_obs (l : list Obs) :
  List.length l = 12%nat -> Forall (fun o => obs_value o <> NaN) l ->
  has_finite_obs l.
Proof.
  intros Hl Hall. destruct l as [|o l]; [discriminate|].
  inversion Hall as [|? ? Ho _]; subst.
  destruct (obs_value o) as [q|] eqn:Ev; [|now elim Ho].
  exists o, q. split; [now left|exact Ev].
Qed.

Lemma sarimax_short (E : Env) (y : Monthly) (h : Z) :
  (List.length y < 24)%nat -> is_ok (_sarimax_forecast E y h) = false.
Proof.
  intros Hl. unfold _sarimax_forecast.
  destruct (_HAS_SM E); simpl; [|reflexivity].
  replace (List.length y <? 24)%nat with true
    by (symmetry; now apply Nat.ltb_lt).
  reflexivity.
Qed.

Lemma naive_raises (E : Env) (y : Monthly) (h : Z) :
  is_ok (_naive_seasonal_forecast E y h) = false <-> (List.length y < 12)%nat.
Proof.
  unfold _naive_seasonal_forecast.
  destruct (List.length y <? 12)%nat eqn:Hl; simpl.
  - apply Nat.ltb_lt in Hl. tauto.
  - apply Nat.ltb_ge in Hl. split; [discriminate|lia].
Qed.

Lemma moving_avg_raises (E : Env) (y : Monthly) (h : Z) :
  is_ok (_moving_avg_forecast E y h) = false <-> (List.length y < 2)%nat.
Proof.
  unfold _moving_avg_forecast.
  destruct (List.length y <? 2)%nat eqn:Hl; simpl.
  - apply Nat.ltb_lt in Hl. tauto.
  - apply Nat.ltb_ge in Hl. split; [discriminate|lia].
Qed.

Lemma with_band_length (idx : list Timestamp) (means : list Q) (band : pyfloat) :
  List.length idx = List.length means ->
  List.length (with_band idx means band) = List.length idx.
Proof.
  intros H. rewrite <- (with_band_dates idx means band H) at 2.
  now rewrite length_map.
Qed.

(** Below 24 months the method is decided by the length of the history. *)
Lemma selected_short (E : Env) (y : Monthly) (date_from : string) (h : Z)
    (rows : list FRow) (m : string) (ext : bool) :
  (List.length y < 24)%nat ->
  selected E y date_from h rows m ext ->
  List.length rows = Z.to_nat h
  /\ ((12 <= List.length y)%nat /\ m = "naive_seasonal" /\ ext = false
      \/ (2 <= List.length y < 12)%nat /\ m = "moving_avg" /\ ext = false
      \/ (List.length y < 2)%nat /\ m = "synthetic" /\ ext = true).
Proof.
  intros Hl Hsel.
  destruct Hsel as [H1|_ H2|_ N2 H3|_ N2 N3 H4].
  - apply sarimax_inv in H1. lia.
  - apply naive_inv in H2.
    destruct H2 as [Hn [-> [means [band [Hm [_ ->]]]]]]. split.
    + rewrite with_band_length; rewrite future_index_length; auto.
    + left. auto.
  - apply naive_raises in N2. apply moving_avg_inv in H3.
    destruct H3 as [Hn [-> [means [band [Hm [_ ->]]]]]]. split.
    + rewrite with_band_length; rewrite future_index_length; auto.
    + right. left. auto.
  - apply moving_avg_raises in N3. apply synthetic_inv in H4.
    destruct H4 as [-> [start [means [base [_ [Hm ->]]]]]]. split.
    + rewrite with_band_length; rewrite future_index_length; auto.
    + right. right. auto.
Qed.

(** C4, as stated, fails: with a live and a local adapter that return no
    data, the 12-month synthetic baseline is forecast by the seasonal-naive
    strategy, so the method is not "synthetic"; and the one warning is about
    the missing live and local data, not about an empty history. *)
Lemma degradation_floor_method_not_synthetic :
  (forall region, Mock.no_data region = Ok [])
  /\ exists res,
       forecast_monthly env_no_data
         "dengue" "Sri Lanka" "2021-01-01" "2021-12-31" 6 = Ok res
       /\ method res = "naive_seasonal"
       /\ method res <> "synthetic"
       /\ List.length (forecast res) = 6%nat
       /\ provenance res = [P_SYNTH_FLAT]
       /\ warnings res = [W_NO_DATA].
Proof.
  split; [reflexivity|].
  destruct (forecast_monthly env_no_data
              "dengue" "Sri Lanka" "2021-01-01" "2021-12-31" 6)
    as [res|e] eqn:Er; [|vm_compute in Er; discriminate].
  vm_compute in Er. injection Er as <-.
  eexists. split; [reflexivity|].
  repeat split; try reflexivity. discriminate.
Qed.

Lemma live_stage_no_data (E : Env) (disease_l region date_from date_to : string) :
  (forall r a b, fetch_covid_timeseries E r a b = Ok []) ->
  live_stage E disease_l region date_from date_to = ([], []).
Proof.
  intros H. unfold live_stage. rewrite H.
  destruct (contains "covid" disease_l); reflexivity.
Qed.

(** C4, amended.  With a live and a local adapter that return no data, for
    any disease, region and dates, [forecast_monthly(..., horizon_months=6)]
    returns a result with exactly 6 forecast points, whose provenance is the
    synthetic baseline and whose warnings start with the one about the
    missing live and local data.  The method is the strategy that forecast
    the baseline: "naive_seasonal" when it normalizes to 12 months,
    "moving_avg" for 2 to 11 months, and "synthetic", with a second warning,
    only when it normalizes to a single month. *)
Theorem degradation_floor
    (E : Env) (disease region date_from date_to : string) :
  (forall r a b, fetch_covid_timeseries E r a b = Ok []) ->
  (forall d r a b, fetch_local_timeseries E d r a b = Ok []) ->
  synthetic_baseline_ok E ->
  exists res,
    forecast_monthly E disease region date_from date_to 6 = Ok res
    /\ List.length (forecast res) = 6%nat
    /\ provenance res = [P_SYNTH_FLAT]
    /\ ((List.length (history res) = 12%nat
         /\ method res = "naive_seasonal" /\ warnings res = [W_NO_DATA])
        \/ ((2 <= List.length (history res) < 12)%nat
            /\ method res = "moving_avg" /\ warnings res = [W_NO_DATA])
        \/ (List.length (history res) = 1%nat
            /\ method res = "synthetic"
            /\ warnings res = [W_NO_DATA; W_EXTENSION])).
Proof.
  intros Hlive Hlocal Hgen.
  destruct (Hgen date_from date_to None) as [l [Hl [Hlen Hfin]]].
  set (y := _to_monthly_df l).
  assert (Hne : y <> [])
    by (apply to_monthly_df_nonempty, baseline_has_finite_obs; assumption).
  assert (Hy : (List.length y <= 12)%nat).
  { rewrite <- Hlen. apply to_monthly_df_short. lia. }
  assert (Hhist : get_monthly_history E disease region date_from date_to
                  = Ok (y, [P_SYNTH_FLAT], [W_NO_DATA])).
  { rewrite get_monthly_history_eq.
    rewrite (live_stage_no_data E _ region date_from date_to Hlive).
    simpl fst. simpl snd. simpl unusable.
    replace (local_stage E (strip (lower disease)) date_from date_to
               (tried_regions E region)) with (@None (list Obs * string)).
    - unfold synthetic_stage. rewrite Hl. reflexivity.
    - symmetry. apply local_stage_none. intros k _.
      unfold fetch_local. now rewrite Hlocal. }
  assert (Hprep : prepare_history E disease region date_from date_to
                  = Ok (y, [P_SYNTH_FLAT], [W_NO_DATA])).
  { unfold prepare_history. rewrite Hhist. simpl.
    destruct y; [now elim Hne|reflexivity]. }
  destruct (@select_forecast_total E y date_from 6 Hne)
    as [rows [m [ext [Hsel _]]]].
  pose proof Hsel as Hcase. apply select_forecast_inv in Hcase.
  apply selected_short in Hcase; [|lia].
  destruct Hcase as [Hrows Hcase].
  unfold forecast_monthly. rewrite Hprep. simpl. rewrite Hsel. simpl.
  eexists. split; [reflexivity|]. simpl.
  split; [rewrite length_map; exact Hrows|]. split; [reflexivity|].
  unfold format_history. rewrite length_map.
  destruct Hcase as [[H1 [-> ->]]|[[H1 [-> ->]]|[H1 [-> ->]]]].
  - left. split; [lia|auto].
  - right. left. auto.
  - right. right. split; [|auto].
    destruct y; [now elim Hne|simpl in *; lia].
Qed.

Lemma spec_synthetic_baseline_ok (live local : string -> result (list Obs))
    (has_sm : bool) (fit : Monthly -> Z -> result (list FRow)) :
  synthetic_baseline_ok (Mock.env live local has_sm fit).
Proof.
  intros date_from date_to w. simpl. unfold Mock.spec_synthetic.
  eexists. split; [reflexivity|]. split; [reflexivity|].
  apply Forall_forall. intros o Ho. apply in_map_iff in Ho.
  destruct Ho as [k [<- _]]. discriminate.
Qed.

Lemma degradation_floor_witness :
  exists res,
    forecast_monthly env_no_data
      "malaria" "Atlantis" "2021-01-01" "2021-12-31" 6 = Ok res
    /\ List.length (forecast res) = 6%nat
    /\ provenance res = [P_SYNTH_FLAT]
    /\ ((List.length (history res) = 12%nat
         /\ method res = "naive_seasonal" /\ warnings res = [W_NO_DATA])
        \/ ((2 <= List.length (history res) < 12)%nat
            /\ method res = "moving_avg" /\ warnings res = [W_NO_DATA])
        \/ (List.length (history res) = 1%nat
            /\ method res = "synthetic"
            /\ warnings res = [W_NO_DATA; W_EXTENSION])).
Proof.
  apply (@degradation_floor env_no_data
           "malaria" "Atlantis" "2021-01-01" "2021-12-31").
  - reflexivity.
  - reflexivity.
  - apply spec_synthetic_baseline_ok.
Defined.

(** * Further properties of the code *)

(** ** [_is_flat] *)

Lemma py_max_finite (qs : list Q) (q0 : Q) :
  exists M, py_max (Num q0) (map Num qs) = Num M
            /\ In M (q0 :: qs) /\ forall x, In x (q0 :: qs) -> (x <= M)%Q.
Proof.
  unfold py_max. revert q0. induction qs as [|x qs IH]; intros q0.
  - exists q0. simpl. split; [reflexivity|]. split; [now left|].
    intros y [<-|[]]. apply Qle_refl.
  - cbn [map fold_left]. unfold fgt at 2, flt.
    destruct (Qltb q0 x) eqn:Hlt.
    + destruct (IH x) as [M [HM [Hin Hmax]]]. exists M.
      split; [exact HM|]. split; [now right|].
      apply Qltb_lt in Hlt. intros y [<-|Hy].
      * pose proof (Hmax x (or_introl eq_refl)). lra.
      * now apply Hmax.
    + destruct (IH q0) as [M [HM [Hin Hmax]]]. exists M.
      split; [exact HM|]. split.
      * destruct Hin as [<-|Hin]; [now left|now right; right].
      * apply Qltb_ge in Hlt. intros y [<-|[<-|Hy]].
        -- now apply Hmax; left.
        -- pose proof (Hmax q0 (or_introl eq_refl)). lra.
        -- now apply Hmax; right.
Qed.

Lemma py_min_finite (qs : list Q) (q0 : Q) :
  exists m, py_min (Num q0) (map Num qs) = Num m
            /\ In m (q0 :: qs) /\ forall x, In x (q0 :: qs) -> (m <= x)%Q.
Proof.
  unfold py_min. revert q0. induction qs as [|x qs IH]; intros q0.
  - exists q0. simpl. split; [reflexivity|]. split; [now left|].
    intros y [<-|[]]. apply Qle_refl.
  - cbn [map fold_left]. unfold flt at 2.
    destruct (Qltb x q0) eqn:Hlt.
    + destruct (IH x) as [m [Hm [Hin Hmin]]]. exists m.
      split; [exact Hm|]. split; [now right|].
      apply Qltb_lt in Hlt. intros y [<-|Hy].
      * pose proof (Hmin x (or_introl eq_refl)). lra.
      * now apply Hmin.
    + destruct (IH q0) as [m [Hm [Hin Hmin]]]. exists m.
      split; [exact Hm|]. split.
      * destruct Hin as [<-|Hin]; [now left|now right; right].
      * apply Qltb_ge in Hlt. intros y [<-|[<-|Hy]].
        -- now apply Hmin; left.
        -- pose proof (Hmin q0 (or_introl eq_refl)). lra.
        -- now apply Hmin; right.
Qed.

(** X1.  On values that are all numbers, [_is_flat] answers true on fewer
    than two values, and on two or more exactly when every two of them differ
    by less than 1e-9. *)
Theorem is_flat_finite (qs : list Q) :
  ((List.length qs < 2)%nat -> _is_flat (map Num qs) = true)
  /\ ((2 <= List.length qs)%nat ->
      (_is_flat (map Num qs) = true <->
       forall a b, In a qs -> In b qs -> (a - b < epsilon)%Q)).
Proof.
  split.
  - intros H. destruct qs as [|a [|b qs]]; simpl in *; try reflexivity; lia.
  - intros H. destruct qs as [|q0 qs]; [simpl in H; lia|].
    destruct qs as [|q1 qs]; [simpl in H; lia|].
    unfold _is_flat. cbn [map].
    replace (List.length (Num q0 :: Num q1 :: map Num qs) <? 2)%nat with false
      by (symmetry; apply Nat.ltb_ge; simpl; lia).
    change (Num q1 :: map Num qs) with (map Num (q1 :: qs)).
    destruct (py_max_finite (q1 :: qs) q0) as [M [-> [HMin HM]]].
    destruct (py_min_finite (q1 :: qs) q0) as [m [-> [Hmin Hm]]].
    simpl fsub. unfold flt. rewrite Qltb_lt. split.
    + intros Hd a b Ha Hb.
      pose proof (HM a Ha). pose proof (Hm b Hb). lra.
    + intros Hall. now apply Hall.
Qed.

(** ** [_region_candidates] *)

Lemma str_mem_In (x : string) (l : list string) :
  str_mem x l = true <-> In x l.
Proof.
  unfold str_mem. rewrite existsb_exists. split.
  - intros [y [Hy Heq]]. apply String.eqb_eq in Heq. now subst.
  - intros H. exists x. split; [exact H|apply String.eqb_refl].
Qed.

Lemma uniq_from_In (cands seen : list string) (x : string) :
  In x (uniq_from seen cands) <-> In x cands /\ ~ In x seen.
Proof.
  revert seen. induction cands as [|c cands IH]; intros seen; simpl.
  - tauto.
  - destruct (str_mem c seen) eqn:Hm.
    + apply str_mem_In in Hm. rewrite IH. split.
      * intros [H1 H2]. auto.
      * intros [[<-|H1] H2]; [contradiction|auto].
    + assert (Hn : ~ In c seen)
        by (intros H; apply str_mem_In in H; congruence).
      simpl. rewrite IH. simpl. split.
      * intros [<-|[H1 H2]]; [auto|]. split; [auto|]. intros H. apply H2. auto.
      * intros [[<-|H1] H2]; [auto|].
        destruct (string_dec c x) as [<-|Hne]; [auto|]. right.
        split; [exact H1|]. intros [E|H]; [contradiction|contradiction].
Qed.

Lemma uniq_from_NoDup (cands seen : list string) : NoDup (uniq_from seen cands).
Proof.
  revert seen. induction cands as [|c cands IH]; intros seen; simpl.
  - constructor.
  - destruct (str_mem c seen); [apply IH|].
    constructor; [|apply IH].
    intros H. apply uniq_from_In in H. destruct H as [_ H]. apply H. now left.
Qed.

Lemma uniq_from_length (cands seen : list string) :
  (List.length (uniq_from seen cands) <= List.length cands)%nat.
Proof.
  revert seen. induction cands as [|c cands IH]; intros seen; simpl; [lia|].
  destruct (str_mem c seen); simpl.
  - specialize (IH seen). lia.
  - specialize (IH (c :: seen)). lia.
Qed.

Lemma upper_nonempty (s : string) : s <> EmptyString -> upper s <> EmptyString.
Proof. destruct s; [congruence|discriminate]. Qed.

(** The candidates before the closing loop removes repetitions. *)
Lemma region_candidates_raw (E : Env) (region : string) :
  strip region <> EmptyString ->
  exists rest,
    _region_candidates E region = uniq_from [] (strip region :: rest)
    /\ (List.length rest <= 3)%nat
    /\ Forall (fun c => c <> EmptyString) rest.
Proof.
  intros Hs. unfold _region_candidates.
  destruct (strip region =? EmptyString)%string eqn:He;
    [apply String.eqb_eq in He; contradiction|].
  set (s := strip region) in *.
  assert (Hup : upper s <> EmptyString) by now apply upper_nonempty.
  destruct (dict_get (lower s) _ALIAS_TO_ISO3) as [alias|];
    [destruct (alias =? EmptyString)%string eqn:Ha|];
    (destruct (to_iso3 E s) as [iso|e];
     [match goal with
      | |- context [negb (iso =? EmptyString)%string && ?b] =>
          destruct (iso =? EmptyString)%string eqn:Hi; destruct b; cbn [negb andb]
      end|]);
    (match goal with
     | |- context [if ?c && isalpha s then _ else _] =>
         destruct (c && isalpha s);
         [match goal with
          | |- context [if negb ?b then _ else _] => destruct b; cbn [negb]
          end|]
     end);
    cbn [app];
    eexists; (split; [reflexivity|]); (split; [simpl; lia|]);
    repeat constructor; auto;
    try (apply upper_nonempty; intros ->; discriminate);
    try (intros ->; discriminate).
Qed.

(** X2.  The candidate list of a region is empty exactly when the region is
    blank; otherwise it starts with the stripped region, has at most four
    keys, none of them empty, and no key twice. *)
Theorem region_candidates_shape (E : Env) (region : string) :
  (_region_candidates E region = [] <-> strip region = EmptyString)
  /\ (strip region <> EmptyString ->
      exists rest, _region_candidates E region = strip region :: rest)
  /\ NoDup (_region_candidates E region)
  /\ (List.length (_region_candidates E region) <= 4)%nat
  /\ Forall (fun c => c <> EmptyString) (_region_candidates E region).
Proof.
  destruct (string_dec (strip region) EmptyString) as [He|Hne].
  - assert (H0 : _region_candidates E region = []).
    { unfold _region_candidates. now rewrite He. }
    rewrite H0. repeat split; auto; try constructor; try contradiction.
  - destruct (region_candidates_raw E region Hne) as [rest [Hc [Hl Hf]]].
    rewrite Hc. cbn [uniq_from str_mem existsb].
    split; [split; [discriminate|contradiction]|].
    split; [intros _; eexists; reflexivity|].
    split; [constructor; [|apply uniq_from_NoDup]|].
    + intros H. apply uniq_from_In in H. destruct H as [_ H]. apply H. now left.
    + split.
      * pose proof (uniq_from_length rest [strip region]). simpl. lia.
      * constructor; [exact Hne|].
        apply Forall_forall. intros c Hin. apply uniq_from_In in Hin.
        rewrite Forall_forall in Hf. now apply Hf.
Qed.

Lemma alias_nonempty (k code : string) :
  dict_get k _ALIAS_TO_ISO3 = Some code -> (code =? EmptyString)%string = false.
Proof.
  unfold _ALIAS_TO_ISO3. cbn [dict_get].
  repeat (destruct (k =? _)%string; [intros H; injection H as <-; reflexivity|]).
  discriminate.
Qed.

Ltac candidate_cases E s :=
  repeat match goal with
    | |- context [match to_iso3 E s with Ok _ => _ | Raise _ => _ end] =>
        destruct (to_iso3 E s)
    | |- context [match dict_get ?k ?d with Some _ => _ | None => _ end] =>
        destruct (dict_get k d)
    | |- context [if ?c then _ else _] => destruct c eqn:?
    end.

(** X3.  Each rule of the region normalizer puts its key in the list: the
    ISO3 code of a known alias ("world", "usa", ... in any case, blanks
    around it ignored), the upper-cased answer of [to_iso3], and the
    upper-cased input when it is three letters.  A [to_iso3] that raises is
    treated like one that finds nothing. *)
Theorem region_candidates_keys (E : Env) (region : string) :
  strip region <> EmptyString ->
  (forall code, dict_get (lower (strip region)) _ALIAS_TO_ISO3 = Some code ->
                In code (_region_candidates E region))
  /\ (forall iso, to_iso3 E (strip region) = Ok iso -> iso <> EmptyString ->
                  In (upper iso) (_region_candidates E region))
  /\ (String.length (strip region) = 3%nat -> isalpha (strip region) = true ->
      In (upper (strip region)) (_region_candidates E region))
  /\ (forall e, to_iso3 E (strip region) = Raise e ->
                _region_candidates E region
                = _region_candidates
                    (with_to_iso3 E (fun _ => Ok EmptyString)) region).
Proof.
  intros Hs.
  assert (He : (strip region =? EmptyString)%string = false)
    by now apply String.eqb_neq.
  unfold _region_candidates. rewrite He.
  set (s := strip region) in *.
  split; [|split; [|split]].
  - intros code Hc. rewrite Hc, (alias_nonempty _ Hc).
    apply uniq_from_In. split; [|intros []].
    candidate_cases E s; rewrite ?in_app_iff; simpl; auto.
  - intros iso Hi Hne. rewrite Hi.
    replace (iso =? EmptyString)%string with false
      by (symmetry; now apply String.eqb_neq).
    cbn [negb andb].
    apply uniq_from_In. split; [|intros []].
    repeat match goal with
      | |- context [match dict_get ?k ?d with Some _ => _ | None => _ end] =>
          destruct (dict_get k d)
      | |- context [if ?c then _ else _] => destruct c eqn:?
      end;
      repeat match goal with
        | H : negb _ = false |- _ => apply negb_false_iff in H
        | H : str_mem _ _ = true |- _ => apply str_mem_In in H
        end;
      rewrite ?in_app_iff; simpl; auto;
      rewrite ?in_app_iff in *; simpl in *; tauto.
  - intros Hl Ha. apply Nat.eqb_eq in Hl. rewrite Hl, Ha. cbn [andb].
    apply uniq_from_In. split; [|intros []].
    candidate_cases E s;
      repeat match goal with
        | H : negb _ = false |- _ => apply negb_false_iff in H
        | H : str_mem _ _ = true |- _ => apply str_mem_In in H
        end;
      rewrite ?in_app_iff; simpl; auto;
      rewrite ?in_app_iff in *; simpl in *; tauto.
  - intros e Hr. rewrite Hr. cbn [with_to_iso3 to_iso3].
    rewrite String.eqb_refl. reflexivity.
Qed.

Lemma region_candidates_keys_witness :
  In "WLD" (_region_candidates env_no_data "  Global ")
  /\ In "LKA" (_region_candidates env_no_data "Sri Lanka")
  /\ In "IND" (_region_candidates env_no_data "ind").
Proof.
  split; [|split].
  - apply (proj1 (@region_candidates_keys env_no_data "  Global "
                    ltac:(vm_compute; discriminate))).
    reflexivity.
  - apply (proj1 (proj2 (@region_candidates_keys env_no_data "Sri Lanka"
                           ltac:(vm_compute; discriminate))) "LKA").
    + reflexivity.
    + discriminate.
  - apply (proj1 (proj2 (proj2 (@region_candidates_keys env_no_data "ind"
                                  ltac:(vm_compute; discriminate)))));
      reflexivity.
Defined.

(** ** The resolver's stages *)

Lemma live_stage_trail (E : Env) (disease_l region date_from date_to : string) :
  let st := live_stage E disease_l region date_from date_to in
  (fst st = [] /\ snd st = []) \/ (fst st <> [] /\ snd st = [P_LIVE]).
Proof.
  unfold live_stage.
  destruct (contains "covid" disease_l); [|now left].
  destruct (fetch_covid_timeseries E region date_from date_to) as [[|o s]|e];
    simpl; [now left|right|now left].
  split; [discriminate|reflexivity].
Qed.

(** X4.  The live adapter is consulted only for a disease whose name,
    lower-cased, contains "covid": for any other disease the resolver and the
    forecast are the same whatever the live adapter is. *)
Theorem live_adapter_only_for_covid
    (E : Env) (disease region date_from date_to : string) (h : Z)
    (live : string -> string -> string -> result (list Obs)) :
  contains "covid" (strip (lower disease)) = false ->
  get_monthly_history (with_live E live) disease region date_from date_to
  = get_monthly_history E disease region date_from date_to
  /\ forecast_monthly (with_live E live) disease region date_from date_to h
     = forecast_monthly E disease region date_from date_to h.
Proof.
  intros Hc.
  assert (Hg : get_monthly_history (with_live E live) disease region
                 date_from date_to
               = get_monthly_history E disease region date_from date_to).
  { unfold get_monthly_history.
    replace (live_stage (with_live E live) (strip (lower disease)) region
               date_from date_to)
      with (live_stage E (strip (lower disease)) region date_from date_to)
      by (unfold live_stage; now rewrite Hc).
    reflexivity. }
  split; [exact Hg|].
  unfold forecast_monthly, prepare_history. rewrite Hg. reflexivity.
Qed.

Lemma live_adapter_only_for_covid_witness :
  forecast_monthly (with_live env_flat_only (fun r _ _ => live_year r))
    "Dengue" "Sri Lanka" "2021-01-01" "2021-12-31" 3
  = forecast_monthly env_flat_only
      "Dengue" "Sri Lanka" "2021-01-01" "2021-12-31" 3.
Proof.
  apply (@live_adapter_only_for_covid env_flat_only
           "Dengue" "Sri Lanka" "2021-01-01" "2021-12-31" 3).
  reflexivity.
Defined.

(** X5.  For a covid disease (in any case) whose live series is usable --
    at least two observations, not flat -- the resolver returns that series
    normalized, the single provenance entry "live: ..." and no warning; the
    local adapter and the synthetic generator play no part. *)
Theorem usable_live_series_wins
    (E : Env) (disease region date_from date_to : string) (series : list Obs) :
  contains "covid" (strip (lower disease)) = true ->
  fetch_covid_timeseries E region date_from date_to = Ok series ->
  unusable series = false ->
  get_monthly_history E disease region date_from date_to
  = Ok (_to_monthly_df series, [P_LIVE], []).
Proof.
  intros Hc Hf Hu. rewrite get_monthly_history_eq.
  unfold live_stage. rewrite Hc, Hf. cbn [fst snd]. rewrite Hu.
  destruct series; [discriminate Hu|reflexivity].
Qed.

Lemma usable_live_series_wins_witness :
  get_monthly_history env_live_year
    "COVID-19" "Sri Lanka" "2021-01-01" "2021-12-31"
  = Ok (_to_monthly_df varied_year, [P_LIVE], []).
Proof.
  apply (@usable_live_series_wins env_live_year
           "COVID-19" "Sri Lanka" "2021-01-01" "2021-12-31" varied_year);
    reflexivity.
Defined.

(** X6.  The provenance trail the resolver returns is never empty and holds,
    in this order, at most one "live" entry, at most one "local" entry (for
    one of the keys tried) and at most one "synthetic" entry; the warnings
    are none or the single one about missing data, and that one only when no
    local entry was made and the synthetic stage ran. *)
Theorem provenance_trail_shape
    (E : Env) (disease region date_from date_to : string)
    (h : Monthly) (prov warn : list string) :
  get_monthly_history E disease region date_from date_to = Ok (h, prov, warn) ->
  exists live_e local_e synth_e,
    prov = live_e ++ local_e ++ synth_e
    /\ (live_e = [] \/ live_e = [P_LIVE])
    /\ (local_e = []
        \/ exists r, In r (tried_regions E region)
                     /\ local_e = [local_provenance r])
    /\ (synth_e = [] \/ synth_e = [P_SYNTH_FLAT])
    /\ prov <> []
    /\ (warn = []
        \/ (warn = [W_NO_DATA] /\ local_e = [] /\ synth_e = [P_SYNTH_FLAT])).
Proof.
  rewrite get_monthly_history_eq.
  pose proof (live_stage_trail E (strip (lower disease)) region
                date_from date_to) as Hl.
  cbv zeta in Hl.
  destruct (live_stage E (strip (lower disease)) region date_from date_to)
    as [ls lp]. cbn [fst snd] in *.
  assert (Hlp : lp = [] \/ lp = [P_LIVE]) by tauto.
  destruct (unusable ls) eqn:Hu.
  - destruct (local_stage E (strip (lower disease)) date_from date_to
                (tried_regions E region)) as [[s p]|] eqn:Hs.
    + apply local_stage_some in Hs.
      destruct Hs as [pre [r [post [Hc [_ [_ [_ ->]]]]]]].
      assert (Hr : In r (tried_regions E region))
        by (rewrite Hc; apply in_or_app; right; now left).
      unfold synthetic_stage.
      destruct (unusable s).
      * destruct (generate_synthetic_timeseries E date_from date_to None 12 100);
          simpl; [|discriminate].
        intros H. injection H as _ <- <-.
        exists lp, [local_provenance r], [P_SYNTH_FLAT].
        split; [now rewrite <- app_assoc|]. split; [exact Hlp|].
        split; [right; eauto|]. split; [now right|].
        split; [|now left].
        intros H. apply app_eq_nil in H. destruct H; discriminate.
      * intros H. injection H as _ <- <-.
        exists lp, [local_provenance r], [].
        split; [now rewrite app_nil_r|]. split; [exact Hlp|].
        split; [right; eauto|]. split; [now left|].
        split; [|now left].
        intros H. apply app_eq_nil in H. destruct H; discriminate.
    + unfold synthetic_stage.
      destruct (generate_synthetic_timeseries E date_from date_to None 12 100);
        simpl; [|discriminate].
      intros H. injection H as _ <- <-.
      exists lp, [], [P_SYNTH_FLAT].
      split; [reflexivity|]. split; [exact Hlp|].
      split; [now left|]. split; [now right|].
      split; [|right; auto].
      intros H. apply app_eq_nil in H. destruct H; discriminate.
  - intros H. injection H as _ <- <-.
    destruct Hl as [[-> _]|[_ ->]]; [discriminate Hu|].
    exists [P_LIVE], [], []. repeat split; auto; discriminate.
Qed.

Lemma provenance_trail_shape_witness :
  exists h prov warn,
    get_monthly_history env_flat_only
      "dengue" "Sri Lanka" "2021-01-01" "2021-12-31" = Ok (h, prov, warn)
    /\ exists live_e local_e synth_e,
         prov = live_e ++ local_e ++ synth_e
         /\ (live_e = [] \/ live_e = [P_LIVE])
         /\ (local_e = []
             \/ exists r, In r (tried_regions env_flat_only "Sri Lanka")
                          /\ local_e = [local_provenance r])
         /\ (synth_e = [] \/ synth_e = [P_SYNTH_FLAT])
         /\ prov <> []
         /\ (warn = []
             \/ (warn = [W_NO_DATA] /\ local_e = []
                 /\ synth_e = [P_SYNTH_FLAT])).
Proof.
  destruct (get_monthly_history env_flat_only
              "dengue" "Sri Lanka" "2021-01-01" "2021-12-31")
    as [[[h prov] warn]|e] eqn:Eg; [|vm_compute in Eg; discriminate].
  exists h, prov, warn. split; [reflexivity|].
  exact (@provenance_trail_shape env_flat_only
           "dengue" "Sri Lanka" "2021-01-01" "2021-12-31" h prov warn Eg).
Defined.

(** ** What [forecast_monthly] lets through *)

Lemma select_forecast_raises (E : Env) (S : Raw.Sources) (y : Monthly)
    (date_from : string) (h : Z) (e : string) :
  Raw.select_forecast E S y date_from h = Raise e ->
  y = [] /\ pd_Timestamp E date_from = Raise e.
Proof.
  unfold Raw.select_forecast.
  destruct (Raw._sarimax_forecast E S y h) as [[r0 m0]|e0]; [discriminate|].
  destruct (_naive_seasonal_forecast E y h) as [[r1 m1]|e1]; [discriminate|].
  destruct (_moving_avg_forecast E y h) as [[r2 m2]|e2]; [discriminate|].
  unfold _synthetic_extension. destruct y as [|kv y]; simpl; [|discriminate].
  destruct (pd_Timestamp E date_from) as [t|e3]; simpl; [discriminate|].
  intros H. injection H as <-. auto.
Qed.

Lemma unusable_raises (S : Raw.Sources) (s : list Raw.Rec) (e : string) :
  Raw.unusable s = Raise e ->
  exists x, In x s /\ Raw.unreadable S x e.
Proof.
  unfold Raw.unusable. destruct s as [|x0 s]; [discriminate|].
  destruct (List.length (x0 :: s) <? 2)%nat; [discriminate|].
  unfold Raw.values_of.
  destruct (Raw.each Raw.float_ (map Raw.rec_value (x0 :: s))) as [vs|e0] eqn:Ev;
    simpl; [discriminate|].
  intros H. injection H as <-.
  apply each_raises in Ev. destruct Ev as [v [Hv Hf]].
  apply in_map_iff in Hv. destruct Hv as [x [<- Hx]].
  exists x. split; [exact Hx|now left].
Qed.

Lemma to_monthly_df_raises (S : Raw.Sources) (s : list Raw.Rec) (e : string) :
  Raw._to_monthly_df S s = Raise e ->
  exists x, In x s /\ Raw.unreadable S x e.
Proof.
  unfold Raw._to_monthly_df. destruct s as [|x0 s]; [discriminate|].
  destruct (Raw.each (Raw.to_datetime S) (map Raw.rec_date (x0 :: s)))
    as [ds|e0] eqn:Ed; simpl; [discriminate|].
  intros H. injection H as <-.
  apply each_raises in Ed. destruct Ed as [d [Hd Hf]].
  apply in_map_iff in Hd. destruct Hd as [x [<- Hx]].
  exists x. split; [exact Hx|now right].
Qed.

Section LetThrough.

Variable E : Env.
Variable S : Raw.Sources.
Variables disease region date_from date_to : string.

Let disease_l : string := strip (lower disease).
Let delivered := Raw.delivered E S disease region date_from date_to.

(** The exception comes from the generator or from reading a record that a
    source delivered. *)
Let origin (e : string) : Prop :=
  (exists w, Raw.generator S date_from date_to w 12%nat 100 = Raise e)
  \/ exists x, delivered x /\ Raw.unreadable S x e.

Lemma origin_live (s : list Raw.Rec) (p : list string) (e : string) :
  Raw.live_stage S disease_l region date_from date_to = (s, p) ->
  (exists x, In x s /\ Raw.unreadable S x e) -> origin e.
Proof.
  intros El [x [Hx Hu]]. right. exists x. split; [|exact Hu].
  exists s. split; [exact Hx|]. left.
  destruct (@live_stage_delivered S disease region date_from date_to) as [H|H];
    fold disease_l in H; rewrite El in H; cbn [fst] in H.
  - subst s. destruct Hx.
  - exact H.
Qed.

Lemma origin_local (s : list Raw.Rec) (p : string) (e : string) :
  Raw.local_stage S disease_l date_from date_to (tried_regions E region)
  = Some (s, p) ->
  (exists x, In x s /\ Raw.unreadable S x e) -> origin e.
Proof.
  intros El [x [Hx Hu]]. right. exists x. split; [|exact Hu].
  exists s. split; [exact Hx|]. right. left.
  exact (@local_stage_delivered S disease date_from date_to _ _ _ El).
Qed.

Lemma origin_generator (w : option string) (prov warn : list string)
    (e : string) :
  (do synth <- Raw.generator S date_from date_to w 12%nat 100;
   do monthly <- Raw._to_monthly_df S synth;
   Ok (monthly, prov, warn)) = Raise e ->
  origin e.
Proof.
  destruct (Raw.generator S date_from date_to w 12%nat 100) as [l|e0] eqn:Eg;
    cbn [bind].
  - destruct (Raw._to_monthly_df S l) as [m|e1] eqn:Em; cbn [bind];
      [discriminate|].
    intros H. injection H as <-.
    destruct (to_monthly_df_raises S l Em) as [x [Hx Hu]].
    right. exists x. split; [|exact Hu].
    exists l. split; [exact Hx|]. right. right. now exists w.
  - intros H. injection H as <-. left. now exists w.
Qed.

Lemma get_monthly_history_origin (e : string) :
  Raw.get_monthly_history E S disease region date_from date_to = Raise e ->
  origin e.
Proof.
  unfold Raw.get_monthly_history. fold disease_l.
  destruct (Raw.live_stage S disease_l region date_from date_to)
    as [s0 p0] eqn:El.
  destruct (Raw.unusable s0) as [flat0|e0] eqn:U0; cbn [bind].
  2:{ intros H. injection H as <-.
      exact (origin_live El (unusable_raises S s0 U0)). }
  assert (Hkeep : forall warn : list string,
            (do flat <- Raw.unusable s0;
             if flat : bool
             then do synth <- Raw.generator S date_from date_to None 12%nat 100;
                  do monthly <- Raw._to_monthly_df S synth;
                  Ok (monthly, (p0 ++ [P_SYNTH_FLAT])%list, warn)
             else do monthly <- Raw._to_monthly_df S s0;
                  Ok (monthly, p0, warn)) = Raise e ->
            origin e).
  { intros warn. rewrite U0. cbn [bind]. destruct flat0.
    - apply origin_generator.
    - destruct (Raw._to_monthly_df S s0) as [m|e1] eqn:Em; cbn [bind];
        [discriminate|].
      intros H. injection H as <-.
      exact (origin_live El (to_monthly_df_raises S s0 Em)). }
  destruct flat0; [|apply Hkeep].
  destruct (Raw.local_stage S disease_l date_from date_to (tried_regions E region))
    as [[s1 p1]|] eqn:Els; [|apply Hkeep].
  destruct (Raw.unusable s1) as [flat1|e1] eqn:U1; cbn [bind].
  2:{ intros H. injection H as <-.
      exact (origin_local Els (unusable_raises S s1 U1)). }
  destruct flat1; [apply origin_generator|].
  destruct (Raw._to_monthly_df S s1) as [m|e2] eqn:Em; cbn [bind];
    [discriminate|].
  intros H. injection H as <-.
  exact (origin_local Els (to_monthly_df_raises S s1 Em)).
Qed.

Lemma prepare_history_origin (e : string) :
  Raw.prepare_history E S disease region date_from date_to = Raise e ->
  origin e.
Proof.
  unfold Raw.prepare_history.
  destruct (Raw.get_monthly_history E S disease region date_from date_to)
    as [[[y prov] warn]|e0] eqn:Hg; cbn [bind].
  2:{ intros H. injection H as <-. now apply get_monthly_history_origin. }
  destruct y as [|kv y]; [apply origin_generator|discriminate].
Qed.

(** Rendering the rows of a selection raises only on a row the statistical
    model labelled by a position. *)
Lemma format_raises (y : Monthly) (h : Z) (rows : list Raw.SRow) (m : string)
    (ext : bool) (e : string) :
  Raw.select_forecast E S y date_from h = Ok (rows, m, ext) ->
  Raw.each Raw.format_point rows = Raise e ->
  Raw.undated_forecast S h e.
Proof.
  intros Hsel Hf. apply select_forecast_rows in Hsel.
  destruct Hsel as [Hfit|[rows' ->]].
  - apply each_raises in Hf. destruct Hf as [r [Hr He]].
    exists y, rows, r. auto.
  - rewrite format_point_dated in Hf. discriminate Hf.
Qed.

Lemma forecast_monthly_origin (h : Z) (e : string) :
  Raw.forecast_monthly E S disease region date_from date_to h = Raise e ->
  origin e \/ pd_Timestamp E date_from = Raise e
  \/ Raw.undated_forecast S h e.
Proof.
  unfold Raw.forecast_monthly.
  destruct (Raw.prepare_history E S disease region date_from date_to)
    as [[[y prov] warn]|e0] eqn:Hp; cbn [bind].
  2:{ intros H. injection H as <-. left. now apply prepare_history_origin. }
  destruct (Raw.select_forecast E S y date_from h)
    as [[[rows m] ext]|e1] eqn:Hsel; cbn [bind].
  - destruct (Raw.each Raw.format_point rows) as [ps|e2] eqn:Hf; cbn [bind];
      [discriminate|].
    intros H. injection H as <-. right. right.
    eapply format_raises; eassumption.
  - intros H. injection H as <-. right. left.
    apply select_forecast_raises in Hsel. exact (proj2 Hsel).
Qed.

End LetThrough.



(** ** The history and the method of a result *)

Lemma get_monthly_history_frame
    (E : Env) (disease region date_from date_to : string)
    (y : Monthly) (prov warn : list string) :
  get_monthly_history E disease region date_from date_to = Ok (y, prov, warn) ->
  (exists series, y = _to_monthly_df series)
  /\ (warn = [] \/ warn = [W_NO_DATA]).
Proof.
  rewrite get_monthly_history_eq. unfold synthetic_stage.
  destruct (unusable _).
  - destruct (local_stage _ _ _ _ _) as [[s p]|].
    + destruct (unusable s).
      * destruct (generate_synthetic_timeseries E date_from date_to None 12 100);
          simpl; [|discriminate].
        intros H. injection H as <- _ <-. eauto.
      * intros H. injection H as <- _ <-. eauto.
    + destruct (generate_synthetic_timeseries E date_from date_to None 12 100);
        simpl; [|discriminate].
      intros H. injection H as <- _ <-. eauto.
  - intros H. injection H as <- _ <-. eauto.
Qed.

Lemma prepare_history_frame
    (E : Env) (disease region date_from date_to : string)
    (y : Monthly) (prov warn : list string) :
  prepare_history E disease region date_from date_to = Ok (y, prov, warn) ->
  (exists series, y = _to_monthly_df series)
  /\ ~ In W_EXTENSION warn
  /\ (In W_EMPTY warn <->
      exists p w, get_monthly_history E disease region date_from date_to
                  = Ok ([], p, w)).
Proof.
  unfold prepare_history.
  destruct (get_monthly_history E disease region date_from date_to)
    as [[[y0 p0] w0]|e] eqn:Hg; simpl; [|discriminate].
  pose proof Hg as Hf. apply get_monthly_history_frame in Hf.
  destruct Hf as [Hy Hw].
  destruct y0 as [|kv y0].
  - destruct (generate_synthetic_timeseries E date_from date_to
                (weekly_increase_default E) 12 100); simpl; [|discriminate].
    intros H. injection H as <- _ <-.
    split; [eauto|]. split.
    + rewrite in_app_iff.
      destruct Hw as [->| ->]; simpl; unfold W_EXTENSION, W_EMPTY, W_NO_DATA;
        intros [H|H]; repeat (destruct H as [H|H]; try discriminate); auto.
    + split; [eauto|]. intros _. apply in_or_app. right. now left.
  - intros H. injection H as <- _ <-.
    split; [exact Hy|]. split.
    + destruct Hw as [->| ->]; simpl; unfold W_EXTENSION, W_NO_DATA;
        intros H; repeat (destruct H as [H|H]; try discriminate); auto.
    + split.
      * destruct Hw as [->| ->]; simpl; unfold W_EMPTY, W_NO_DATA;
          intros H; repeat (destruct H as [H|H]; try discriminate);
          contradiction.
      * intros [p [w H]]. discriminate.
Qed.

(** X8.  The method of a result tells how long its history is: "sarimax"
    needs statsmodels and at least 24 months, "naive_seasonal" at least 12,
    "moving_avg" is used from 2 to 11 months, and "synthetic" exactly when
    the history has fewer than 2 months; the warning about the synthetic
    extension is given exactly with the method "synthetic". *)
Theorem method_tells_history_length
    (E : Env) (disease region date_from date_to : string) (h : Z)
    (res : ForecastResult) :
  forecast_monthly E disease region date_from date_to h = Ok res ->
  let n := List.length (history res) in
  (method res = "sarimax" -> _HAS_SM E = true /\ (24 <= n)%nat)
  /\ (method res = "naive_seasonal" -> (12 <= n)%nat)
  /\ (method res = "moving_avg" -> (2 <= n < 12)%nat)
  /\ (method res = "synthetic" <-> (n < 2)%nat)
  /\ (In W_EXTENSION (warnings res) <-> method res = "synthetic").
Proof.
  intros Hres. apply forecast_monthly_inv in Hres.
  destruct Hres as [y [prov [warn [rows [m [ext [Hprep [Hsel ->]]]]]]]].
  cbn [history method warnings]. unfold format_history. rewrite length_map.
  apply prepare_history_frame in Hprep. destruct Hprep as [_ [Hnx _]].
  apply select_forecast_inv in Hsel.
  destruct Hsel as [H1|N1 H2|N1 N2 H3|N1 N2 N3 H4].
  - apply sarimax_inv in H1. destruct H1 as [Hsm [Hl [_ ->]]].
    repeat split; try discriminate; try lia; auto; try contradiction.
  - apply naive_inv in H2. destruct H2 as [Hl [-> _]].
    repeat split; try discriminate; try lia; auto; try contradiction.
  - apply naive_raises in N2. apply moving_avg_inv in H3.
    destruct H3 as [Hl [-> _]].
    repeat split; try discriminate; try lia; auto; try contradiction.
  - apply moving_avg_raises in N3. apply synthetic_inv in H4.
    destruct H4 as [-> _].
    repeat split; try discriminate; try lia; auto.
    intros _. apply in_or_app. right. now left.
Qed.

Lemma method_tells_history_length_witness :
  exists res,
    forecast_monthly env_falling "dengue" "Sri Lanka" "2021-01-01" "2021-03-31" 2
    = Ok res
    /\ method res = "moving_avg"
    /\ (2 <= List.length (history res) < 12)%nat
    /\ ~ In W_EXTENSION (warnings res).
Proof.
  destruct (forecast_monthly env_falling
              "dengue" "Sri Lanka" "2021-01-01" "2021-03-31" 2)
    as [res|e] eqn:Er; [|vm_compute in Er; discriminate].
  destruct (@method_tells_history_length env_falling
              "dengue" "Sri Lanka" "2021-01-01" "2021-03-31" 2 res Er)
    as [_ [_ [Hm [_ Hw]]]].
  assert (Hmeth : method res = "moving_avg")
    by (vm_compute in Er; injection Er as <-; reflexivity).
  exists res. split; [reflexivity|]. split; [exact Hmeth|].
  split; [exact (Hm Hmeth)|].
  intros H. apply Hw in H. rewrite Hmeth in H. discriminate.
Defined.

Lemma increasing_last_max (l : list Z) (d k : Z) :
  increasing l -> In k l -> k <= last l d.
Proof.
  intros Hs Hin. destruct l as [|k0 l]; [destruct Hin|].
  rewrite (last_nonempty k0 l d k0).
  now apply (increasing_bounds Hs Hin).
Qed.

(** X9.  The history of a result is in calendar order: month starts, each
    month later than the one before it, none twice.  And, the statistical
    model forecasting on the index it is asked for, every forecast date is a
    month start later than every month of the history. *)
Theorem history_ordered_forecast_after
    (E : Env) (disease region date_from date_to : string) (h : Z)
    (res : ForecastResult) :
  forecast_monthly E disease region date_from date_to h = Ok res ->
  increasing (map (fun dv => ts_month (fst dv)) (history res))
  /\ Forall (fun dv => ts_day (fst dv) = 1) (history res)
  /\ (sarimax_on_future_index E ->
      forall dv p, In dv (history res) -> In p (forecast res) ->
                   ts_day (fp_date p) = 1
                   /\ ts_month (fst dv) < ts_month (fp_date p)).
Proof.
  intros Hres. apply forecast_monthly_inv in Hres.
  destruct Hres as [y [prov [warn [rows [m [ext [Hprep [Hsel ->]]]]]]]].
  cbn [history forecast].
  apply prepare_history_frame in Hprep. destruct Hprep as [[series ->] _].
  set (y := _to_monthly_df series) in *.
  assert (Hinc : increasing (keys y)) by apply increasing_to_monthly_df.
  assert (Hk : map (fun dv => ts_month (fst dv)) (format_history y) = keys y).
  { unfold format_history, keys. rewrite map_map. reflexivity. }
  split; [now rewrite Hk|]. split.
  - unfold format_history. apply Forall_forall. intros dv Hdv.
    apply in_map_iff in Hdv. destruct Hdv as [kv [<- _]]. reflexivity.
  - intros Hsm dv p Hdv Hp.
    apply select_forecast_inv in Hsel.
    destruct (selected_dates (fun _ => Hsm) Hsel) as [start [Hstart Hdates]].
    assert (Hne : y <> []).
    { intros Hy. rewrite Hy in Hdv. destruct Hdv. }
    rewrite (forecast_start_nonempty E date_from Hne) in Hstart.
    injection Hstart as <-.
    assert (Hpd : In (fp_date p) (_make_future_month_index (last_index y) h)).
    { rewrite <- Hdates. apply in_map_iff in Hp. destruct Hp as [r [<- Hr]].
      cbn [format_point fp_date]. now apply in_map. }
    unfold _make_future_month_index in Hpd. apply in_map_iff in Hpd.
    destruct Hpd as [i [<- _]]. cbn [month_start ts_day ts_month last_index].
    split; [reflexivity|].
    assert (Hm : In (ts_month (fst dv)) (keys y)).
    { rewrite <- Hk.
      exact (in_map (fun x : Timestamp * Q => ts_month (fst x)) _ _ Hdv). }
    pose proof (@increasing_last_max (keys y) 0 _ Hinc Hm) as Hle.
    assert (Hl : last (keys y) 0 = last_month y 0).
    { unfold last_month, keys. exact (last_map fst y (0, 0%Q)). }
    lia.
Qed.

Lemma history_ordered_forecast_after_witness :
  exists res,
    forecast_monthly env_two_years
      "covid-19" "Sri Lanka" "2020-01-01" "2021-12-31" 3 = Ok res
    /\ forall dv p, In dv (history res) -> In p (forecast res) ->
                    ts_day (fp_date p) = 1
                    /\ ts_month (fst dv) < ts_month (fp_date p).
Proof.
  destruct (forecast_monthly env_two_years
              "covid-19" "Sri Lanka" "2020-01-01" "2021-12-31" 3)
    as [res|e] eqn:Er; [|vm_compute in Er; discriminate].
  exists res. split; [reflexivity|].
  apply (@history_ordered_forecast_after env_two_years
           "covid-19" "Sri Lanka" "2020-01-01" "2021-12-31" 3 res Er).
  apply flat_fit_on_future_index.
Defined.

(** ** The reported interval *)

Lemma clamp_monotone (a b : pyfloat) :
  fle a b -> fle (py_max2 (Num 0) a) (py_max2 (Num 0) b).
Proof.
  unfold py_max2, fgt. destruct a as [a|], b as [b|]; simpl; try tauto.
  intros H.
  destruct (Qltb 0 a) eqn:Ha, (Qltb 0 b) eqn:Hb; simpl;
    rewrite ?Qltb_lt, ?Qltb_ge in *; lra.
Qed.

(** X10.  With a square root that is not negative and a statistical model
    whose interval contains its mean, the reported lower bound never exceeds
    the reported upper bound, whatever the sign of the estimate. *)
Theorem reported_interval_ordered
    (E : Env) (disease region date_from date_to : string) (h : Z)
    (res : ForecastResult) (p : ForecastPoint) :
  sqrt_nonneg E -> sarimax_brackets E ->
  forecast_monthly E disease region date_from date_to h = Ok res ->
  In p (forecast res) ->
  fle (yhat_lower p) (yhat_upper p).
Proof.
  intros Hsq Hsm Hres Hin. apply forecast_monthly_inv in Hres.
  destruct Hres as [y [prov [warn [rows [m [ext [_ [Hsel ->]]]]]]]].
  cbn [forecast] in Hin. apply in_map_iff in Hin.
  destruct Hin as [r [<- Hr]].
  apply select_forecast_inv in Hsel.
  pose proof (selected_bracketed Hsq Hsm Hsel) as Hb.
  rewrite Forall_forall in Hb. specialize (Hb r Hr).
  cbn [format_point yhat_lower yhat_upper]. apply clamp_monotone.
  unfold bracketed in Hb.
  destruct (f_lo r), (f_mean r), (f_hi r); simpl in *; try tauto.
  lra.
Qed.

Lemma reported_interval_ordered_witness :
  exists res,
    forecast_monthly env_falling "dengue" "Sri Lanka" "2021-01-01" "2021-03-31" 2
    = Ok res
    /\ Forall (fun p => fle (yhat_lower p) (yhat_upper p)) (forecast res).
Proof.
  destruct (forecast_monthly env_falling
              "dengue" "Sri Lanka" "2021-01-01" "2021-03-31" 2)
    as [res|e] eqn:Er; [|vm_compute in Er; discriminate].
  exists res. split; [reflexivity|]. apply Forall_forall. intros p Hp.
  apply (@reported_interval_ordered env_falling
           "dengue" "Sri Lanka" "2021-01-01" "2021-03-31" 2 res p).
  - apply sqrt_rat_nonneg.
  - intros y steps rows H. discriminate H.
  - exact Er.
  - exact Hp.
Defined.

(** ** The empty history *)

Lemma provenance_entries
    (E : Env) (disease region date_from date_to : string)
    (y : Monthly) (prov warn : list string) :
  get_monthly_history E disease region date_from date_to = Ok (y, prov, warn) ->
  ~ In P_SYNTH_EMPTY prov.
Proof.
  rewrite get_monthly_history_eq. unfold synthetic_stage.
  pose proof (live_stage_trail E (strip (lower disease)) region
                date_from date_to) as Hl.
  cbv zeta in Hl.
  destruct (live_stage E (strip (lower disease)) region date_from date_to)
    as [ls lp]. cbn [fst snd] in *.
  assert (Hlp : ~ In P_SYNTH_EMPTY lp).
  { destruct Hl as [[_ ->]|[_ ->]]; simpl; unfold P_SYNTH_EMPTY, P_LIVE;
      intros H; repeat (destruct H as [H|H]; try discriminate); auto. }
  destruct (unusable ls).
  - destruct (local_stage _ _ _ _ _) as [[s p]|] eqn:Hs.
    + apply local_stage_some in Hs.
      destruct Hs as [pre [r [post [_ [_ [_ [_ ->]]]]]]].
      destruct (unusable s).
      * destruct (generate_synthetic_timeseries E date_from date_to None 12 100);
          simpl; [|discriminate].
        intros H. injection H as _ <- _. rewrite !in_app_iff. simpl.
        unfold P_SYNTH_EMPTY, P_SYNTH_FLAT, local_provenance in *.
        intros [[H|H]|H]; [now apply Hlp| |];
          repeat (destruct H as [H|H]; try discriminate); auto.
      * intros H. injection H as _ <- _. rewrite !in_app_iff. simpl.
        unfold P_SYNTH_EMPTY, local_provenance in *.
        intros [H|H]; [now apply Hlp|];
          repeat (destruct H as [H|H]; try discriminate); auto.
    + destruct (generate_synthetic_timeseries E date_from date_to None 12 100);
        simpl; [|discriminate].
      intros H. injection H as _ <- _. rewrite !in_app_iff. simpl.
      unfold P_SYNTH_EMPTY, P_SYNTH_FLAT in *.
      intros [H|H]; [now apply Hlp|];
        repeat (destruct H as [H|H]; try discriminate); auto.
  - intros H. injection H as _ <- _. exact Hlp.
Qed.

(** X11.  The result carries the warning "Empty history; ..." and the
    provenance entry "synthetic: ... (history empty)" exactly when the
    history the resolver returned was empty; this happens for a series that
    passes the usability test with values that are all [NaN]. *)
Theorem empty_history_warning
    (E : Env) (disease region date_from date_to : string) (h : Z)
    (res : ForecastResult) :
  forecast_monthly E disease region date_from date_to h = Ok res ->
  (In W_EMPTY (warnings res) <->
   exists p w, get_monthly_history E disease region date_from date_to
               = Ok ([], p, w))
  /\ (In P_SYNTH_EMPTY (provenance res) <-> In W_EMPTY (warnings res)).
Proof.
  intros Hres. apply forecast_monthly_inv in Hres.
  destruct Hres as [y [prov [warn [rows [m [ext [Hprep [_ ->]]]]]]]].
  cbn [warnings provenance].
  pose proof Hprep as Hf. apply prepare_history_frame in Hf.
  destruct Hf as [_ [_ Hw]].
  assert (Hext : In W_EMPTY (if ext then warn ++ [W_EXTENSION] else warn)
                 <-> In W_EMPTY warn).
  { destruct ext; [|tauto]. rewrite in_app_iff. simpl.
    unfold W_EMPTY, W_EXTENSION. split; [|tauto].
    intros [H|[H|[]]]; [exact H|discriminate]. }
  split; [now rewrite Hext|]. rewrite Hext, Hw.
  unfold prepare_history in Hprep.
  destruct (get_monthly_history E disease region date_from date_to)
    as [[[y0 p0] w0]|e] eqn:Hg; simpl in Hprep; [|discriminate].
  pose proof Hg as Hs. apply provenance_entries in Hs.
  destruct y0 as [|kv y0].
  - destruct (generate_synthetic_timeseries E date_from date_to
                (weekly_increase_default E) 12 100); simpl in Hprep;
      [|discriminate].
    injection Hprep as _ <- _. split; [eauto|].
    intros _. apply in_or_app. right. now left.
  - injection Hprep as _ <- _. split.
    + intros H. exfalso. now apply Hs.
    + intros [p [w H]]. discriminate.
Qed.

Lemma empty_history_warning_witness :
  unusable nan_pair = false
  /\ exists res,
       forecast_monthly env_live_nan
         "covid" "Sri Lanka" "2021-01-01" "2021-12-31" 3 = Ok res
       /\ In W_EMPTY (warnings res)
       /\ In P_SYNTH_EMPTY (provenance res).
Proof.
  split; [reflexivity|].
  destruct (forecast_monthly env_live_nan
              "covid" "Sri Lanka" "2021-01-01" "2021-12-31" 3)
    as [res|e] eqn:Er; [|vm_compute in Er; discriminate].
  exists res. split; [reflexivity|].
  destruct (@empty_history_warning env_live_nan
              "covid" "Sri Lanka" "2021-01-01" "2021-12-31" 3 res Er)
    as [Hw Hp].
  assert (H : In W_EMPTY (warnings res)).
  { apply Hw. exists [P_LIVE], []. reflexivity. }
  split; [exact H|now apply Hp].
Defined.

(** ** The normalizer as a function of the finite observations *)

Lemma lookup_some_in_keys (m : Z) (g : Monthly) :
  In m (keys g) -> exists s, lookup m g = Some s.
Proof.
  induction g as [|[k v] g IH]; simpl; [intros []|].
  destruct (m =? k) eqn:Heq; [eauto|].
  intros [E|H]; [apply Z.eqb_neq in Heq; congruence|now apply IH].
Qed.

Lemma existsb_perm {A : Type} (f : A -> bool) (l l' : list A) :
  Permutation l l' -> existsb f l = existsb f l'.
Proof.
  intros P. destruct (existsb f l) eqn:E1, (existsb f l') eqn:E2; auto.
  - apply existsb_exists in E1. destruct E1 as [x [Hx Hf]].
    assert (existsb f l' = true)
      by (apply existsb_exists; exists x; split;
          [eapply Permutation_in; eassumption|exact Hf]).
    congruence.
  - apply existsb_exists in E2. destruct E2 as [x [Hx Hf]].
    assert (existsb f l = true)
      by (apply existsb_exists; exists x; split;
          [eapply Permutation_in; [apply Permutation_sym|]; eassumption
          |exact Hf]).
    congruence.
Qed.

Lemma month_entry_perm (daily : bool) (m : Z) (rows rows' : list (Timestamp * Q)) :
  Permutation rows rows' -> month_entry daily m rows = month_entry daily m rows'.
Proof.
  intros P. unfold month_entry, covered.
  assert (Pv : Permutation (month_values m rows) (month_values m rows'))
    by (unfold month_values; now apply Permutation_map, month_rows_perm).
  rewrite (existsb_perm _ P), (existsb_perm (fun r => m <=? ts_month (fst r)) P).
  pose proof (Qsum_perm Pv) as Hq.
  destruct daily; [now rewrite Hq|].
  destruct (month_values m rows) as [|a l], (month_values m rows') as [|a' l'].
  - reflexivity.
  - apply Permutation_nil in Pv. discriminate.
  - apply Permutation_sym, Permutation_nil in Pv. discriminate.
  - now rewrite Hq.
Qed.

Lemma lookup_resample_entry (rows : list (Timestamp * Q)) (m : Z) :
  lookup m (resample_MS_sum rows) = month_entry true m rows.
Proof.
  unfold month_entry, resample_MS_sum.
  pose proof (increasing_groupby rows) as Hinc.
  pose proof (fun k => keys_groupby rows k) as Hkeys.
  pose proof (lookup_groupby rows) as Hl.
  destruct (groupby_month_sum rows) as [|[m0 s0] g] eqn:Eg.
  - replace (covered m rows) with false; [reflexivity|].
    symmetry. unfold covered. apply andb_false_iff. left.
    destruct rows as [|r rows]; [reflexivity|].
    exfalso. apply (proj2 (Hkeys (ts_month (fst r)))). now left.
  - set (G := (m0, s0) :: g) in *.
    assert (Hlast : last_month G m0 = last (keys G) m0).
    { unfold last_month, keys. symmetry. exact (last_map fst G (m0, 0%Q)). }
    assert (Hm1 : In (last_month G m0) (keys G)).
    { rewrite Hlast. unfold G, keys. cbn [map fst].
      destruct (exists_last (l := m0 :: map fst g) ltac:(discriminate))
        as [l' [a Ea]].
      rewrite Ea, last_last. apply in_or_app. right. now left. }
    assert (Hb : forall k, In k (keys G) -> m0 <= k <= last_month G m0).
    { intros k Hk. rewrite Hlast. exact (increasing_bounds Hinc Hk). }
    rewrite (lookup_range
               (fun k => match lookup k G with Some s => s | None => 0%Q end)).
    assert (Hcov : covered m rows
                   = (m0 + Z.of_nat 0 <=? m)
                     && (m <? m0 + Z.of_nat 0
                              + Z.of_nat (Z.to_nat (last_month G m0 - m0 + 1)))).
    { pose proof (Hb _ Hm1) as Hle.
      unfold covered.
      destruct (existsb (fun r => ts_month (fst r) <=? m) rows) eqn:E1.
      - apply existsb_exists in E1. destruct E1 as [r1 [Hr1 Hle1]].
        apply Z.leb_le in Hle1.
        assert (H0 : m0 <= ts_month (fst r1)).
        { apply Hb, Hkeys.
          exact (in_map (fun r => ts_month (fst r)) rows r1 Hr1). }
        destruct (existsb (fun r => m <=? ts_month (fst r)) rows) eqn:E2.
        + apply existsb_exists in E2. destruct E2 as [r2 [Hr2 Hle2]].
          apply Z.leb_le in Hle2.
          assert (H2 : ts_month (fst r2) <= last_month G m0).
          { apply Hb, Hkeys.
            exact (in_map (fun r => ts_month (fst r)) rows r2 Hr2). }
          symmetry. apply andb_true_iff. rewrite Z.leb_le, Z.ltb_lt. simpl. lia.
        + symmetry. cbn [andb]. apply andb_false_iff. right. apply Z.ltb_ge.
          apply Hkeys, in_map_iff in Hm1. destruct Hm1 as [r2 [Hr2 Hin2]].
          assert (Hn : (m <=? ts_month (fst r2)) = false).
          { destruct (m <=? ts_month (fst r2)) eqn:E; [|reflexivity].
            assert (existsb (fun r => m <=? ts_month (fst r)) rows = true)
              by (apply existsb_exists; eauto).
            congruence. }
          apply Z.leb_gt in Hn. simpl. lia.
      - symmetry. cbn [andb]. apply andb_false_iff. left. apply Z.leb_gt.
        assert (Hm0 : In m0 (keys G)) by now left.
        apply Hkeys, in_map_iff in Hm0. destruct Hm0 as [r1 [Hr1 Hin1]].
        assert (Hn : (ts_month (fst r1) <=? m) = false).
        { destruct (ts_month (fst r1) <=? m) eqn:E; [|reflexivity].
          assert (existsb (fun r => ts_month (fst r) <=? m) rows = true)
            by (apply existsb_exists; eauto).
          congruence. }
        apply Z.leb_gt in Hn. simpl. lia. }
    rewrite <- Hcov. destruct (covered m rows); [|reflexivity].
    rewrite Hl. destruct (month_values m rows); reflexivity.
Qed.

Lemma to_monthly_df_rows (series : list Obs) :
  _to_monthly_df series =
  let df := sort_values (dropna series) in
  if is_daily df then resample_MS_sum df else groupby_month_sum df.
Proof. destruct series; reflexivity. Qed.

Lemma lookup_to_monthly_df (series : list Obs) (m : Z) :
  lookup m (_to_monthly_df series)
  = month_entry (is_daily (sort_values (dropna series))) m (dropna series).
Proof.
  rewrite to_monthly_df_rows. cbv zeta.
  rewrite <- (month_entry_perm _ m (sort_values_perm (dropna series))).
  destruct (is_daily (sort_values (dropna series))).
  - apply lookup_resample_entry.
  - apply lookup_groupby.
Qed.

Lemma month_values_nonempty (m : Z) (rows : list (Timestamp * Q)) :
  month_values m rows <> [] <-> exists r, In r rows /\ ts_month (fst r) = m.
Proof.
  unfold month_values. split.
  - intros H. destruct (filter (in_month m) rows) as [|r l] eqn:Ef;
      [now elim H|].
    assert (Hr : In r (filter (in_month m) rows)) by (rewrite Ef; now left).
    apply filter_In in Hr. destruct Hr as [Hr Hm].
    exists r. split; [exact Hr|]. now apply Z.eqb_eq.
  - intros [r [Hr Hm]] H.
    assert (Hf : In r (filter (in_month m) rows)).
    { apply filter_In. split; [exact Hr|]. now apply Z.eqb_eq. }
    apply map_eq_nil in H. rewrite H in Hf. destruct Hf.
Qed.

Lemma covered_spec (m : Z) (rows : list (Timestamp * Q)) :
  covered m rows = true <->
  exists r1 r2, In r1 rows /\ In r2 rows
                /\ ts_month (fst r1) <= m <= ts_month (fst r2).
Proof.
  unfold covered. rewrite andb_true_iff, !existsb_exists. split.
  - intros [[r1 [H1 L1]] [r2 [H2 L2]]].
    apply Z.leb_le in L1. apply Z.leb_le in L2. exists r1, r2. auto.
  - intros [r1 [r2 [H1 [H2 [L1 L2]]]]].
    split; [exists r1|exists r2]; split; auto; now apply Z.leb_le.
Qed.

Lemma in_keys_lookup (m : Z) (g : Monthly) :
  In m (keys g) <-> lookup m g <> None.
Proof.
  split.
  - intros H. apply lookup_some_in_keys in H. destruct H as [s ->]. discriminate.
  - intros H. destruct (lookup m g) as [s|] eqn:E; [|now elim H].
    now apply lookup_in_keys in E.
Qed.

(** X13.  Read as monthly, a series normalizes to exactly the months that
    have an observation: gaps stay gaps.  Read as daily, it normalizes to
    every month from the first to the last observed one, and a month in
    between without observations holds 0. *)
Theorem to_monthly_df_index (series : list Obs) :
  let rows := dropna series in
  let daily := is_daily (sort_values rows) in
  (daily = false ->
   forall m, In m (keys (_to_monthly_df series)) <->
             exists r, In r rows /\ ts_month (fst r) = m)
  /\ (daily = true ->
      forall m, In m (keys (_to_monthly_df series)) <->
                exists r1 r2, In r1 rows /\ In r2 rows
                              /\ ts_month (fst r1) <= m <= ts_month (fst r2))
  /\ (daily = true ->
      forall m, In m (keys (_to_monthly_df series)) ->
                (forall r, In r rows -> ts_month (fst r) <> m) ->
                lookup m (_to_monthly_df series) = Some 0%Q).
Proof.
  intros rows daily. split; [|split]; intros Hd m.
  - rewrite in_keys_lookup, lookup_to_monthly_df. fold rows daily.
    rewrite Hd. unfold month_entry.
    rewrite <- month_values_nonempty.
    destruct (month_values m rows); split; congruence.
  - rewrite in_keys_lookup, lookup_to_monthly_df. fold rows daily.
    rewrite Hd. unfold month_entry. rewrite <- covered_spec.
    destruct (covered m rows); split; congruence.
  - rewrite in_keys_lookup, lookup_to_monthly_df. fold rows daily.
    rewrite Hd. unfold month_entry.
    destruct (covered m rows); [|congruence].
    intros _ Hno.
    destruct (month_values m rows) as [|v vs] eqn:Ev; [reflexivity|].
    exfalso.
    assert (Hne : month_values m rows <> []) by (rewrite Ev; discriminate).
    apply month_values_nonempty in Hne. destruct Hne as [r [Hr Hm]].
    exact (Hno r Hr Hm).
Qed.


Lemma to_monthly_df_index_witness :
  _to_monthly_df january_march_daily
  = [(Jan2021, 310%Q); (Feb2021, 0%Q); (Jan2021 + 2, 310%Q)]
  /\ lookup Feb2021 (_to_monthly_df january_march_daily) = Some 0%Q.
Proof.
  split; [vm_compute; reflexivity|].
  apply (proj2 (proj2 (to_monthly_df_index january_march_daily))).
  - vm_compute. reflexivity.
  - vm_compute. right. now left.
  - apply (in_forallb (fun r => negb (ts_month (fst r) =? Feb2021))).
    + intros r Hr E. rewrite E in Hr. vm_compute in Hr. discriminate.
    + vm_compute. reflexivity.
Defined.

(** ** The seasonal-naive strategy over a long horizon *)

Lemma naive_rows (E : Env) (y : Monthly) (steps : Z) :
  (12 <= List.length y)%nat ->
  exists band,
    _naive_seasonal_forecast E y steps =
    Ok (map (fun i =>
               let v := nth (List.length y - 12 + i mod 12) (values y) 0%Q in
               mkFRow (month_start (last_month y 0 + 1 + Z.of_nat i))
                      (Num v) (fsub (Num v) band) (fadd (Num v) band))
            (range steps),
        "naive_seasonal").
Proof.
  intros H. unfold _naive_seasonal_forecast.
  replace (List.length y <? 12)%nat with false
    by (symmetry; now apply Nat.ltb_ge).
  eexists. unfold with_band, _make_future_month_index, last_index.
  rewrite combine_map_seq, map_map, values_length. reflexivity.
Qed.

(** X16.  A seasonal-naive forecast longer than a year repeats itself: the
    row of step [i + 12] has the mean and the bounds of the row of step [i],
    dated twelve months later. *)
Theorem naive_seasonal_repeats_yearly
    (E : Env) (y : Monthly) (steps : Z) (i : nat) (rows : list FRow)
    (m : string) :
  _naive_seasonal_forecast E y steps = Ok (rows, m) ->
  Z.of_nat i + 12 < steps ->
  exists r r',
    nth_error rows i = Some r /\ nth_error rows (i + 12) = Some r'
    /\ f_mean r' = f_mean r /\ f_lo r' = f_lo r /\ f_hi r' = f_hi r
    /\ ts_month (f_date r') = ts_month (f_date r) + 12.
Proof.
  intros Hre Hi.
  assert (Hl : (12 <= List.length y)%nat).
  { pose proof Hre as H. apply naive_inv in H. tauto. }
  destruct (naive_rows E y steps Hl) as [band Heq].
  rewrite Heq in Hre. injection Hre as <- _.
  assert (Hmod : ((i + 12) mod 12 = i mod 12)%nat).
  { replace (i + 12)%nat with (i + 1 * 12)%nat by lia.
    apply Nat.Div0.mod_add. }
  set (f := fun i : nat =>
              let v := nth (List.length y - 12 + i mod 12) (values y) 0%Q in
              mkFRow (month_start (last_month y 0 + 1 + Z.of_nat i))
                     (Num v) (fsub (Num v) band) (fadd (Num v) band)).
  exists (f i), (f (i + 12)%nat).
  split; [|split].
  - unfold range. rewrite nth_error_map, nth_error_seq.
    replace (i <? Z.to_nat steps)%nat with true
      by (symmetry; apply Nat.ltb_lt; lia).
    reflexivity.
  - unfold range. rewrite nth_error_map, nth_error_seq.
    replace (i + 12 <? Z.to_nat steps)%nat with true
      by (symmetry; apply Nat.ltb_lt; lia).
    reflexivity.
  - unfold f. cbv beta zeta.
    cbn [f_mean f_lo f_hi f_date month_start ts_month].
    rewrite Hmod. repeat split; try reflexivity. lia.
Qed.

Lemma naive_seasonal_repeats_yearly_witness :
  exists rows r r',
    _naive_seasonal_forecast env_no_data ramp_history 14 = Ok (rows, "naive_seasonal")
    /\ nth_error rows 1 = Some r /\ nth_error rows 13 = Some r'
    /\ f_mean r' = f_mean r /\ f_lo r' = f_lo r /\ f_hi r' = f_hi r
    /\ ts_month (f_date r') = ts_month (f_date r) + 12.
Proof.
  destruct (_naive_seasonal_forecast env_no_data ramp_history 14)
    as [[rows m]|e] eqn:Er; [|vm_compute in Er; discriminate].
  assert (Hm : m = "naive_seasonal")
    by (pose proof Er as H; apply naive_inv in H; tauto).
  subst m.
  destruct (@naive_seasonal_repeats_yearly env_no_data ramp_history 14 1
              rows "naive_seasonal" Er ltac:(lia)) as [r [r' H]].
  exists rows, r, r'. split; [reflexivity|exact H].
Defined.

(** ** The local adapter *)

Lemma insert_row_perm (r : LocalData.CsvRow) (rows : list LocalData.CsvRow) :
  Permutation (LocalData.insert_row r rows) (r :: rows).
Proof.
  induction rows as [|r' rows IH]; simpl.
  - apply Permutation_refl.
  - destruct (String.leb _ _); [apply Permutation_refl|].
    eapply perm_trans; [apply perm_skip, IH|apply perm_swap].
Qed.

Lemma sort_by_date_perm (rows : list LocalData.CsvRow) :
  Permutation (LocalData.sort_by_date rows) rows.
Proof.
  induction rows as [|r rows IH]; simpl; [constructor|].
  eapply perm_trans; [apply insert_row_perm|now apply perm_skip].
Qed.

Lemma ascii_compare_lt_trans (x y z : ascii) :
  Ascii.compare x y = Lt -> Ascii.compare y z = Lt -> Ascii.compare x z = Lt.
Proof.
  unfold Ascii.compare. rewrite !N.compare_lt_iff. lia.
Qed.

Lemma string_leb_trans (a b c : string) :
  date_le a b -> date_le b c -> date_le a c.
Proof.
  unfold date_le, String.leb. revert b c.
  induction a as [|x a IH]; intros b c Hab Hbc.
  - destruct c; reflexivity.
  - destruct b as [|y b]; [discriminate Hab|].
    destruct c as [|z c]; [discriminate Hbc|].
    cbn [String.compare] in *.
    destruct (Ascii.compare x y) eqn:Exy; [|clear Hab|discriminate Hab].
    + apply Ascii.compare_eq_iff in Exy. subst y.
      destruct (Ascii.compare x z); [now apply (IH b c)|reflexivity|exact Hbc].
    + destruct (Ascii.compare y z) eqn:Eyz; [| |discriminate Hbc].
      * apply Ascii.compare_eq_iff in Eyz. subst z. now rewrite Exy.
      * now rewrite (ascii_compare_lt_trans _ _ _ Exy Eyz).
Qed.

Lemma insert_row_sorted (r : LocalData.CsvRow) (rows : list LocalData.CsvRow) :
  StronglySorted (fun a b => date_le (LocalData.csv_date a) (LocalData.csv_date b))
                 rows ->
  StronglySorted (fun a b => date_le (LocalData.csv_date a) (LocalData.csv_date b))
                 (LocalData.insert_row r rows).
Proof.
  induction rows as [|r' rows IH]; simpl; intros Hs.
  - repeat constructor.
  - inversion Hs as [|? ? Hs' Hall]; subst.
    destruct (String.leb (LocalData.csv_date r) (LocalData.csv_date r')) eqn:Hle.
    + constructor; [exact Hs|]. constructor; [exact Hle|].
      eapply Forall_impl; [|exact Hall]. simpl. intros a Ha.
      eapply string_leb_trans; [exact Hle|exact Ha].
    + constructor; [now apply IH|].
      apply Forall_forall. intros a Ha.
      apply (Permutation_in _ (insert_row_perm r rows)) in Ha.
      destruct Ha as [<-|Ha].
      * destruct (String.leb_total (LocalData.csv_date r) (LocalData.csv_date r'))
          as [H|H]; [congruence|exact H].
      * rewrite Forall_forall in Hall. now apply Hall.
Qed.

Lemma sort_by_date_sorted (rows : list LocalData.CsvRow) :
  StronglySorted (fun a b => date_le (LocalData.csv_date a) (LocalData.csv_date b))
                 (LocalData.sort_by_date rows).
Proof.
  induction rows as [|r rows IH]; simpl; [constructor|].
  now apply insert_row_sorted.
Qed.

Lemma records_In (rows : list LocalData.CsvRow) (o : LocalData.LocalObs) :
  In o (LocalData.records rows) <->
  exists r, In r rows
            /\ LocalData.csv_value r = Num (LocalData.lo_value o)
            /\ LocalData.csv_date r = LocalData.lo_date o.
Proof.
  induction rows as [|r rows IH]; simpl.
  - split; [intros []|intros [r [[] _]]].
  - destruct (LocalData.csv_value r) as [v|] eqn:Ev; simpl; rewrite IH; split.
    + intros [<-|[r' [H1 H2]]]; [exists r; simpl; auto|exists r'; auto].
    + intros [r' [[<-|H1] [H2 H3]]].
      * left. destruct o as [d q]. simpl in *. congruence.
      * right. exists r'. auto.
    + intros [r' [H1 H2]]. exists r'. auto.
    + intros [r' [[<-|H1] [H2 H3]]]; [congruence|exists r'; auto].
Qed.

Lemma records_perm (rows rows' : list LocalData.CsvRow) :
  Permutation rows rows' ->
  Permutation (LocalData.records rows) (LocalData.records rows').
Proof.
  induction 1 as [|r l l' _ IH|r r' l|l l' l'' _ IH1 _ IH2]; simpl.
  - constructor.
  - destruct (LocalData.csv_value r); [now apply perm_skip|exact IH].
  - destruct (LocalData.csv_value r), (LocalData.csv_value r');
      try apply Permutation_refl. apply perm_swap.
  - eapply perm_trans; eassumption.
Qed.

Lemma records_sorted (rows : list LocalData.CsvRow) :
  StronglySorted (fun a b => date_le (LocalData.csv_date a) (LocalData.csv_date b))
                 rows ->
  StronglySorted (fun a b => date_le (LocalData.lo_date a) (LocalData.lo_date b))
                 (LocalData.records rows).
Proof.
  induction 1 as [|r rows Hs IH Hall]; simpl; [constructor|].
  destruct (LocalData.csv_value r) as [v|]; [|exact IH].
  constructor; [exact IH|].
  apply Forall_forall. intros o Ho. apply records_In in Ho.
  destruct Ho as [r' [Hr' [_ Hd]]]. simpl. rewrite <- Hd.
  rewrite Forall_forall in Hall. now apply Hall.
Qed.

(** X17.  The local adapter answers [None] when the CSV is missing, without
    consulting [to_iso3]; it lets an exception of [to_iso3] through; and
    otherwise its answer is never an empty list: it is [None] exactly when no
    selected row has a numeric value, else the records of all those rows,
    each once -- the rows of the disease (compared in lower case with the
    stripped, lower-cased query), of the ISO3 code [to_iso3] gives (compared
    in upper case), dated within the window. *)
Theorem fetch_local_timeseries_answer
    (df : list LocalData.CsvRow) (to_iso3 : string -> result string)
    (disease region date_from date_to : string) :
  LocalData.fetch_local_timeseries None to_iso3 disease region date_from date_to
  = Ok None
  /\ (forall e, to_iso3 region = Raise e ->
        LocalData.fetch_local_timeseries (Some df) to_iso3
          disease region date_from date_to = Raise e)
  /\ (forall iso3, to_iso3 region = Ok iso3 ->
        let hits :=
          LocalData.records
            (filter (LocalData.selected_row (lower (strip disease)) iso3
                       date_from date_to) df) in
        (hits = [] ->
         LocalData.fetch_local_timeseries (Some df) to_iso3
           disease region date_from date_to = Ok None)
        /\ (hits <> [] ->
            exists out,
              LocalData.fetch_local_timeseries (Some df) to_iso3
                disease region date_from date_to = Ok (Some out)
              /\ out <> [] /\ Permutation out hits)).
Proof.
  split; [reflexivity|]. split.
  - intros e He. unfold LocalData.fetch_local_timeseries. now rewrite He.
  - intros iso3 Hi hits. unfold LocalData.fetch_local_timeseries.
    rewrite Hi. cbn [bind].
    set (q := filter (LocalData.selected_row (lower (strip disease)) iso3
                        date_from date_to) df) in *.
    assert (P : Permutation (LocalData.records (LocalData.sort_by_date q)) hits)
      by apply records_perm, sort_by_date_perm.
    split.
    + intros Hh. destruct q as [|r q']; [reflexivity|].
      rewrite Hh in P. apply Permutation_sym, Permutation_nil in P.
      now rewrite P.
    + intros Hh. destruct q as [|r q']; [now elim Hh|].
      destruct (LocalData.records (LocalData.sort_by_date (r :: q')))
        as [|o out] eqn:Eo.
      * apply Permutation_nil in P. contradiction.
      * exists (o :: out). split; [reflexivity|]. split; [discriminate|exact P].
Qed.

Lemma fetch_local_timeseries_answer_witness :
  exists out,
    LocalData.fetch_local_timeseries (Some LocalData.sample_csv) Mock.iso3
      " DENGUE " "Sri Lanka" "2021-01-01" "2021-12-31" = Ok (Some out)
    /\ out <> []
    /\ Permutation out [LocalData.mkLocalObs "2021-03-01" 30;
                        LocalData.mkLocalObs "2021-01-01" 10].
Proof.
  destruct (fetch_local_timeseries_answer LocalData.sample_csv Mock.iso3
              " DENGUE " "Sri Lanka" "2021-01-01" "2021-12-31") as [_ [_ H]].
  destruct (H "LKA" eq_refl) as [_ H']. apply H'. discriminate.
Defined.

(** X18.  Every record of a local answer lies within the requested window
    and the records come in the order of their dates (as text). *)
Theorem fetch_local_timeseries_window
    (csv : option (list LocalData.CsvRow)) (to_iso3 : string -> result string)
    (disease region date_from date_to : string) (out : list LocalData.LocalObs) :
  LocalData.fetch_local_timeseries csv to_iso3 disease region date_from date_to
  = Ok (Some out) ->
  Forall (fun o => date_le date_from (LocalData.lo_date o)
                   /\ date_le (LocalData.lo_date o) date_to) out
  /\ StronglySorted
       (fun a b => date_le (LocalData.lo_date a) (LocalData.lo_date b)) out.
Proof.
  unfold LocalData.fetch_local_timeseries.
  destruct csv as [df|]; [|discriminate].
  destruct (to_iso3 region) as [iso3|e]; cbn [bind]; [|discriminate].
  set (q := filter (LocalData.selected_row (lower (strip disease)) iso3
                      date_from date_to) df).
  destruct q as [|r q'] eqn:Eq; [discriminate|]. rewrite <- Eq.
  destruct (LocalData.records (LocalData.sort_by_date q)) as [|o l] eqn:Eo;
    [discriminate|].
  intros H. injection H as <-. rewrite <- Eo. split.
  - apply Forall_forall. intros x Hx. apply records_In in Hx.
    destruct Hx as [r0 [Hr0 [_ Hd]]].
    apply (Permutation_in _ (sort_by_date_perm q)) in Hr0.
    unfold q in Hr0. apply filter_In in Hr0. destruct Hr0 as [_ Hsel].
    unfold LocalData.selected_row in Hsel.
    rewrite !andb_true_iff in Hsel. rewrite <- Hd. unfold date_le. tauto.
  - apply records_sorted, sort_by_date_sorted.
Qed.

Lemma fetch_local_timeseries_window_witness :
  LocalData.fetch_local_timeseries (Some LocalData.sample_csv) Mock.iso3
    " DENGUE " "Sri Lanka" "2021-01-01" "2021-12-31"
  = Ok (Some [LocalData.mkLocalObs "2021-01-01" 10;
              LocalData.mkLocalObs "2021-03-01" 30])
  /\ StronglySorted
       (fun a b => date_le (LocalData.lo_date a) (LocalData.lo_date b))
       [LocalData.mkLocalObs "2021-01-01" 10;
        LocalData.mkLocalObs "2021-03-01" 30].
Proof.
  split; [reflexivity|].
  apply (@fetch_local_timeseries_window (Some LocalData.sample_csv) Mock.iso3
           " DENGUE " "Sri Lanka" "2021-01-01" "2021-12-31").
  reflexivity.
Defined.
